(** * Blueprint viewer/editor (src/depo2/src/pages/Home.tsx)

    A shallow embedding of the annotation engine of the Home page: the
    segment and polyline store held in React state, the drag and polyline
    drawing sessions of [BlueprintImageWithSegments], the wheel zoom, the
    import validator of [BlueprintSidebarEdit] and the persisted-snapshot
    initialisers of [Home] and [WheelDetailModal].

    JavaScript numbers are IEEE 754 binary64 values and are modelled by
    Rocq's primitive floats, so comparisons with NaN, signed zeros and
    rounding behave as in the program.  JavaScript strings are modelled by
    [string] holding the UTF-8 encoding of the text.  Each React event
    handler is a function from the state rendered when the event fires to
    the state after all of its state updates are applied. *)

From Stdlib Require Import Floats ZArith Uint63 List String Ascii Bool Lia.
From Stdlib Require Import DecimalString.
Import ListNotations.

Set Warnings "-inexact-float,-register-all".

Local Open Scope string_scope.
Local Open Scope list_scope.

(** ** The JavaScript platform: numbers *)

Module JS.

Definition number := float.

(** [Number.isNaN] and [Number.isFinite] on a value that is a number. *)
Definition Number_isNaN (v : number) : bool := PrimFloat.is_nan v.

Definition Number_isFinite (v : number) : bool := PrimFloat.is_finite v.

(** [Math.max(a, b)] and [Math.min(a, b)]: NaN if either argument is NaN,
    and +0 is larger than -0. *)
Definition Math_max (a b : number) : number :=
  if Number_isNaN a || Number_isNaN b then nan
  else if (a <? b)%float then b
  else if (b <? a)%float then a
  else if get_sign a then b else a.

Definition Math_min (a b : number) : number :=
  if Number_isNaN a || Number_isNaN b then nan
  else if (a <? b)%float then a
  else if (b <? a)%float then b
  else if get_sign a then a else b.

(** The integer [n] that [x.toFixed(2)] prints for a finite [x]: the integer
    for which [n / 100 - |x|] is closest to zero, the larger one on a tie.
    [|x|] is [m * 2^e] exactly. *)
Definition toFixed2_digits (m : positive) (e : Z) : Z :=
  if (0 <=? e)%Z then (100 * Z.pos m * 2 ^ e)%Z
  else ((200 * Z.pos m + 2 ^ (- e)) / 2 ^ (1 - e))%Z.

(** [Number(x.toFixed(2))].  The printed decimal is within 0.005 of [x].
    For [|x| >= 2^46] the doubles next to [x] are [2^-6] away from it, or
    [x] is a power of two and the decimal is [x] exactly, so parsing the
    decimal yields [x] again (this covers [x >= 1e21] and the infinities,
    where [toFixed] prints [String(x)]).  Below that bound [n < 2^53] is a
    double and the correctly rounded quotient [n / 100] is the double that
    parsing the printed decimal yields.  The sign is printed only when
    [x < 0]. *)
Definition Number_toFixed2 (x : number) : number :=
  match Prim2SF x with
  | S754_nan => nan
  | S754_infinity _ => x
  | S754_zero _ => 0%float
  | S754_finite s m e =>
      if (0x1p46 <=? abs x)%float then x
      else
        let n := toFixed2_digits m e in
        let r := (of_uint63 (Uint63.of_Z n) / 100)%float in
        if s then (- r)%float else r
  end.

End JS.

(** ** The JavaScript platform: strings *)

Module JSString.

(** [s.trim().length === 0]: every code point of [s] is white space or a
    line terminator (TAB, LF, VT, FF, CR, SP, NBSP, U+1680, U+2000..U+200A,
    U+2028, U+2029, U+202F, U+205F, U+3000, U+FEFF), read off the UTF-8
    bytes of [s]. *)
Fixpoint trim_is_empty (s : string) : bool :=
  match s with
  | EmptyString => true
  | String c1 r1 =>
      let b1 := nat_of_ascii c1 in
      if ((9 <=? b1) && (b1 <=? 13) || (b1 =? 32))%nat then trim_is_empty r1
      else
        match r1 with
        | EmptyString => false
        | String c2 r2 =>
            let b2 := nat_of_ascii c2 in
            if ((b1 =? 194) && (b2 =? 160))%nat then trim_is_empty r2
            else
              match r2 with
              | EmptyString => false
              | String c3 r3 =>
                  let b3 := nat_of_ascii c3 in
                  if ((b1 =? 225) && (b2 =? 154) && (b3 =? 128)
                      || (b1 =? 226) && (b2 =? 128)
                         && ((128 <=? b3) && (b3 <=? 138)
                             || (b3 =? 168) || (b3 =? 169) || (b3 =? 175))
                      || (b1 =? 226) && (b2 =? 129) && (b3 =? 159)
                      || (b1 =? 227) && (b2 =? 128) && (b3 =? 128)
                      || (b1 =? 239) && (b2 =? 187) && (b3 =? 191))%nat
                  then trim_is_empty r3
                  else false
              end
        end
  end.

(** Decimal text of a natural number, as a template literal prints it. *)
Definition of_nat (n : nat) : string :=
  NilEmpty.string_of_uint (Nat.to_uint n).

End JSString.

(** ** The JavaScript platform: values produced by [JSON.parse] *)

Inductive JSON : Type :=
| JNull
| JBool (b : bool)
| JNum (x : float)
| JStr (s : string)
| JArr (items : list JSON)
| JObj (props : list (string * JSON)).

Module JSValue.

(** Own-property lookup in an object literal, in source order. *)
Fixpoint lookup (k : string) (props : list (string * JSON)) : option JSON :=
  match props with
  | [] => None
  | (k', v) :: rest => if String.eqb k k' then Some v else lookup k rest
  end.

Inductive Access : Type :=
| Throws
| Undefined
| Value (v : JSON).

(** [v.k] for one of the property names the program reads ([id], [code],
    [top], [label], [points], ...): a TypeError on [null], the own property
    of an object, and [undefined] on every other value, none of which
    carries a property of these names. *)
Definition get (v : JSON) (k : string) : Access :=
  match v with
  | JNull => Throws
  | JObj props =>
      match lookup k props with
      | Some x => Value x
      | None => Undefined
      end
  | _ => Undefined
  end.

Definition Array_isArray (v : JSON) : bool :=
  match v with
  | JArr _ => true
  | _ => false
  end.

(** [!v] is false exactly on the truthy values. *)
Definition truthy (v : JSON) : bool :=
  match v with
  | JNull => false
  | JBool b => b
  | JNum x => negb (PrimFloat.is_nan x || PrimFloat.is_zero x)
  | JStr s => negb (String.eqb s "")
  | JArr _ | JObj _ => true
  end.

(** [typeof v === 'object'] *)
Definition typeof_is_object (v : JSON) : bool :=
  match v with
  | JNull | JArr _ | JObj _ => true
  | _ => false
  end.

End JSValue.

(** [JSON.parse(JSON.stringify(v))] on a plain data value: a number that is
    not finite is written as [null], -0 is written as [0], every other number
    is printed with the shortest digits that identify it and is read back
    unchanged; strings, booleans, arrays and objects keep their content. *)
Fixpoint JSON_roundtrip (v : JSON) : JSON :=
  match v with
  | JNum x =>
      if JS.Number_isFinite x
      then (if PrimFloat.is_zero x then JNum 0%float else JNum x)
      else JNull
  | JArr items => JArr (map JSON_roundtrip items)
  | JObj props => JObj (map (fun '(k, w) => (k, JSON_roundtrip w)) props)
  | _ => v
  end.

(** ** Data model (interfaces [Segment], [PolylinePoint], [Polyline]) *)

Inductive SegmentColor : Type := cyan | emerald | amber.

Definition PolylineColor := SegmentColor.

Inductive PolylineDashStyle : Type := solid | dashed | dotted.

Definition color_name (c : SegmentColor) : string :=
  match c with
  | cyan => "cyan"
  | emerald => "emerald"
  | amber => "amber"
  end.

Definition dash_name (d : PolylineDashStyle) : string :=
  match d with
  | solid => "solid"
  | dashed => "dashed"
  | dotted => "dotted"
  end.

Module Segment.

Record t : Type := mk
  { id : string;
    code : string;
    title : string;
    details : string;
    top : float;
    left : float;
    width : float;
    height : float;
    color : SegmentColor }.

(** The object a segment is at run time, as a plain data value. *)
Definition value (s : t) : JSON :=
  JObj [ ("id", JStr (id s)); ("code", JStr (code s));
         ("title", JStr (title s)); ("details", JStr (details s));
         ("top", JNum (top s)); ("left", JNum (left s));
         ("width", JNum (width s)); ("height", JNum (height s));
         ("color", JStr (color_name (color s))) ].

End Segment.

(** [Partial<Segment>]: the fields a patch object carries. *)
Module SegmentPatch.

Record t : Type := mk
  { id : option string;
    code : option string;
    title : option string;
    details : option string;
    top : option float;
    left : option float;
    width : option float;
    height : option float;
    color : option SegmentColor }.

Definition empty : t := mk None None None None None None None None None.

Definition override {A} (old : A) (new : option A) : A :=
  match new with
  | Some v => v
  | None => old
  end.

(** [{ ...segment, ...patch }] *)
Definition spread (s : Segment.t) (p : t) : Segment.t :=
  Segment.mk
    (override (Segment.id s) (id p))
    (override (Segment.code s) (code p))
    (override (Segment.title s) (title p))
    (override (Segment.details s) (details p))
    (override (Segment.top s) (top p))
    (override (Segment.left s) (left p))
    (override (Segment.width s) (width p))
    (override (Segment.height s) (height p))
    (override (Segment.color s) (color p)).

End SegmentPatch.

Module PolylinePoint.

Record t : Type := mk { x : float; y : float }.

End PolylinePoint.

Module Polyline.

Record t : Type := mk
  { id : string;
    label : string;
    description : string;
    color : PolylineColor;
    strokeWidth : float;
    dashStyle : PolylineDashStyle;
    points : list PolylinePoint.t }.

(** [{ ...poly, points: [...poly.points, point] }] *)
Definition push_point (poly : t) (point : PolylinePoint.t) : t :=
  mk (id poly) (label poly) (description poly) (color poly)
     (strokeWidth poly) (dashStyle poly) (points poly ++ [point]).

End Polyline.

(** ** Default datasets *)

Definition DEFAULT_SEGMENTS : list Segment.t :=
  [ Segment.mk "tp2" "TP-2" "Участок TP-2"
      "Выделение рядом с надписью TP-2 в правой верхней части чертежа."
      13.744785262817327 86.56305506441433 10 7 cyan;
    Segment.mk "otk" "OTK" "Приёмная OTK (ОТК)"
      "Зона приёмной ОТК на схеме."
      51.423155845950475 24.31348894489884 4 8 emerald;
    Segment.mk "seg-mljiz58p" "КЦ" "Колесный цех" ""
      41.13431810215078 75.61856116451851 15 8 amber ].

Definition DEFAULT_HOME_POLYLINES : list Polyline.t :=
  [ Polyline.mk "wheel-poly-mljuz1y8" "Линия 1" "" cyan 0.3 dashed
      [ PolylinePoint.mk 15.412186622619629 88.62004089355469;
        PolylinePoint.mk 16.129032135009766 84.09867095947266;
        PolylinePoint.mk 15.770608901977539 18.53879737854004 ] ].

(** ** Shared helpers *)

(** [curr === id] for [curr : string | null]. *)
Definition is_id (curr : option string) (id : string) : bool :=
  match curr with
  | Some c => String.eqb c id
  | None => false
  end.

(** The DOM geometry a pointer handler reads. *)
Module DOMRect.

Record t : Type := mk { left : float; top : float; width : float; height : float }.

End DOMRect.

(** What the refs of the blueprint hold when an event fires: the box of the
    image ([imgRef.current.getBoundingClientRect()]) and the box the SVG
    overlay is laid out on when it is attached and has a screen matrix
    ([svgRef.current], [getScreenCTM()]); [None] stands for a ref or a
    matrix that is [null]. *)
Module Layout.

Record t : Type := mk { svg : option DOMRect.t; img : option DOMRect.t }.

End Layout.

Module MouseEvent.

Record t : Type := mk { clientX : float; clientY : float }.

End MouseEvent.

(** ** Persisted snapshots (localStorage) *)

(** The outcome of [window.localStorage.getItem(key)]. *)
Inductive GetItem : Type :=
| GetThrows
| GetNull
| GetString (stored : string).

(** A polyline as the snapshot initialisers build it.  [color] and the
    elements of [points] are type-cast from the parsed value and not
    inspected, so they are kept as plain values. *)
Module LoadedPolyline.

Record t : Type := mk
  { id : string;
    label : string;
    description : string;
    color : JSON;
    strokeWidth : float;
    dashStyle : PolylineDashStyle;
    points : list JSON }.

Definition point_value (p : PolylinePoint.t) : JSON :=
  JObj [ ("x", JNum (PolylinePoint.x p)); ("y", JNum (PolylinePoint.y p)) ].

(** A typed polyline (a default) as the same kind of run-time value. *)
Definition of_polyline (p : Polyline.t) : t :=
  mk (Polyline.id p) (Polyline.label p) (Polyline.description p)
     (JStr (color_name (Polyline.color p))) (Polyline.strokeWidth p)
     (Polyline.dashStyle p) (map point_value (Polyline.points p)).

End LoadedPolyline.

Section Snapshots.

(** Platform functions the initialisers call: [JSON.parse], with [None] for
    a SyntaxError, and the text [String(x)] of a number. *)
Variable JSON_parse : string -> option JSON.
Variable Number_toString : float -> string.

(** [String(v)] on a parsed value; [None] is the TypeError it throws.  On
    an object it calls the [toString] the object has: the one of
    [Object.prototype], which gives [[object Object]], unless the object
    has an own property [toString].  No value of a parsed text is callable,
    so such an object has no [toString] to call, [valueOf] (its own, or the
    one of [Object.prototype], which returns the object) gives no primitive
    value either, and the conversion throws.  On an array it joins the
    strings of the elements, with the empty string for [null]. *)
Fixpoint String_of (v : JSON) : option string :=
  match v with
  | JNull => Some "null"
  | JBool true => Some "true"
  | JBool false => Some "false"
  | JNum x => Some (Number_toString x)
  | JStr s => Some s
  | JArr items =>
      (fix join (l : list JSON) : option string :=
         match l with
         | [] => Some ""
         | e :: rest =>
             match (match e with JNull => Some "" | _ => String_of e end) with
             | None => None
             | Some here =>
                 match rest with
                 | [] => Some here
                 | _ =>
                     match join rest with
                     | None => None
                     | Some tail => Some (here ++ "," ++ tail)%string
                     end
                 end
             end
         end) items
  | JObj props =>
      match JSValue.lookup "toString" props with
      | Some _ => None
      | None => Some "[object Object]"
      end
  end.

(** The mapping both polyline initialisers apply to every element of the
    parsed array (Home.tsx lines 972-980 and 1352-1360 are the same code).
    [None] is a TypeError: of reading a property of [null], or of
    [String(rawP.id)]. *)
Definition polylineOfRaw (raw : JSON) : option LoadedPolyline.t :=
  match JSValue.get raw "id" with
  | JSValue.Throws => None
  | raw_id =>
      match
        (match raw_id with
         | JSValue.Value v => String_of v
         | _ => Some "undefined"
         end)
      with
      | None => None
      | Some id =>
          Some (LoadedPolyline.mk
            id
            (match JSValue.get raw "label" with
             | JSValue.Value (JStr s) => s
             | _ => "Линия"
             end)
            (match JSValue.get raw "description" with
             | JSValue.Value (JStr s) => s
             | _ => ""
             end)
            (match JSValue.get raw "color" with
             | JSValue.Value JNull | JSValue.Undefined | JSValue.Throws => JStr "cyan"
             | JSValue.Value v => v
             end)
            (match JSValue.get raw "strokeWidth" with
             | JSValue.Value (JNum w) => if JS.Number_isFinite w then w else 0.7%float
             | _ => 0.7%float
             end)
            (match JSValue.get raw "dashStyle" with
             | JSValue.Value (JStr s) =>
                 if String.eqb s "dashed" then dashed
                 else if String.eqb s "dotted" then dotted
                 else solid
             | _ => solid
             end)
            (match JSValue.get raw "points" with
             | JSValue.Value (JArr pts) => pts
             | _ => []
             end))
      end
  end.

(** [parsed.map(...)]: the first element that throws aborts the whole map. *)
Fixpoint mapPolylines (parsed : list JSON) : option (list LoadedPolyline.t) :=
  match parsed with
  | [] => Some []
  | raw :: rest =>
      match polylineOfRaw raw with
      | None => None
      | Some p =>
          match mapPolylines rest with
          | None => None
          | Some ps => Some (p :: ps)
          end
      end
  end.

(** The body of the [try] of a polyline initialiser: [Some] is the value it
    returns, [None] means it fell through or threw. *)
Definition tryLoadPolylines (item : GetItem) : option (list LoadedPolyline.t) :=
  match item with
  | GetThrows => None
  | GetNull => None
  | GetString stored =>
      if String.eqb stored "" then None
      else
        match JSON_parse stored with
        | None => None
        | Some (JArr parsed) => mapPolylines parsed
        | Some _ => None
        end
  end.

(** [useState<Segment[]>(() => ...)] of [Home]: the parsed array is returned
    as it is ([parsed as Segment[]]), so the state holds plain values. *)
Definition Home_segmentsInitializer (item : GetItem) : list JSON :=
  match item with
  | GetThrows => map Segment.value DEFAULT_SEGMENTS
  | GetNull => map Segment.value DEFAULT_SEGMENTS
  | GetString stored =>
      if String.eqb stored "" then map Segment.value DEFAULT_SEGMENTS
      else
        match JSON_parse stored with
        | Some parsed =>
            match parsed with
            | JArr items => items
            | _ => map Segment.value DEFAULT_SEGMENTS
            end
        | None => map Segment.value DEFAULT_SEGMENTS
        end
  end.

(** [useState<Polyline[]>(() => ...)] of [Home]. *)
Definition Home_polylinesInitializer (item : GetItem) : list LoadedPolyline.t :=
  match tryLoadPolylines item with
  | Some loaded => loaded
  | None => map LoadedPolyline.of_polyline DEFAULT_HOME_POLYLINES
  end.

(** [useState<Polyline[]>(() => ...)] of [WheelDetailModal]. *)
Definition WheelDetailModal_polylinesInitializer (item : GetItem) : list LoadedPolyline.t :=
  match tryLoadPolylines item with
  | Some loaded => loaded
  | None => []
  end.

End Snapshots.

(** ** The [Home] component: state and handlers *)

Module Home.

Record State : Type := mk
  { segments : list Segment.t;
    polylines : list Polyline.t;
    hoveredSegmentId : option string;
    selectedSegmentId : option string;
    zoom : float;
    isEditMode : bool;
    isTp2ModalOpen : bool;
    isWheelModalOpen : bool;
    isDrawingPolyline : bool;
    activePolylineId : option string;
    pendingDeletePolylineId : option string }.

(** The [useState] initial values, given the two loaded collections. *)
Definition initial (segs : list Segment.t) (polys : list Polyline.t) : State :=
  mk segs polys None (option_map Segment.id (hd_error segs)) 1%float
     false false false false None None.

Definition setSegments (v : list Segment.t) (h : State) : State :=
  mk v (polylines h) (hoveredSegmentId h) (selectedSegmentId h) (zoom h)
     (isEditMode h) (isTp2ModalOpen h) (isWheelModalOpen h)
     (isDrawingPolyline h) (activePolylineId h) (pendingDeletePolylineId h).

Definition setPolylines (v : list Polyline.t) (h : State) : State :=
  mk (segments h) v (hoveredSegmentId h) (selectedSegmentId h) (zoom h)
     (isEditMode h) (isTp2ModalOpen h) (isWheelModalOpen h)
     (isDrawingPolyline h) (activePolylineId h) (pendingDeletePolylineId h).

Definition setHoveredSegmentId (v : option string) (h : State) : State :=
  mk (segments h) (polylines h) v (selectedSegmentId h) (zoom h)
     (isEditMode h) (isTp2ModalOpen h) (isWheelModalOpen h)
     (isDrawingPolyline h) (activePolylineId h) (pendingDeletePolylineId h).

Definition setSelectedSegmentId (v : option string) (h : State) : State :=
  mk (segments h) (polylines h) (hoveredSegmentId h) v (zoom h)
     (isEditMode h) (isTp2ModalOpen h) (isWheelModalOpen h)
     (isDrawingPolyline h) (activePolylineId h) (pendingDeletePolylineId h).

Definition setZoom (v : float) (h : State) : State :=
  mk (segments h) (polylines h) (hoveredSegmentId h) (selectedSegmentId h) v
     (isEditMode h) (isTp2ModalOpen h) (isWheelModalOpen h)
     (isDrawingPolyline h) (activePolylineId h) (pendingDeletePolylineId h).

Definition setIsEditMode (v : bool) (h : State) : State :=
  mk (segments h) (polylines h) (hoveredSegmentId h) (selectedSegmentId h)
     (zoom h) v (isTp2ModalOpen h) (isWheelModalOpen h)
     (isDrawingPolyline h) (activePolylineId h) (pendingDeletePolylineId h).

Definition setIsDrawingPolyline (v : bool) (h : State) : State :=
  mk (segments h) (polylines h) (hoveredSegmentId h) (selectedSegmentId h)
     (zoom h) (isEditMode h) (isTp2ModalOpen h) (isWheelModalOpen h)
     v (activePolylineId h) (pendingDeletePolylineId h).

Definition setActivePolylineId (v : option string) (h : State) : State :=
  mk (segments h) (polylines h) (hoveredSegmentId h) (selectedSegmentId h)
     (zoom h) (isEditMode h) (isTp2ModalOpen h) (isWheelModalOpen h)
     (isDrawingPolyline h) v (pendingDeletePolylineId h).

Definition setPendingDeletePolylineId (v : option string) (h : State) : State :=
  mk (segments h) (polylines h) (hoveredSegmentId h) (selectedSegmentId h)
     (zoom h) (isEditMode h) (isTp2ModalOpen h) (isWheelModalOpen h)
     (isDrawingPolyline h) (activePolylineId h) v.

(** [now36] is [Date.now().toString(36)] at the time of the call. *)
Definition handleAddSegment (now36 : string) (h : State) : State :=
  let newId := ("seg-" ++ now36)%string in
  let newSegment :=
    Segment.mk newId
      ("SEG-" ++ JSString.of_nat (List.length (segments h) + 1))%string
      "" "" 10 10 10 8 amber in
  setSelectedSegmentId (Some newId)
    (setSegments (segments h ++ [newSegment]) h).

Definition handleUpdateSegment (id : string) (patch : SegmentPatch.t) (h : State) : State :=
  setSegments
    (map (fun segment =>
            if String.eqb (Segment.id segment) id
            then SegmentPatch.spread segment patch
            else segment)
         (segments h))
    h.

(** [patch : Pick<Segment, 'top' | 'left'>] *)
Definition handleSegmentPositionChange (id : string) (top left : float) (h : State) : State :=
  setSelectedSegmentId (Some id)
    (handleUpdateSegment id
       (SegmentPatch.mk None None None None (Some top) (Some left) None None None)
       h).

Definition handleDeleteSegment (id : string) (h : State) : State :=
  let remaining :=
    filter (fun s => negb (String.eqb (Segment.id s) id)) (segments h) in
  setHoveredSegmentId
    (if is_id (hoveredSegmentId h) id then None else hoveredSegmentId h)
    (setSelectedSegmentId
       (if is_id (selectedSegmentId h) id
        then option_map Segment.id (hd_error remaining)
        else selectedSegmentId h)
       (setSegments remaining h)).

Definition handleImportSegments (next : list Segment.t) (h : State) : State :=
  setHoveredSegmentId None
    (setSelectedSegmentId (option_map Segment.id (hd_error next))
       (setSegments next h)).

Definition handleResetToDefault (h : State) : State :=
  setZoom 1%float
    (setHoveredSegmentId None
       (setSelectedSegmentId (option_map Segment.id (hd_error DEFAULT_SEGMENTS))
          (setSegments DEFAULT_SEGMENTS h))).

Definition handleStartPolyline (now36 : string) (h : State) : State :=
  let newId := ("poly-" ++ now36)%string in
  let newPolyline :=
    Polyline.mk newId
      ("Линия " ++ JSString.of_nat (List.length (polylines h) + 1))%string
      "" cyan 0.7 solid [] in
  setIsDrawingPolyline true
    (setActivePolylineId (Some newId)
       (setPolylines (polylines h ++ [newPolyline]) h)).

Definition handleAddPolylinePointFromCanvas (point : PolylinePoint.t) (h : State) : State :=
  match isDrawingPolyline h, activePolylineId h with
  | true, Some active =>
      (* an empty id is falsy: [!activePolylineId] *)
      if String.eqb active "" then h
      else
        setPolylines
          (map (fun poly =>
                  if String.eqb (Polyline.id poly) active
                  then Polyline.push_point poly point
                  else poly)
               (polylines h))
          h
  | _, _ => h
  end.

Definition handleFinishPolyline (h : State) : State :=
  setIsDrawingPolyline false h.

Definition handleClearPolylines (h : State) : State :=
  setPolylines [] (setActivePolylineId None (setIsDrawingPolyline false h)).

Definition handleDeletePolyline (id : string) (h : State) : State :=
  let remaining :=
    filter (fun p => negb (String.eqb (Polyline.id p) id)) (polylines h) in
  setIsDrawingPolyline
    (if is_id (activePolylineId h) id then false else isDrawingPolyline h)
    (setActivePolylineId
       (if is_id (activePolylineId h) id
        then option_map Polyline.id (hd_error remaining)
        else activePolylineId h)
       (setPolylines remaining h)).

(** [onConfirm] of the [ConfirmDialog]. *)
Definition confirmDeletePolyline (h : State) : State :=
  setPendingDeletePolylineId None
    (match pendingDeletePolylineId h with
     | Some pending =>
         if String.eqb pending "" then h else handleDeletePolyline pending h
     | None => h
     end).

Definition handleToggleEditMode (h : State) : State :=
  let next := negb (isEditMode h) in
  let h1 :=
    if next then
      match selectedSegmentId h, segments h with
      | None, first :: _ => setSelectedSegmentId (Some (Segment.id first)) h
      | Some sel, first :: _ =>
          if String.eqb sel ""
          then setSelectedSegmentId (Some (Segment.id first)) h
          else h
      | _, [] => h
      end
    else setIsDrawingPolyline false (setHoveredSegmentId None h) in
  setIsEditMode next h1.

End Home.

(** ** [BlueprintImageWithSegments]: the canvas *)

Module BlueprintImageWithSegments.

(** The props the handlers read.  A callback prop is a transformer of the
    state of [Home], or [None] when [Home] does not pass it. *)
Record Props : Type := mkProps
  { isEditMode : bool;
    zoom : float;
    isDrawingPolyline : bool;
    onSegmentPositionChange : option (string -> float -> float -> Home.State -> Home.State);
    onZoomChange : option (float -> Home.State -> Home.State);
    onAddPolylinePointFromCanvas : option (PolylinePoint.t -> Home.State -> Home.State) }.

(** The two places where [Home] renders the component: the edit-mode branch
    and the view-mode branch of its JSX. *)
Definition rendered_by_Home (h : Home.State) : Props :=
  if Home.isEditMode h then
    mkProps (Home.isEditMode h) (Home.zoom h) (Home.isDrawingPolyline h)
      (Some Home.handleSegmentPositionChange)
      (Some Home.setZoom)
      (Some Home.handleAddPolylinePointFromCanvas)
  else
    mkProps false (Home.zoom h) false None (Some Home.setZoom) None.

Record DragState : Type := mkDrag
  { drag_id : string; offsetX : float; offsetY : float }.

(** The component's own [useState] cells. *)
Record Local : Type := mkLocal
  { dragState : option DragState;
    previewPoint : option PolylinePoint.t }.

Definition mounted : Local := mkLocal None None.

Definition clampPercent (v : float) : float :=
  if JS.Number_isNaN v then 0%float
  else if (v <? 0)%float then 0%float
  else if (100 <? v)%float then 100%float
  else v.

(** [pt.matrixTransform(ctm.inverse())] for the overlay
    [<svg viewBox="0 0 100 100" preserveAspectRatio="none">] laid out on
    [box]: the screen point in view-box units. *)
Definition screenToViewBox (box : DOMRect.t) (clientX clientY : float) : float * float :=
  (((clientX - DOMRect.left box) / DOMRect.width box * 100)%float,
   ((clientY - DOMRect.top box) / DOMRect.height box * 100)%float).

Definition clientToSvgPercent (lay : Layout.t) (clientX clientY : float)
  : option PolylinePoint.t :=
  match Layout.svg lay with
  | None => None
  | Some box =>
      let svgP := screenToViewBox box clientX clientY in
      Some (PolylinePoint.mk (clampPercent (fst svgP)) (clampPercent (snd svgP)))
  end.

Definition handleMouseDown (p : Props) (lay : Layout.t) (event : MouseEvent.t)
  (segment : Segment.t) (c : Local) : Local :=
  match isEditMode p, onSegmentPositionChange p, Layout.svg lay with
  | true, Some _, Some _ =>
      match clientToSvgPercent lay (MouseEvent.clientX event) (MouseEvent.clientY event) with
      | None => c
      | Some point =>
          let offsetX := (PolylinePoint.x point - Segment.left segment)%float in
          let offsetY := (PolylinePoint.y point - Segment.top segment)%float in
          mkLocal (Some (mkDrag (Segment.id segment) offsetX offsetY)) (previewPoint c)
      end
  | _, _, _ => c
  end.

(** The value [handleWheel] passes to [onZoomChange]. *)
Definition nextZoomOnWheel (zoom deltaY : float) : float :=
  let zoomStep := 0.1%float in
  let minZoom := 0.5%float in
  let maxZoom := 4%float in
  let direction := if (0 <? deltaY)%float then (-1)%float else 1%float in
  let nextZoom :=
    JS.Math_min maxZoom (JS.Math_max minZoom (zoom + direction * zoomStep)%float) in
  JS.Number_toFixed2 nextZoom.

Definition handleWheel (p : Props) (deltaY : float) (h : Home.State) : Home.State :=
  match onZoomChange p with
  | None => h
  | Some onZoomChange => onZoomChange (nextZoomOnWheel (zoom p) deltaY) h
  end.

Definition handleCanvasClick (p : Props) (lay : Layout.t) (event : MouseEvent.t)
  (c : Local) (h : Home.State) : Home.State :=
  match isEditMode p, isDrawingPolyline p, onAddPolylinePointFromCanvas p with
  | true, true, Some onAdd =>
      match previewPoint c with
      | Some preview => onAdd preview h
      | None =>
          match clientToSvgPercent lay (MouseEvent.clientX event) (MouseEvent.clientY event) with
          | None => h
          | Some point => onAdd (PolylinePoint.mk (PolylinePoint.x point) (PolylinePoint.y point)) h
          end
      end
  | _, _, _ => h
  end.

Definition handleMouseMoveOnCanvas (p : Props) (lay : Layout.t) (event : MouseEvent.t)
  (c : Local) : Local :=
  if negb (isEditMode p) || negb (isDrawingPolyline p) then
    mkLocal (dragState c) None
  else
    match clientToSvgPercent lay (MouseEvent.clientX event) (MouseEvent.clientY event) with
    | None => mkLocal (dragState c) None
    | Some point =>
        mkLocal (dragState c)
          (Some (PolylinePoint.mk (PolylinePoint.x point) (PolylinePoint.y point)))
    end.

(** [onMouseLeave] of the click layer. *)
Definition handleMouseLeaveCanvas (c : Local) : Local :=
  mkLocal (dragState c) None.

(** The [mousemove] listener the drag effect puts on [window]; the effect
    installs nothing without a [dragState] or without the callback. *)
Definition handleMouseMove (p : Props) (lay : Layout.t) (event : MouseEvent.t)
  (c : Local) (h : Home.State) : Home.State :=
  match dragState c, onSegmentPositionChange p with
  | Some drag, Some onSegmentPositionChange =>
      match Layout.img lay with
      | None => h
      | Some rect =>
          let rawLeftPercent :=
            ((MouseEvent.clientX event - DOMRect.left rect - offsetX drag)
             / DOMRect.width rect * 100)%float in
          let rawTopPercent :=
            ((MouseEvent.clientY event - DOMRect.top rect - offsetY drag)
             / DOMRect.height rect * 100)%float in
          let left := clampPercent rawLeftPercent in
          let top := clampPercent rawTopPercent in
          onSegmentPositionChange (drag_id drag) top left h
      end
  | _, _ => h
  end.

(** The [mouseup] and [mouseleave] listeners of the drag effect. *)
Definition stopDragging (c : Local) : Local :=
  mkLocal None (previewPoint c).

End BlueprintImageWithSegments.

(** ** [BlueprintSidebarEdit]: the edit sidebar *)

Module BlueprintSidebarEdit.

Record Local : Type := mkLocal
  { importText : string;
    importError : option string;
    importSuccess : bool }.

(** [segments.find((s) => s.id === selectedSegmentId) || segments[0]] *)
Definition selected (h : Home.State) : option Segment.t :=
  match find (fun s => is_id (Home.selectedSegmentId h) (Segment.id s)) (Home.segments h) with
  | Some s => Some s
  | None => hd_error (Home.segments h)
  end.

Definition clampPercent (value : float) : float :=
  if JS.Number_isNaN value then 0%float
  else if (value <? 0)%float then 0%float
  else if (100 <? value)%float then 100%float
  else value.

(** The four number inputs of the form. *)
Inductive GeometryField : Type := Top | Left | Width | Height.

Definition geometryPatch (field : GeometryField) (v : float) : SegmentPatch.t :=
  match field with
  | Top => SegmentPatch.mk None None None None (Some v) None None None None
  | Left => SegmentPatch.mk None None None None None (Some v) None None None
  | Width => SegmentPatch.mk None None None None None None (Some v) None None
  | Height => SegmentPatch.mk None None None None None None None (Some v) None
  end.

(** [onChange] of the Top, Left, Width and Height inputs:
    [onUpdateSegment(selected.id, { top: clampPercent(Number(e.target.value)) })]
    and alike.  [entered] is [Number(e.target.value)].  The form is rendered
    only when there is a selected segment. *)
Definition handleGeometryChange (field : GeometryField) (entered : float)
  (h : Home.State) : Home.State :=
  match selected h with
  | None => h
  | Some sel =>
      Home.handleUpdateSegment (Segment.id sel)
        (geometryPatch field (clampPercent entered)) h
  end.

Definition toSegmentColor (value : JSValue.Access) : SegmentColor :=
  match value with
  | JSValue.Value (JStr s) =>
      if String.eqb s "cyan" then cyan
      else if String.eqb s "emerald" then emerald
      else if String.eqb s "amber" then amber
      else cyan
  | _ => cyan
  end.

Definition safeNumber (value : JSValue.Access) (fallback : float) : float :=
  match value with
  | JSValue.Value (JNum n) =>
      if JS.Number_isFinite n then clampPercent n else fallback
  | _ => fallback
  end.

Definition stringOr (value : JSValue.Access) (fallback : string) : string :=
  match value with
  | JSValue.Value (JStr s) => s
  | _ => fallback
  end.

(** One turn of the [for] loop of [normalizeImportedSegments]: [None] is
    [return null], [Some segment] is the segment pushed on [result]. *)
Definition segmentOfItem (item : JSON) : option Segment.t :=
  if negb (JSValue.truthy item) || negb (JSValue.typeof_is_object item) then None
  else
    match JSValue.get item "id" with
    | JSValue.Value (JStr id) =>
        if JSString.trim_is_empty id then None
        else
          Some (Segment.mk id
                  (stringOr (JSValue.get item "code") "SEG")
                  (stringOr (JSValue.get item "title") "")
                  (stringOr (JSValue.get item "details") "")
                  (safeNumber (JSValue.get item "top") 0)
                  (safeNumber (JSValue.get item "left") 0)
                  (safeNumber (JSValue.get item "width") 10)
                  (safeNumber (JSValue.get item "height") 8)
                  (toSegmentColor (JSValue.get item "color")))
    | _ => None
    end.

Fixpoint normalizeLoop (raw : list JSON) (result : list Segment.t)
  : option (list Segment.t) :=
  match raw with
  | [] => Some result
  | item :: rest =>
      match segmentOfItem item with
      | None => None
      | Some segment => normalizeLoop rest (result ++ [segment])
      end
  end.

Definition normalizeImportedSegments (raw : JSON) : option (list Segment.t) :=
  match raw with
  | JArr items => normalizeLoop items []
  | _ => None
  end.

Section ApplyImport.

Variable JSON_parse : string -> option JSON.

Definition handleApplyImport (c : Local) (h : Home.State) : Local * Home.State :=
  if JSString.trim_is_empty (importText c) then
    (mkLocal (importText c) (Some "Вставьте JSON перед импортом.") false, h)
  else
    match JSON_parse (importText c) with
    | None =>
        (mkLocal (importText c)
           (Some "Не удалось разобрать JSON. Проверьте формат.") false, h)
    | Some parsed =>
        match normalizeImportedSegments parsed with
        | Some (first :: others) =>
            (mkLocal (importText c) None true,
             Home.handleImportSegments (first :: others) h)
        | _ =>
            (mkLocal (importText c)
               (Some "Некорректный формат данных или пустой список сегментов.")
               false, h)
        end
    end.

End ApplyImport.

End BlueprintSidebarEdit.

(** ** [WheelDetailModal]: the modal with its own polyline collection *)

Module WheelDetailModal.

Record State : Type := mk
  { polylines : list Polyline.t;
    activeId : option string;
    isDrawing : bool;
    previewPoint : option PolylinePoint.t;
    isEditMode : bool }.

Definition initial (polys : list Polyline.t) : State :=
  mk polys (option_map Polyline.id (hd_error polys)) false None false.

Definition clamp (v : float) : float :=
  if JS.Number_isNaN v then 0%float
  else if (v <? 0)%float then 0%float
  else if (100 <? v)%float then 100%float
  else v.

Definition clientToSvgPercent (lay : Layout.t) (clientX clientY : float)
  : option PolylinePoint.t :=
  match Layout.svg lay with
  | None => None
  | Some box =>
      let svgP := BlueprintImageWithSegments.screenToViewBox box clientX clientY in
      Some (PolylinePoint.mk (clamp (fst svgP)) (clamp (snd svgP)))
  end.

Definition handleContainerClick (lay : Layout.t) (e : MouseEvent.t) (m : State) : State :=
  if negb (isEditMode m) || negb (isDrawing m) then m
  else
    match clientToSvgPercent lay (MouseEvent.clientX e) (MouseEvent.clientY e) with
    | None => m
    | Some p =>
        match activeId m with
        | None => m
        | Some active =>
            if String.eqb active "" then m
            else
              mk (map (fun pl =>
                         if String.eqb (Polyline.id pl) active
                         then Polyline.push_point pl p
                         else pl)
                      (polylines m))
                 (activeId m) (isDrawing m) (previewPoint m) (isEditMode m)
        end
    end.

Definition handleMouseMove (lay : Layout.t) (e : MouseEvent.t) (m : State) : State :=
  if negb (isEditMode m) || negb (isDrawing m) then
    mk (polylines m) (activeId m) (isDrawing m) None (isEditMode m)
  else
    mk (polylines m) (activeId m) (isDrawing m)
       (clientToSvgPercent lay (MouseEvent.clientX e) (MouseEvent.clientY e))
       (isEditMode m).

Definition startLine (now36 : string) (m : State) : State :=
  if negb (isEditMode m) then m
  else
    let id := ("wheel-poly-" ++ now36)%string in
    let newLine :=
      Polyline.mk id
        ("Линия " ++ JSString.of_nat (List.length (polylines m) + 1))%string
        "" cyan 0.7 solid [] in
    mk (polylines m ++ [newLine]) (Some id) true (previewPoint m) (isEditMode m).

Definition finishLine (m : State) : State :=
  mk (polylines m) (activeId m) false None (isEditMode m).

Definition deleteLine (id : string) (m : State) : State :=
  mk (filter (fun p => negb (String.eqb (Polyline.id p) id)) (polylines m))
     (if is_id (activeId m) id then None else activeId m)
     (if is_id (activeId m) id then false else isDrawing m)
     (previewPoint m) (isEditMode m).

Definition clearAll (m : State) : State :=
  mk [] None false (previewPoint m) (isEditMode m).

(** The effect with dependencies [[open, polylines.length]]:
    [if (open) setActiveId((curr) => curr ?? polylines[0]?.id ?? null)]. *)
Definition syncActiveEffect (open : bool) (m : State) : State :=
  if open then
    mk (polylines m)
       (match activeId m with
        | Some curr => Some curr
        | None => option_map Polyline.id (hd_error (polylines m))
        end)
       (isDrawing m) (previewPoint m) (isEditMode m)
  else m.

(** The state once the render that follows an update has run its effects:
    the effect above runs when one of its dependencies differs from the
    previous render. *)
Definition afterEffects (open : bool) (before after : State) : State :=
  if Nat.eqb (List.length (polylines before)) (List.length (polylines after))
  then after
  else syncActiveEffect open after.

End WheelDetailModal.

(** ** Domain constraints and update sequences *)

(** [0 <= v <= 100] as JavaScript compares numbers (false on NaN). *)
Definition inPercentRange (v : float) : bool :=
  ((0 <=? v) && (v <=? 100))%float.

Definition geometryField (field : BlueprintSidebarEdit.GeometryField) (s : Segment.t) : float :=
  match field with
  | BlueprintSidebarEdit.Top => Segment.top s
  | BlueprintSidebarEdit.Left => Segment.left s
  | BlueprintSidebarEdit.Width => Segment.width s
  | BlueprintSidebarEdit.Height => Segment.height s
  end.

Definition geometryInRange (s : Segment.t) : Prop :=
  forall field, inPercentRange (geometryField field s) = true.




(** A patch that leaves [id] alone and carries only percentages. *)
Definition clampedPatch (p : SegmentPatch.t) : Prop :=
  SegmentPatch.id p = None /\
  (forall v, SegmentPatch.top p = Some v -> inPercentRange v = true) /\
  (forall v, SegmentPatch.left p = Some v -> inPercentRange v = true) /\
  (forall v, SegmentPatch.width p = Some v -> inPercentRange v = true) /\
  (forall v, SegmentPatch.height p = Some v -> inPercentRange v = true).

(** Every segment stored under [id] has its geometry in range. *)
Definition rangeHoldsFor (id : string) (h : Home.State) : Prop :=
  forall s, In s (Home.segments h) -> Segment.id s = id -> geometryInRange s.

(** [(top, left)] of the segments stored under [id]. *)
Definition storedPosition (id : string) (h : Home.State) : list (float * float) :=
  map (fun s => (Segment.top s, Segment.left s))
      (filter (fun s => String.eqb (Segment.id s) id) (Home.segments h)).

(** ** Drag sessions *)

(** A drag of [segment]: [mousedown] on it at [grab], the [mousemove]s of
    [moves] (each with the layout it finds), then [mouseup]. *)
Definition dragSession (lay : Layout.t) (grab : MouseEvent.t) (segment : Segment.t)
  (moves : list (Layout.t * MouseEvent.t)) (h : Home.State)
  : Home.State * BlueprintImageWithSegments.Local :=
  let c :=
    BlueprintImageWithSegments.handleMouseDown
      (BlueprintImageWithSegments.rendered_by_Home h) lay grab segment
      BlueprintImageWithSegments.mounted in
  let h' :=
    fold_left
      (fun h0 (m : Layout.t * MouseEvent.t) =>
         BlueprintImageWithSegments.handleMouseMove
           (BlueprintImageWithSegments.rendered_by_Home h0) (fst m) (snd m) c h0)
      moves h in
  (h', BlueprintImageWithSegments.stopDragging c).

(** The position the specification gives a dragged segment: the pointer's
    normalized coordinate minus the grab offset, clamped; the grab offset is
    the pointer's normalized coordinate at grab time minus the segment's
    [{left, top}].  Returned as [(top, left)]. *)
Definition positionPerSpec (lay : Layout.t) (grab : MouseEvent.t) (segment : Segment.t)
  (layFinal : Layout.t) (final : MouseEvent.t) : option (float * float) :=
  match
    BlueprintImageWithSegments.clientToSvgPercent lay
      (MouseEvent.clientX grab) (MouseEvent.clientY grab),
    BlueprintImageWithSegments.clientToSvgPercent layFinal
      (MouseEvent.clientX final) (MouseEvent.clientY final)
  with
  | Some atGrab, Some atEnd =>
      let grabOffsetX := (PolylinePoint.x atGrab - Segment.left segment)%float in
      let grabOffsetY := (PolylinePoint.y atGrab - Segment.top segment)%float in
      Some (BlueprintImageWithSegments.clampPercent (PolylinePoint.y atEnd - grabOffsetY)%float,
            BlueprintImageWithSegments.clampPercent (PolylinePoint.x atEnd - grabOffsetX)%float)
  | _, _ => None
  end.

(** ** Zoom *)

Definition wheelUp : float := (-100)%float.

Definition wheelDown : float := 100%float.

(** [n] wheel events with the same [deltaY], each handled on the state the
    previous one rendered. *)
Fixpoint wheelEvents (n : nat) (deltaY : float) (h : Home.State) : Home.State :=
  match n with
  | O => h
  | S k =>
      wheelEvents k deltaY
        (BlueprintImageWithSegments.handleWheel
           (BlueprintImageWithSegments.rendered_by_Home h) deltaY h)
  end.

(** A sequence of wheel events, one [deltaY] each. *)
Definition wheelSequence (deltas : list float) (h : Home.State) : Home.State :=
  fold_left
    (fun h0 deltaY =>
       BlueprintImageWithSegments.handleWheel
         (BlueprintImageWithSegments.rendered_by_Home h0) deltaY h0)
    deltas h.

(** The double nearest to [k / 10]: the number the literal with one decimal
    denotes. *)
Definition tenths (k : Z) : float := (of_uint63 (Uint63.of_Z k) / 10)%float.

(** [Math.min(maxZoom, Math.max(minZoom, z))] *)
Definition clampZoom (z : float) : float :=
  JS.Math_min 4%float (JS.Math_max 0.5%float z).

(** ** Polyline drawing on the canvas *)

Inductive CanvasEvent : Type :=
| StartPolyline (now36 : string)
| PointerMove (lay : Layout.t) (event : MouseEvent.t)
| PointerLeave
| Click (lay : Layout.t) (event : MouseEvent.t)
| FinishPolyline.

Definition canvasStep (st : Home.State * BlueprintImageWithSegments.Local) (ev : CanvasEvent)
  : Home.State * BlueprintImageWithSegments.Local :=
  let (h, c) := st in
  let p := BlueprintImageWithSegments.rendered_by_Home h in
  match ev with
  | StartPolyline now36 => (Home.handleStartPolyline now36 h, c)
  | PointerMove lay event =>
      (h, BlueprintImageWithSegments.handleMouseMoveOnCanvas p lay event c)
  | PointerLeave => (h, BlueprintImageWithSegments.handleMouseLeaveCanvas c)
  | Click lay event =>
      (BlueprintImageWithSegments.handleCanvasClick p lay event c h, c)
  | FinishPolyline => (Home.handleFinishPolyline h, c)
  end.

Definition runCanvas (events : list CanvasEvent)
  (st : Home.State * BlueprintImageWithSegments.Local)
  : Home.State * BlueprintImageWithSegments.Local :=
  fold_left canvasStep events st.

(** The point a click captures: the tracked preview point when there is
    one, else the click's own coordinate. *)
Definition capturedPoint (lay : Layout.t) (event : MouseEvent.t)
  (c : BlueprintImageWithSegments.Local) : option PolylinePoint.t :=
  match BlueprintImageWithSegments.previewPoint c with
  | Some preview => Some preview
  | None =>
      BlueprintImageWithSegments.clientToSvgPercent lay
        (MouseEvent.clientX event) (MouseEvent.clientY event)
  end.

(** ** Import and export *)

(** [a === b] on numbers. *)
Definition sameNumber (a b : float) : Prop := (a =? b)%float = true.

(** Deep equality of two segments: strings and colours equal, numbers
    [===]. *)
Definition segmentDeepEqual (a b : Segment.t) : Prop :=
  Segment.id a = Segment.id b /\
  Segment.code a = Segment.code b /\
  Segment.title a = Segment.title b /\
  Segment.details a = Segment.details b /\
  (forall field, sameNumber (geometryField field a) (geometryField field b)) /\
  Segment.color a = Segment.color b.

(** A well-formed segment: geometry in [0,100] and an id the validator
    accepts. *)
Definition wellFormedSegment (s : Segment.t) : Prop :=
  JSString.trim_is_empty (Segment.id s) = false /\ geometryInRange s.

Definition noNegativeZero (s : Segment.t) : Prop :=
  forall field, geometryField field s <> (-0)%float.

(** [validate(JSON.parse(JSON.stringify(segments)))] *)
Definition exportThenImport (segments : list Segment.t) : option (list Segment.t) :=
  BlueprintSidebarEdit.normalizeImportedSegments
    (JSON_roundtrip (JArr (map Segment.value segments))).

(** The number read back from the text [JSON.stringify] writes for a finite
    number: itself, except that -0 is written [0]. *)
Definition reparsedNumber (x : float) : float :=
  if PrimFloat.is_zero x then 0%float else x.

Definition reparsedSegment (s : Segment.t) : Segment.t :=
  Segment.mk (Segment.id s) (Segment.code s) (Segment.title s) (Segment.details s)
    (reparsedNumber (Segment.top s)) (reparsedNumber (Segment.left s))
    (reparsedNumber (Segment.width s)) (reparsedNumber (Segment.height s))
    (Segment.color s).

(** An element the validator can accept on its id alone. *)
Definition hasNonEmptyStringId (item : JSON) : Prop :=
  exists props id,
    item = JObj props /\ JSValue.lookup "id" props = Some (JStr id) /\ id <> "".

(** ** Snapshots: what the polyline initialisers guarantee per element *)

Definition defaultedFieldByField (raw : JSON) (p : LoadedPolyline.t) : Prop :=
  (forall s, JSValue.get raw "label" = JSValue.Value (JStr s) -> LoadedPolyline.label p = s) /\
  ((forall s, JSValue.get raw "label" <> JSValue.Value (JStr s)) ->
   LoadedPolyline.label p = "Линия") /\
  (forall s, JSValue.get raw "description" = JSValue.Value (JStr s) ->
   LoadedPolyline.description p = s) /\
  ((forall s, JSValue.get raw "description" <> JSValue.Value (JStr s)) ->
   LoadedPolyline.description p = "") /\
  (forall w, JSValue.get raw "strokeWidth" = JSValue.Value (JNum w) ->
   JS.Number_isFinite w = true -> LoadedPolyline.strokeWidth p = w) /\
  ((forall w, JSValue.get raw "strokeWidth" = JSValue.Value (JNum w) ->
    JS.Number_isFinite w = false) ->
   LoadedPolyline.strokeWidth p = 0.7%float) /\
  JS.Number_isFinite (LoadedPolyline.strokeWidth p) = true /\
  (JSValue.get raw "dashStyle" = JSValue.Value (JStr "dashed") ->
   LoadedPolyline.dashStyle p = dashed) /\
  (JSValue.get raw "dashStyle" = JSValue.Value (JStr "dotted") ->
   LoadedPolyline.dashStyle p = dotted) /\
  (JSValue.get raw "dashStyle" <> JSValue.Value (JStr "dashed") ->
   JSValue.get raw "dashStyle" <> JSValue.Value (JStr "dotted") ->
   LoadedPolyline.dashStyle p = solid) /\
  (forall pts, JSValue.get raw "points" = JSValue.Value (JArr pts) ->
   LoadedPolyline.points p = pts) /\
  ((forall pts, JSValue.get raw "points" <> JSValue.Value (JArr pts)) ->
   LoadedPolyline.points p = []).

(** An element of a polyline snapshot that the rebuilding cannot use: its
    properties cannot be read ([null]) or its [id] cannot be turned into a
    string. *)
Definition unusableElement (Number_toString : float -> string) (raw : JSON) : Prop :=
  raw = JNull \/
  exists v, JSValue.get raw "id" = JSValue.Value v /\ String_of Number_toString v = None.

(** A snapshot read that yields no array: the read throws, the key is
    absent, the text is empty, is not JSON, or is JSON but not an array. *)
Definition noArraySnapshot (JSON_parse : string -> option JSON) (item : GetItem) : Prop :=
  match item with
  | GetThrows | GetNull => True
  | GetString stored =>
      stored = "" \/ JSON_parse stored = None \/
      exists v, JSON_parse stored = Some v /\ JSValue.Array_isArray v = false
  end.

(** ** Sample data for closed examples *)

(** What [JSON.parse] returns on a few texts. *)
Definition JSON_parse_sample (text : string) : option JSON :=
  if String.eqb text "[]" then Some (JArr [])
  else if String.eqb text "[42]" then Some (JArr [JNum 42])
  else if String.eqb text "[null]" then Some (JArr [JNull])
  else if String.eqb text "[{}]" then Some (JArr [JObj []])
  else if String.eqb text "{}" then Some (JObj [])
  else if String.eqb text "7" then Some (JNum 7)
  else None.

(** [String(x)] on the numbers the examples print. *)
Definition Number_toString_sample (x : float) : string :=
  if (x =? 42)%float then "42" else "7".

(** An image 1000 by 500 pixels at the page origin, overlay attached. *)
Definition sampleLayout : Layout.t :=
  Layout.mk (Some (DOMRect.mk 0 0 1000 500)) (Some (DOMRect.mk 0 0 1000 500)).

(** The same page after zooming in: the image is 2000 by 1000 pixels. *)
Definition sampleLayoutZoomed : Layout.t :=
  Layout.mk (Some (DOMRect.mk 0 0 2000 1000)) (Some (DOMRect.mk 0 0 2000 1000)).

Definition sampleSegment : Segment.t :=
  Segment.mk "s1" "S-1" "" "" 20 10 10 8 cyan.

(** A segment whose id is one space, with its geometry in range. *)
Definition sampleBlankId : Segment.t :=
  Segment.mk " " "S-1" "" "" 20 10 10 8 cyan.

(** Two lines of the modal, the first one active. *)
Definition sampleModal : WheelDetailModal.State :=
  WheelDetailModal.initial
    [ Polyline.mk "a" "A" "" cyan 0.7 solid [];
      Polyline.mk "b" "B" "" amber 0.7 solid [] ].

(** [Home] in edit mode with one segment and no polyline. *)
Definition sampleEditing : Home.State :=
  Home.handleToggleEditMode (Home.initial [sampleSegment] []).


(** * The rest of the editor *)

(** ** Attribute edits of polylines *)

(** [Partial<Polyline>]: the fields a patch object carries. *)
Module PolylinePatch.

Record t : Type := mk
  { id : option string;
    label : option string;
    description : option string;
    color : option PolylineColor;
    strokeWidth : option float;
    dashStyle : option PolylineDashStyle;
    points : option (list PolylinePoint.t) }.

(** [{ ...poly, ...patch }] *)
Definition spread (poly : Polyline.t) (p : t) : Polyline.t :=
  Polyline.mk
    (SegmentPatch.override (Polyline.id poly) (id p))
    (SegmentPatch.override (Polyline.label poly) (label p))
    (SegmentPatch.override (Polyline.description poly) (description p))
    (SegmentPatch.override (Polyline.color poly) (color p))
    (SegmentPatch.override (Polyline.strokeWidth poly) (strokeWidth p))
    (SegmentPatch.override (Polyline.dashStyle poly) (dashStyle p))
    (SegmentPatch.override (Polyline.points poly) (points p)).

End PolylinePatch.

(** Handlers and callback props of [Home] beside those above. *)
Module HomeCallbacks.

Definition handleUpdatePolyline (id : string) (patch : PolylinePatch.t) (h : Home.State)
  : Home.State :=
  Home.setPolylines
    (map (fun poly =>
            if String.eqb (Polyline.id poly) id
            then PolylinePatch.spread poly patch
            else poly)
         (Home.polylines h))
    h.

(** [onSelectSegment={(id) => setSelectedSegmentId(id)}] of the sidebar. *)
Definition onSelectSegment (id : string) (h : Home.State) : Home.State :=
  Home.setSelectedSegmentId (Some id) h.

(** [onSelectPolyline={(id) => setActivePolylineId(id)}] *)
Definition onSelectPolyline (id : string) (h : Home.State) : Home.State :=
  Home.setActivePolylineId (Some id) h.

(** [onDeletePolyline={(id) => setPendingDeletePolylineId(id)}] *)
Definition onDeletePolyline (id : string) (h : Home.State) : Home.State :=
  Home.setPendingDeletePolylineId (Some id) h.

(** [onCancel] of the [ConfirmDialog]. *)
Definition cancelDeletePolyline (h : Home.State) : Home.State :=
  Home.setPendingDeletePolylineId None h.

(** [open={Boolean(pendingDeletePolylineId)}]: the dialog and its two
    buttons exist only then. *)
Definition confirmDialogOpen (h : Home.State) : bool :=
  match Home.pendingDeletePolylineId h with
  | Some pending => negb (String.eqb pending "")
  | None => false
  end.

End HomeCallbacks.

(** The controls of [BlueprintSidebarEdit] beside the geometry inputs and the
    import box. *)
Module SidebarControls.

(** The Code, Title and Details inputs of the segment form. *)
Inductive TextField : Type := Code | Title | Details.

Definition textPatch (field : TextField) (value : string) : SegmentPatch.t :=
  match field with
  | Code => SegmentPatch.mk None (Some value) None None None None None None None
  | Title => SegmentPatch.mk None None (Some value) None None None None None None
  | Details => SegmentPatch.mk None None None (Some value) None None None None None
  end.

(** [onChange] of the Code, Title and Details inputs. *)
Definition handleTextChange (field : TextField) (value : string) (h : Home.State)
  : Home.State :=
  match BlueprintSidebarEdit.selected h with
  | None => h
  | Some sel => Home.handleUpdateSegment (Segment.id sel) (textPatch field value) h
  end.

(** [onChange] of the colour select of the segment form; its options are
    the three colours. *)
Definition handleColorChange (c : SegmentColor) (h : Home.State) : Home.State :=
  match BlueprintSidebarEdit.selected h with
  | None => h
  | Some sel =>
      Home.handleUpdateSegment (Segment.id sel)
        (SegmentPatch.mk None None None None None None None None (Some c)) h
  end.

(** The Delete button of the segment form: [onDeleteSegment(selected.id)]. *)
Definition handleDeleteSegmentClick (h : Home.State) : Home.State :=
  match BlueprintSidebarEdit.selected h with
  | None => h
  | Some sel => Home.handleDeleteSegment (Segment.id sel) h
  end.

(** The [n]-th button of the segment list: [onSelectSegment(segment.id)]. *)
Definition handleSelectSegmentClick (n : nat) (h : Home.State) : Home.State :=
  match nth_error (Home.segments h) n with
  | None => h
  | Some segment => HomeCallbacks.onSelectSegment (Segment.id segment) h
  end.

(** [activePolylineId ?? polylines[0]?.id ?? null] *)
Definition currentActivePolylineId (h : Home.State) : option string :=
  match Home.activePolylineId h with
  | Some active => Some active
  | None => option_map Polyline.id (hd_error (Home.polylines h))
  end.

(** The [n]-th option of the polyline select: [onSelectPolyline(e.target.value)]. *)
Definition handleSelectPolylineChange (n : nat) (h : Home.State) : Home.State :=
  match nth_error (Home.polylines h) n with
  | None => h
  | Some polyline => HomeCallbacks.onSelectPolyline (Polyline.id polyline) h
  end.

(** [if (currentActivePolylineId) onUpdatePolyline(currentActivePolylineId, patch)] *)
Definition updateCurrentPolyline (patch : PolylinePatch.t) (h : Home.State) : Home.State :=
  match currentActivePolylineId h with
  | None => h
  | Some current =>
      if String.eqb current "" then h
      else HomeCallbacks.handleUpdatePolyline current patch h
  end.

Definition handleLabelChange (value : string) (h : Home.State) : Home.State :=
  updateCurrentPolyline
    (PolylinePatch.mk None (Some value) None None None None None) h.

Definition handlePolylineColorChange (c : PolylineColor) (h : Home.State) : Home.State :=
  updateCurrentPolyline
    (PolylinePatch.mk None None None (Some c) None None None) h.

(** [{ strokeWidth: Number(e.target.value) || 0.7 }]; [entered] is
    [Number(e.target.value)]. *)
Definition handleStrokeWidthChange (entered : float) (h : Home.State) : Home.State :=
  updateCurrentPolyline
    (PolylinePatch.mk None None None None
       (Some (if JSValue.truthy (JNum entered) then entered else 0.7%float))
       None None) h.

Definition handleDashStyleChange (d : PolylineDashStyle) (h : Home.State) : Home.State :=
  updateCurrentPolyline
    (PolylinePatch.mk None None None None None (Some d) None) h.

(** [{polylines.length > 0 && (...)}]: the select, the label input, the
    Delete button and the three style selects exist only then. *)
Definition polylinePanelShown (h : Home.State) : bool :=
  match Home.polylines h with
  | [] => false
  | _ :: _ => true
  end.

(** The Delete button of the polyline panel. *)
Definition handleDeletePolylineClick (h : Home.State) : Home.State :=
  let idToDelete :=
    match currentActivePolylineId h with
    | Some current => Some current
    | None => option_map Polyline.id (hd_error (Home.polylines h))
    end in
  match idToDelete with
  | None => h
  | Some id =>
      if String.eqb id "" then h else HomeCallbacks.onDeletePolyline id h
  end.

End SidebarControls.

(** The controls of [WheelDetailModal] beside the handlers above. *)
Module WheelDetailModalControls.

(** The mode switch in the header. *)
Definition toggleEditMode (m : WheelDetailModal.State) : WheelDetailModal.State :=
  let next := negb (WheelDetailModal.isEditMode m) in
  if next then
    WheelDetailModal.mk (WheelDetailModal.polylines m) (WheelDetailModal.activeId m)
      (WheelDetailModal.isDrawing m) (WheelDetailModal.previewPoint m) next
  else
    WheelDetailModal.mk (WheelDetailModal.polylines m) (WheelDetailModal.activeId m)
      false None next.

Definition updateActive (patch : PolylinePatch.t) (m : WheelDetailModal.State)
  : WheelDetailModal.State :=
  match WheelDetailModal.activeId m with
  | None => m
  | Some active =>
      if String.eqb active "" then m
      else
        WheelDetailModal.mk
          (map (fun p =>
                  if String.eqb (Polyline.id p) active
                  then PolylinePatch.spread p patch
                  else p)
               (WheelDetailModal.polylines m))
          (WheelDetailModal.activeId m) (WheelDetailModal.isDrawing m)
          (WheelDetailModal.previewPoint m) (WheelDetailModal.isEditMode m)
  end.

Definition setActiveId (v : option string) (m : WheelDetailModal.State)
  : WheelDetailModal.State :=
  WheelDetailModal.mk (WheelDetailModal.polylines m) v (WheelDetailModal.isDrawing m)
    (WheelDetailModal.previewPoint m) (WheelDetailModal.isEditMode m).

(** [onChange] of the select: [setActiveId(e.target.value || null)].  The
    options are the empty value and the ids of the lines. *)
Definition handleSelectChange (choice : option nat) (m : WheelDetailModal.State)
  : WheelDetailModal.State :=
  match choice with
  | None => setActiveId None m
  | Some n =>
      match nth_error (WheelDetailModal.polylines m) n with
      | None => m
      | Some p =>
          setActiveId (if String.eqb (Polyline.id p) "" then None else Some (Polyline.id p)) m
      end
  end.

(** The two buttons of the [n]-th row of the list. *)
Definition handleRowSelect (n : nat) (m : WheelDetailModal.State) : WheelDetailModal.State :=
  match nth_error (WheelDetailModal.polylines m) n with
  | None => m
  | Some p => setActiveId (Some (Polyline.id p)) m
  end.

Definition handleRowDelete (n : nat) (m : WheelDetailModal.State) : WheelDetailModal.State :=
  match nth_error (WheelDetailModal.polylines m) n with
  | None => m
  | Some p => WheelDetailModal.deleteLine (Polyline.id p) m
  end.

(** The Delete button under the image: [if (!activeId) return; deleteLine(activeId)]. *)
Definition handleDeleteActive (m : WheelDetailModal.State) : WheelDetailModal.State :=
  match WheelDetailModal.activeId m with
  | None => m
  | Some active =>
      if String.eqb active "" then m else WheelDetailModal.deleteLine active m
  end.

End WheelDetailModalControls.


(** ** Events of the editor on segments *)

(** What a user can do to the segments: the buttons and inputs of the
    sidebar, which exists in edit mode only; the steps of a drag, each an
    event of its own, so that any other event can come between them: a
    [mousedown] on the [n]-th box, and a [mousemove] and a [mouseup] (or
    [mouseleave]) on [window]; and the mode switch. *)
Inductive EditorEvent : Type :=
| EvAddSegment (now36 : string)
| EvDeleteSegment
| EvSelectSegment (n : nat)
| EvGeometry (field : BlueprintSidebarEdit.GeometryField) (entered : float)
| EvText (field : SidebarControls.TextField) (value : string)
| EvColor (c : SegmentColor)
| EvMouseDown (n : nat) (lay : Layout.t) (grab : MouseEvent.t)
| EvMouseMove (lay : Layout.t) (event : MouseEvent.t)
| EvMouseUp
| EvApplyImport (text : string)
| EvReset
| EvToggleEditMode.

(** The events that take segments out of the collection: Delete, a
    successful import and Reset replace or shorten the list. *)
Definition removesSegments (ev : EditorEvent) : bool :=
  match ev with
  | EvDeleteSegment | EvApplyImport _ | EvReset => true
  | _ => false
  end.

Section EditorEvents.

Variable JSON_parse : string -> option JSON.

(** One event on the state of [Home] and of the canvas it renders.  The
    [mousedown] reaches the handler of the box as rendered from the
    current state; the listeners on [window] are the ones the drag effect
    has installed for the current [dragState] and callback, and there are
    none without a [dragState] or without the callback.  The mode switch
    mounts another instance of the canvas.  While a line is drawn the click
    layer lies over the boxes and the page delivers no [mousedown] to
    them; the step lets it through, so what holds of every sequence of
    steps holds of the sessions of the page. *)
Definition editorStep (st : Home.State * BlueprintImageWithSegments.Local)
  (ev : EditorEvent) : Home.State * BlueprintImageWithSegments.Local :=
  let (h, c) := st in
  match ev with
  | EvToggleEditMode => (Home.handleToggleEditMode h, BlueprintImageWithSegments.mounted)
  | EvMouseDown n lay grab =>
      match nth_error (Home.segments h) n with
      | None => st
      | Some segment =>
          (h, BlueprintImageWithSegments.handleMouseDown
                (BlueprintImageWithSegments.rendered_by_Home h) lay grab segment c)
      end
  | EvMouseMove lay event =>
      (BlueprintImageWithSegments.handleMouseMove
         (BlueprintImageWithSegments.rendered_by_Home h) lay event c h, c)
  | EvMouseUp =>
      match BlueprintImageWithSegments.dragState c,
            BlueprintImageWithSegments.onSegmentPositionChange
              (BlueprintImageWithSegments.rendered_by_Home h) with
      | Some _, Some _ => (h, BlueprintImageWithSegments.stopDragging c)
      | _, _ => st
      end
  | _ =>
      if Home.isEditMode h then
        (match ev with
         | EvAddSegment now36 => Home.handleAddSegment now36 h
         | EvDeleteSegment => SidebarControls.handleDeleteSegmentClick h
         | EvSelectSegment n => SidebarControls.handleSelectSegmentClick n h
         | EvGeometry field entered =>
             BlueprintSidebarEdit.handleGeometryChange field entered h
         | EvText field value => SidebarControls.handleTextChange field value h
         | EvColor c => SidebarControls.handleColorChange c h
         | EvApplyImport text =>
             snd (BlueprintSidebarEdit.handleApplyImport JSON_parse
                    (BlueprintSidebarEdit.mkLocal text None false) h)
         | EvReset => Home.handleResetToDefault h
         | _ => h
         end, c)
      else st
  end.

Definition editorRun (events : list EditorEvent)
  (st : Home.State * BlueprintImageWithSegments.Local)
  : Home.State * BlueprintImageWithSegments.Local :=
  fold_left editorStep events st.

End EditorEvents.

(** The selected segment is null or one of the collection. *)
Definition selectionValid (h : Home.State) : Prop :=
  match Home.selectedSegmentId h with
  | None => True
  | Some sel => In sel (map Segment.id (Home.segments h))
  end.

(** The box held by the mouse, when one is, is one of the collection. *)
Definition dragTargetValid (st : Home.State * BlueprintImageWithSegments.Local) : Prop :=
  match BlueprintImageWithSegments.dragState (snd st) with
  | None => True
  | Some drag =>
      In (BlueprintImageWithSegments.drag_id drag) (map Segment.id (Home.segments (fst st)))
  end.

(** ** Events of the editor on polylines *)

(** The canvas events above, the other controls of the polyline panel, the
    confirmation dialog and the mode switch.  The buttons that the page
    disables or does not render are not events: Start while a line is
    drawn, Finish while none is, the panel out of edit mode, the controls
    of a line while there is no line, the dialog while nothing is pending.  The mode switch mounts another instance of
    the canvas. *)
Inductive PolylineEvent : Type :=
| PvCanvas (ev : CanvasEvent)
| PvClear
| PvSelect (n : nat)
| PvLabel (value : string)
| PvColor (c : PolylineColor)
| PvStrokeWidth (entered : float)
| PvDashStyle (d : PolylineDashStyle)
| PvDeleteClick
| PvConfirmDelete
| PvCancelDelete
| PvToggleEditMode.

Definition polylineStep (st : Home.State * BlueprintImageWithSegments.Local)
  (ev : PolylineEvent) : Home.State * BlueprintImageWithSegments.Local :=
  let (h, c) := st in
  match ev with
  | PvCanvas (StartPolyline now36) =>
      if Home.isEditMode h && negb (Home.isDrawingPolyline h)
      then canvasStep st (StartPolyline now36) else st
  | PvCanvas FinishPolyline =>
      if Home.isEditMode h && Home.isDrawingPolyline h
      then canvasStep st FinishPolyline else st
  | PvCanvas pointer => canvasStep st pointer
  | PvToggleEditMode => (Home.handleToggleEditMode h, BlueprintImageWithSegments.mounted)
  | PvConfirmDelete =>
      if HomeCallbacks.confirmDialogOpen h then (Home.confirmDeletePolyline h, c) else st
  | PvCancelDelete =>
      if HomeCallbacks.confirmDialogOpen h then (HomeCallbacks.cancelDeletePolyline h, c) else st
  | _ =>
      if Home.isEditMode h then
        match ev with
        | PvClear => (Home.handleClearPolylines h, c)
        | _ =>
            if SidebarControls.polylinePanelShown h then
              match ev with
              | PvSelect n => (SidebarControls.handleSelectPolylineChange n h, c)
              | PvLabel value => (SidebarControls.handleLabelChange value h, c)
              | PvColor col => (SidebarControls.handlePolylineColorChange col h, c)
              | PvStrokeWidth entered =>
                  (SidebarControls.handleStrokeWidthChange entered h, c)
              | PvDashStyle d => (SidebarControls.handleDashStyleChange d h, c)
              | PvDeleteClick => (SidebarControls.handleDeletePolylineClick h, c)
              | _ => st
              end
            else st
        end
      else st
  end.

Definition polylineRun (events : list PolylineEvent)
  (st : Home.State * BlueprintImageWithSegments.Local)
  : Home.State * BlueprintImageWithSegments.Local :=
  fold_left polylineStep events st.

Definition pointInRange (p : PolylinePoint.t) : Prop :=
  inPercentRange (PolylinePoint.x p) = true /\ inPercentRange (PolylinePoint.y p) = true.

(** Every committed point of every polyline is in [0,100] on both axes. *)
Definition pointsInRange (polylines : list Polyline.t) : Prop :=
  Forall (fun poly => Forall pointInRange (Polyline.points poly)) polylines.

Definition previewInRange (c : BlueprintImageWithSegments.Local) : Prop :=
  forall q, BlueprintImageWithSegments.previewPoint c = Some q -> pointInRange q.

(** The active polyline is null or one of the collection, and there is one
    while a line is drawn. *)
Definition activeValid (h : Home.State) : Prop :=
  match Home.activePolylineId h with
  | None => Home.isDrawingPolyline h = false
  | Some active => In active (map Polyline.id (Home.polylines h))
  end.

(** ** Events of the modal *)

(** What a user can do in the open modal.  Start is disabled out of edit
    mode and while a line is drawn, Finish out of edit mode and while none
    is; every other control is enabled in both modes. *)
Inductive ModalEvent : Type :=
| MdStart (now36 : string)
| MdMove (lay : Layout.t) (e : MouseEvent.t)
| MdClick (lay : Layout.t) (e : MouseEvent.t)
| MdFinish
| MdClear
| MdDeleteActive
| MdRowDelete (n : nat)
| MdRowSelect (n : nat)
| MdSelect (choice : option nat)
| MdLabel (value : string)
| MdColor (c : PolylineColor)
| MdStrokeWidth (entered : float)
| MdDashStyle (d : PolylineDashStyle)
| MdToggleEditMode.

(** The handler of an event on the state rendered when it fires. *)
Definition modalHandler (m : WheelDetailModal.State) (ev : ModalEvent)
  : WheelDetailModal.State :=
  match ev with
  | MdStart now36 =>
      if WheelDetailModal.isEditMode m && negb (WheelDetailModal.isDrawing m)
      then WheelDetailModal.startLine now36 m else m
  | MdMove lay e => WheelDetailModal.handleMouseMove lay e m
  | MdClick lay e => WheelDetailModal.handleContainerClick lay e m
  | MdFinish =>
      if WheelDetailModal.isEditMode m && WheelDetailModal.isDrawing m
      then WheelDetailModal.finishLine m else m
  | MdClear => WheelDetailModal.clearAll m
  | MdDeleteActive => WheelDetailModalControls.handleDeleteActive m
  | MdRowDelete n => WheelDetailModalControls.handleRowDelete n m
  | MdRowSelect n => WheelDetailModalControls.handleRowSelect n m
  | MdSelect choice => WheelDetailModalControls.handleSelectChange choice m
  | MdLabel value =>
      WheelDetailModalControls.updateActive
        (PolylinePatch.mk None (Some value) None None None None None) m
  | MdColor c =>
      WheelDetailModalControls.updateActive
        (PolylinePatch.mk None None None (Some c) None None None) m
  | MdStrokeWidth entered =>
      WheelDetailModalControls.updateActive
        (PolylinePatch.mk None None None None
           (Some (if JSValue.truthy (JNum entered) then entered else 0.7%float))
           None None) m
  | MdDashStyle d =>
      WheelDetailModalControls.updateActive
        (PolylinePatch.mk None None None None None (Some d) None) m
  | MdToggleEditMode => WheelDetailModalControls.toggleEditMode m
  end.

(** The handler, then the effects of the render that follows. *)
Definition modalStep (m : WheelDetailModal.State) (ev : ModalEvent)
  : WheelDetailModal.State :=
  WheelDetailModal.afterEffects true m (modalHandler m ev).

Definition modalRun (events : list ModalEvent) (m : WheelDetailModal.State)
  : WheelDetailModal.State :=
  fold_left modalStep events m.

Definition modalPreviewInRange (m : WheelDetailModal.State) : Prop :=
  forall q, WheelDetailModal.previewPoint m = Some q -> pointInRange q.

(** The active line of the modal is null or one of the collection. *)
Definition modalActiveValid (m : WheelDetailModal.State) : Prop :=
  match WheelDetailModal.activeId m with
  | None => True
  | Some active => In active (map Polyline.id (WheelDetailModal.polylines m))
  end.

(** ** Persistence *)

(** The object a polyline is at run time, as a plain data value. *)
Definition polylineValue (p : Polyline.t) : JSON :=
  JObj [ ("id", JStr (Polyline.id p)); ("label", JStr (Polyline.label p));
         ("description", JStr (Polyline.description p));
         ("color", JStr (color_name (Polyline.color p)));
         ("strokeWidth", JNum (Polyline.strokeWidth p));
         ("dashStyle", JStr (dash_name (Polyline.dashStyle p)));
         ("points", JArr (map LoadedPolyline.point_value (Polyline.points p))) ].

(** What [JSON.parse] returns on the text that the persistence effect of a
    collection wrote: [JSON.parse(JSON.stringify(collection))]. *)
Definition savedSegments (segments : list Segment.t) : JSON :=
  JSON_roundtrip (JArr (map Segment.value segments)).

Definition savedPolylines (polylines : list Polyline.t) : JSON :=
  JSON_roundtrip (JArr (map polylineValue polylines)).

Definition reparsedPoint (p : PolylinePoint.t) : PolylinePoint.t :=
  PolylinePoint.mk (reparsedNumber (PolylinePoint.x p)) (reparsedNumber (PolylinePoint.y p)).

Definition reparsedPolyline (p : Polyline.t) : Polyline.t :=
  Polyline.mk (Polyline.id p) (Polyline.label p) (Polyline.description p)
    (Polyline.color p) (reparsedNumber (Polyline.strokeWidth p))
    (Polyline.dashStyle p) (map reparsedPoint (Polyline.points p)).

(** A polyline whose numbers JSON can write: a finite stroke width and
    finite coordinates. *)
Definition finitePolyline (p : Polyline.t) : Prop :=
  JS.Number_isFinite (Polyline.strokeWidth p) = true /\
  Forall (fun pt => JS.Number_isFinite (PolylinePoint.x pt) = true /\
                    JS.Number_isFinite (PolylinePoint.y pt) = true)
         (Polyline.points p).

(** A patch of the style controls: it carries neither an id nor points. *)
Definition attributePatch (p : PolylinePatch.t) : Prop :=
  PolylinePatch.id p = None /\ PolylinePatch.points p = None.

(** ** Frames *)

(** What an operation on segments leaves alone: the polylines and their
    session, the scale, the mode, the modals and the pending deletion. *)
Definition polylineSideUnchanged (h h' : Home.State) : Prop :=
  Home.polylines h' = Home.polylines h /\
  Home.zoom h' = Home.zoom h /\
  Home.isEditMode h' = Home.isEditMode h /\
  Home.isTp2ModalOpen h' = Home.isTp2ModalOpen h /\
  Home.isWheelModalOpen h' = Home.isWheelModalOpen h /\
  Home.isDrawingPolyline h' = Home.isDrawingPolyline h /\
  Home.activePolylineId h' = Home.activePolylineId h /\
  Home.pendingDeletePolylineId h' = Home.pendingDeletePolylineId h.

(** What an operation on polylines leaves alone: the segments, the hovered
    and the selected one, the scale, the mode and the modals. *)
Definition segmentSideUnchanged (h h' : Home.State) : Prop :=
  Home.segments h' = Home.segments h /\
  Home.hoveredSegmentId h' = Home.hoveredSegmentId h /\
  Home.selectedSegmentId h' = Home.selectedSegmentId h /\
  Home.zoom h' = Home.zoom h /\
  Home.isEditMode h' = Home.isEditMode h /\
  Home.isTp2ModalOpen h' = Home.isTp2ModalOpen h /\
  Home.isWheelModalOpen h' = Home.isWheelModalOpen h.

(** [new] is [old] but for its position. *)
Definition movedOnly (old new : Segment.t) : Prop :=
  Segment.id new = Segment.id old /\
  Segment.code new = Segment.code old /\
  Segment.title new = Segment.title old /\
  Segment.details new = Segment.details old /\
  Segment.width new = Segment.width old /\
  Segment.height new = Segment.height old /\
  Segment.color new = Segment.color old.

(** [new] is [old] but for its label, colour, stroke width and dash style. *)
Definition restyledOnly (old new : Polyline.t) : Prop :=
  Polyline.id new = Polyline.id old /\
  Polyline.description new = Polyline.description old /\
  Polyline.points new = Polyline.points old.

(** ** The limits of the scale *)

(** [minZoom <= z <= maxZoom] as JavaScript compares numbers. *)
Definition inZoomLimits (z : float) : bool :=
  ((0.5 <=? z) && (z <=? 4))%float.

(** ** What the validator accepts *)

(** An object whose [id] is a string that is not blank. *)
Definition acceptedItem (item : JSON) : Prop :=
  exists props id,
    item = JObj props /\
    JSValue.lookup "id" props = Some (JStr id) /\
    JSString.trim_is_empty id = false.

(** ** A session of the page *)

(** Everything a user can do on the page, in any order: the events on
    segments, the events on polylines, the wheel. *)
Inductive PageEvent : Type :=
| OnSegments (ev : EditorEvent)
| OnPolylines (ev : PolylineEvent)
| OnWheel (deltaY : float).

Section PageEvents.

Variable JSON_parse : string -> option JSON.

Definition pageStep (st : Home.State * BlueprintImageWithSegments.Local)
  (ev : PageEvent) : Home.State * BlueprintImageWithSegments.Local :=
  match ev with
  | OnSegments on_segments => editorStep JSON_parse st on_segments
  | OnPolylines on_polylines => polylineStep st on_polylines
  | OnWheel deltaY =>
      (BlueprintImageWithSegments.handleWheel
         (BlueprintImageWithSegments.rendered_by_Home (fst st)) deltaY (fst st), snd st)
  end.

Definition pageRun (events : list PageEvent)
  (st : Home.State * BlueprintImageWithSegments.Local)
  : Home.State * BlueprintImageWithSegments.Local :=
  fold_left pageStep events st.

(** Along the session, Delete, Import and Reset fire only while no box is
    held by the mouse. *)
Fixpoint noRemovalWhileDragging (events : list PageEvent)
  (st : Home.State * BlueprintImageWithSegments.Local) : bool :=
  match events with
  | [] => true
  | ev :: rest =>
      match BlueprintImageWithSegments.dragState (snd st), ev with
      | Some _, OnSegments on_segments => negb (removesSegments on_segments)
      | _, _ => true
      end
      && noRemovalWhileDragging rest (pageStep st ev)
  end.

End PageEvents.

(** The scale is one of 0.5, 0.6, ..., 4.0. *)
Definition zoomOnTenths (h : Home.State) : Prop :=
  exists k, (5 <= k <= 40)%Z /\ Home.zoom h = tenths k.

(** What holds of the page at every moment of a session. *)
Definition pageInvariant (st : Home.State * BlueprintImageWithSegments.Local) : Prop :=
  Forall wellFormedSegment (Home.segments (fst st)) /\
  pointsInRange (Home.polylines (fst st)) /\
  previewInRange (snd st) /\
  activeValid (fst st) /\
  zoomOnTenths (fst st).

(** The page as it loads when nothing is stored. *)
Definition pageLoaded : Home.State * BlueprintImageWithSegments.Local :=
  (Home.initial DEFAULT_SEGMENTS DEFAULT_HOME_POLYLINES,
   BlueprintImageWithSegments.mounted).

(** ** More sample data *)

Definition quote : string := String (Ascii.ascii_of_nat 34) "".

(** The text of an array with one object that has only an [id]. *)
Definition sampleImportText : string :=
  ("[{" ++ quote ++ "id" ++ quote ++ ":" ++ quote ++ "s9" ++ quote ++ "}]")%string.

(** [JSON.parse] on that text and on the texts above. *)
Definition JSON_parse_import_sample (text : string) : option JSON :=
  if String.eqb text sampleImportText then Some (JArr [JObj [("id", JStr "s9")]])
  else JSON_parse_sample text.

(** A string literal of JSON. *)
Definition quoted (s : string) : string := (quote ++ s ++ quote)%string.

(** The text [JSON.stringify(DEFAULT_HOME_POLYLINES)]. *)
Definition sampleSavedPolylines : string :=
  ("[{" ++ quoted "id" ++ ":" ++ quoted "wheel-poly-mljuz1y8" ++ ","
   ++ quoted "label" ++ ":" ++ quoted "Линия 1" ++ ","
   ++ quoted "description" ++ ":" ++ quoted "" ++ ","
   ++ quoted "color" ++ ":" ++ quoted "cyan" ++ ","
   ++ quoted "strokeWidth" ++ ":0.3,"
   ++ quoted "dashStyle" ++ ":" ++ quoted "dashed" ++ ","
   ++ quoted "points" ++ ":[{"
   ++ quoted "x" ++ ":15.412186622619629," ++ quoted "y" ++ ":88.62004089355469},{"
   ++ quoted "x" ++ ":16.129032135009766," ++ quoted "y" ++ ":84.09867095947266},{"
   ++ quoted "x" ++ ":15.770608901977539," ++ quoted "y" ++ ":18.53879737854004}]}]")%string.

(** [JSON.parse] on that text and on the texts above. *)
Definition JSON_parse_saved_sample (text : string) : option JSON :=
  if String.eqb text sampleSavedPolylines
  then Some (savedPolylines DEFAULT_HOME_POLYLINES)
  else JSON_parse_sample text.

(** The text of a polyline snapshot whose one element has for [id] an
    object with a [toString] property. *)
Definition sampleUnusableSnapshot : string :=
  ("[{" ++ quoted "id" ++ ":{" ++ quoted "toString" ++ ":1},"
   ++ quoted "label" ++ ":" ++ quoted "T" ++ "}]")%string.

(** [JSON.parse] on that text and on the texts above. *)
Definition JSON_parse_snapshot_sample (text : string) : option JSON :=
  if String.eqb text sampleUnusableSnapshot
  then Some (JArr [JObj [("id", JObj [("toString", JNum 1)]); ("label", JStr "T")]])
  else JSON_parse_sample text.

(** The text [JSON.stringify] writes for the sample segment moved to the
    bottom edge. *)
Definition sampleExportText : string :=
  ("[{" ++ quoted "id" ++ ":" ++ quoted "s1" ++ ","
   ++ quoted "code" ++ ":" ++ quoted "S-1" ++ ","
   ++ quoted "title" ++ ":" ++ quoted "" ++ ","
   ++ quoted "details" ++ ":" ++ quoted "" ++ ","
   ++ quoted "top" ++ ":100," ++ quoted "left" ++ ":10,"
   ++ quoted "width" ++ ":10," ++ quoted "height" ++ ":8,"
   ++ quoted "color" ++ ":" ++ quoted "cyan" ++ "}]")%string.

(** [JSON.parse] on that text and on the texts above. *)
Definition JSON_parse_export_sample (text : string) : option JSON :=
  if String.eqb text sampleExportText
  then Some (savedSegments [ Segment.mk "s1" "S-1" "" "" 100 10 10 8 cyan ])
  else JSON_parse_sample text.
(** * Properties *)

(** ** Ordering of binary64 numbers *)

Module FloatOrder.

Lemma SFcompare_antisym (a b : spec_float) (c : comparison) :
  SFcompare a b = Some c -> SFcompare b a = Some (CompOpp c).
Proof.
  destruct a as [sa| sa| |sa ma ea], b as [sb| sb| |sb mb eb]; simpl;
    try discriminate;
    try (destruct sa; intros [= <-]; reflexivity);
    try (destruct sb; intros [= <-]; reflexivity);
    try (destruct sa, sb; intros [= <-]; reflexivity).
  intros [= <-]. f_equal.
  rewrite (Z.compare_antisym ea eb).
  assert (Hm : Pos.compare_cont Eq mb ma = CompOpp (Pos.compare_cont Eq ma mb))
    by (rewrite Pos.compare_cont_antisym; reflexivity).
  rewrite Hm.
  destruct sa, sb; simpl; try reflexivity;
    destruct (ea ?= eb)%Z; simpl; try reflexivity;
    destruct (Pos.compare_cont Eq ma mb); reflexivity.
Qed.

Lemma SFcompare_defined (a b : spec_float) :
  a <> S754_nan -> b <> S754_nan -> exists c, SFcompare a b = Some c.
Proof.
  destruct a, b; simpl; intros; try congruence; eauto.
Qed.

Lemma not_nan_spec (x : float) : PrimFloat.is_nan x = false -> Prim2SF x <> S754_nan.
Proof.
  unfold PrimFloat.is_nan. rewrite FloatAxioms.eqb_spec. intros H E. rewrite E in H. discriminate.
Qed.

Lemma ltb_false_leb (x y : float) :
  PrimFloat.is_nan x = false -> PrimFloat.is_nan y = false ->
  (x <? y)%float = false -> (y <=? x)%float = true.
Proof.
  intros Hx Hy. rewrite FloatAxioms.ltb_spec, FloatAxioms.leb_spec. unfold SFltb, SFleb.
  destruct (SFcompare_defined (Prim2SF x) (Prim2SF y)) as [c Hc];
    auto using not_nan_spec.
  rewrite Hc, (SFcompare_antisym _ _ _ Hc).
  destruct c; simpl; congruence.
Qed.

Lemma leb_not_nan_l (x y : float) : (x <=? y)%float = true -> PrimFloat.is_nan x = false.
Proof.
  rewrite FloatAxioms.leb_spec. unfold PrimFloat.is_nan. rewrite FloatAxioms.eqb_spec. unfold SFleb, SFeqb.
  destruct (Prim2SF x) as [s|s| |s m e] eqn:E; simpl; try discriminate.
  - reflexivity.
  - destruct s; reflexivity.
  - intros _. rewrite Z.compare_refl, Pos.compare_cont_refl. destruct s; reflexivity.
Qed.

Lemma leb_ltb_false (x y : float) : (x <=? y)%float = true -> (y <? x)%float = false.
Proof.
  rewrite FloatAxioms.leb_spec, FloatAxioms.ltb_spec. unfold SFleb, SFltb.
  destruct (SFcompare (Prim2SF x) (Prim2SF y)) as [c|] eqn:Hc; [|discriminate].
  rewrite (SFcompare_antisym _ _ _ Hc). destruct c; simpl; congruence.
Qed.

End FloatOrder.

Import FloatOrder.

(** ** Clamping to a percentage *)

Lemma Prim2SF_0 : Prim2SF 0 = S754_zero false.
Proof. reflexivity. Qed.

Lemma clampPercent_in_range (v : float) :
  inPercentRange (BlueprintSidebarEdit.clampPercent v) = true.
Proof.
  unfold BlueprintSidebarEdit.clampPercent, JS.Number_isNaN.
  destruct (PrimFloat.is_nan v) eqn:Hnan; [reflexivity|].
  destruct (v <? 0)%float eqn:Hlo; [reflexivity|].
  destruct (100 <? v)%float eqn:Hhi; [reflexivity|].
  unfold inPercentRange. apply andb_true_intro; split.
  - apply ltb_false_leb; auto.
  - apply ltb_false_leb; auto.
Qed.

Lemma clampPercent_fixes_range (v : float) :
  inPercentRange v = true -> BlueprintSidebarEdit.clampPercent v = v.
Proof.
  unfold inPercentRange. intros H. apply andb_prop in H. destruct H as [Hlo Hhi].
  unfold BlueprintSidebarEdit.clampPercent, JS.Number_isNaN.
  rewrite (leb_not_nan_l _ _ Hhi), (leb_ltb_false _ _ Hlo), (leb_ltb_false _ _ Hhi).
  reflexivity.
Qed.

Lemma in_range_finite (v : float) :
  inPercentRange v = true -> JS.Number_isFinite v = true.
Proof.
  unfold inPercentRange. intros H. apply andb_prop in H. destruct H as [Hlo Hhi].
  unfold JS.Number_isFinite, PrimFloat.is_finite.
  rewrite (leb_not_nan_l _ _ Hhi). simpl.
  unfold PrimFloat.is_infinity. rewrite FloatAxioms.eqb_spec, abs_spec.
  rewrite FloatAxioms.leb_spec in Hlo, Hhi.
  change (Prim2SF 0) with (S754_zero false) in Hlo.
  change (Prim2SF infinity) with (S754_infinity false).
  change (Prim2SF 100) with (S754_finite false 7036874417766400 (-46)) in Hhi.
  destruct (Prim2SF v) as [s|s| |s m e]; try reflexivity; try discriminate.
  destruct s; discriminate.
Qed.

(** ** C1: geometry stays in range *)

Section SegmentUpdates.

Import BlueprintSidebarEdit.

Lemma spread_keeps_id (s : Segment.t) (p : SegmentPatch.t) :
  SegmentPatch.id p = None -> Segment.id (SegmentPatch.spread s p) = Segment.id s.
Proof. intros E. unfold SegmentPatch.spread. simpl. rewrite E. reflexivity. Qed.

Lemma spread_in_range (s : Segment.t) (p : SegmentPatch.t) :
  clampedPatch p -> geometryInRange s -> geometryInRange (SegmentPatch.spread s p).
Proof.
  intros (_ & Ht & Hl & Hw & Hh) Hs field.
  destruct field; simpl.
  - destruct (SegmentPatch.top p) eqn:E; simpl; [auto | apply (Hs Top)].
  - destruct (SegmentPatch.left p) eqn:E; simpl; [auto | apply (Hs Left)].
  - destruct (SegmentPatch.width p) eqn:E; simpl; [auto | apply (Hs Width)].
  - destruct (SegmentPatch.height p) eqn:E; simpl; [auto | apply (Hs Height)].
Qed.

Lemma geometryPatch_clamped (field : GeometryField) (entered : float) :
  clampedPatch (geometryPatch field (clampPercent entered)).
Proof.
  destruct field; repeat split; simpl; intros v [= <-] || discriminate;
    apply clampPercent_in_range.
Qed.

Lemma positionPatch_clamped (rawTop rawLeft : float) :
  clampedPatch
    (SegmentPatch.mk None None None None
       (Some (BlueprintImageWithSegments.clampPercent rawTop))
       (Some (BlueprintImageWithSegments.clampPercent rawLeft)) None None None).
Proof.
  repeat split; simpl; intros v [= <-] || discriminate;
    apply clampPercent_in_range.
Qed.

Lemma handleUpdateSegment_keeps_range (id target : string) (p : SegmentPatch.t) (h : Home.State) :
  clampedPatch p -> rangeHoldsFor id h ->
  rangeHoldsFor id (Home.handleUpdateSegment target p h).
Proof.
  intros Hp Hh s Hin Hid. unfold Home.handleUpdateSegment in Hin. simpl in Hin.
  apply in_map_iff in Hin. destruct Hin as (s0 & Hs & Hin0).
  destruct (String.eqb (Segment.id s0) target); subst s.
  - apply spread_in_range; [exact Hp|]. apply (Hh s0 Hin0).
    rewrite <- Hid. symmetry. apply spread_keeps_id. apply Hp.
  - apply (Hh s0 Hin0 Hid).
Qed.




End SegmentUpdates.




(** ** C2: the drag session *)

Section DragSession.

Import BlueprintImageWithSegments.

Lemma position_patch_overwrites (s : Segment.t) (t1 l1 t2 l2 : float) :
  SegmentPatch.spread
    (SegmentPatch.spread s
       (SegmentPatch.mk None None None None (Some t1) (Some l1) None None None))
    (SegmentPatch.mk None None None None (Some t2) (Some l2) None None None)
  = SegmentPatch.spread s
      (SegmentPatch.mk None None None None (Some t2) (Some l2) None None None).
Proof. reflexivity. Qed.

Lemma position_change_last_wins (id : string) (t1 l1 t2 l2 : float) (h : Home.State) :
  Home.handleSegmentPositionChange id t2 l2 (Home.handleSegmentPositionChange id t1 l1 h)
  = Home.handleSegmentPositionChange id t2 l2 h.
Proof.
  unfold Home.handleSegmentPositionChange, Home.handleUpdateSegment,
    Home.setSelectedSegmentId, Home.setSegments. simpl.
  f_equal. rewrite map_map. apply map_ext. intros s.
  destruct (String.eqb (Segment.id s) id) eqn:E.
  - simpl. rewrite E. reflexivity.
  - rewrite E. reflexivity.
Qed.

(** While [Home] is in edit mode, a [mousemove] that finds the image laid
    out decides the position alone: the moves handled before it in the same
    drag leave no trace. *)
Lemma drag_move_last_wins (lay1 lay2 : Layout.t) (e1 e2 : MouseEvent.t)
  (c : Local) (h : Home.State) (rect : DOMRect.t) :
  Layout.img lay2 = Some rect ->
  let h1 := handleMouseMove (rendered_by_Home h) lay1 e1 c h in
  handleMouseMove (rendered_by_Home h1) lay2 e2 c h1
  = handleMouseMove (rendered_by_Home h) lay2 e2 c h.
Proof.
  intros Himg. unfold handleMouseMove, rendered_by_Home.
  destruct (dragState c) as [drag|]; [|reflexivity].
  destruct (Home.isEditMode h) eqn:Hedit; simpl; [|rewrite Hedit; reflexivity].
  rewrite Himg.
  destruct (Layout.img lay1); simpl; rewrite Hedit; simpl.
  - apply position_change_last_wins.
  - reflexivity.
Qed.

(** The state a drag leaves depends on its last [mousemove] only, however
    many moves came before it. *)
Lemma drag_session_set_by_last_move (lay : Layout.t) (grab : MouseEvent.t)
  (segment : Segment.t) (moves : list (Layout.t * MouseEvent.t))
  (last : Layout.t * MouseEvent.t) (h : Home.State) (rect : DOMRect.t) :
  Layout.img (fst last) = Some rect ->
  fst (dragSession lay grab segment (moves ++ [last]) h)
  = fst (dragSession lay grab segment [last] h).
Proof.
  intros Himg. unfold dragSession. cbn [fst].
  set (c := handleMouseDown (rendered_by_Home h) lay grab segment mounted).
  clearbody c. revert h.
  induction moves as [|m moves IH]; intros h; [reflexivity|].
  cbn [app fold_left]. rewrite IH. cbn [fold_left].
  apply (drag_move_last_wins (fst m) (fst last) (snd m) (snd last) c h rect Himg).
Qed.

End DragSession.

(** C2, at the failing input.  The image is 1000 by 500 pixels at the page
    origin and the segment is at left 10, top 20.  It is grabbed at pixel
    (150, 150), that is at (15, 30) in percent, so the grab offset is
    (5, 10); the pointer ends at pixel (500, 250), that is at (50, 50).  The
    position of the specification is left 45, top 40.  The move handler
    subtracts the offset, a percentage, from pixel coordinates and stores
    left 49.5, top 48. *)
Theorem drag_subtracts_percent_offset_from_pixels :
  storedPosition "s1"
    (fst (dragSession sampleLayout (MouseEvent.mk 150 150) sampleSegment
            [ (sampleLayout, MouseEvent.mk 300 200);
              (sampleLayout, MouseEvent.mk 500 250) ]
            sampleEditing))
  = [ (48%float, 49.5%float) ] /\
  positionPerSpec sampleLayout (MouseEvent.mk 150 150) sampleSegment
    sampleLayout (MouseEvent.mk 500 250)
  = Some (40%float, 45%float).
Proof. split; vm_compute; reflexivity. Qed.

(** ** C3: the import validator is all-or-nothing *)

Section ImportValidator.

Import BlueprintSidebarEdit.

Lemma segmentOfItem_accepts (item : JSON) (seg : Segment.t) :
  segmentOfItem item = Some seg ->
  exists props,
    item = JObj props /\
    JSValue.lookup "id" props = Some (JStr (Segment.id seg)) /\
    JSString.trim_is_empty (Segment.id seg) = false.
Proof.
  unfold segmentOfItem.
  destruct item as [|b|x|s|items|props]; simpl;
    try discriminate; try (rewrite orb_true_r; discriminate).
  destruct (JSValue.lookup "id" props) as [[| | |id| |]|] eqn:L; try discriminate.
  destruct (JSString.trim_is_empty id) eqn:T; [discriminate|].
  intros [= <-]. exists props. simpl. auto.
Qed.

Lemma segmentOfItem_rejects (item : JSON) :
  ~ hasNonEmptyStringId item -> segmentOfItem item = None.
Proof.
  intros Hno. destruct (segmentOfItem item) as [seg|] eqn:E; [|reflexivity].
  exfalso. apply Hno. destruct (segmentOfItem_accepts item seg E) as (props & -> & L & T).
  exists props, (Segment.id seg). repeat split; auto.
  intros Hempty. rewrite Hempty in T. discriminate.
Qed.

Lemma normalizeLoop_accepts (items : list JSON) :
  forall result out,
    normalizeLoop items result = Some out ->
    exists segs,
      out = result ++ segs /\
      Forall2 (fun item seg => segmentOfItem item = Some seg) items segs.
Proof.
  induction items as [|item rest IH]; simpl; intros result out H.
  - injection H as <-. exists []. rewrite app_nil_r. auto.
  - destruct (segmentOfItem item) as [segment|] eqn:E; [|discriminate].
    destruct (IH _ _ H) as (segs & -> & HF).
    exists (segment :: segs). rewrite <- app_assoc. simpl. auto.
Qed.

Lemma normalizeLoop_rejects (items : list JSON) :
  forall result,
    Exists (fun item => segmentOfItem item = None) items ->
    normalizeLoop items result = None.
Proof.
  induction items as [|item rest IH]; intros result H; inversion H; subst; simpl.
  - rewrite H1. reflexivity.
  - destruct (segmentOfItem item); [apply IH; assumption | reflexivity].
Qed.

End ImportValidator.

(** C3. [normalizeImportedSegments] returns null on every value that is not
    an array and on every array with an element that is not an object with
    a non-empty string [id], whatever the other elements are; when it
    returns a list, the list has one segment per element of the array, in
    order, so it is never a partial list. *)
Theorem import_is_all_or_nothing :
  (forall raw,
      JSValue.Array_isArray raw = false ->
      BlueprintSidebarEdit.normalizeImportedSegments raw = None) /\
  (forall items,
      Exists (fun item => ~ hasNonEmptyStringId item) items ->
      BlueprintSidebarEdit.normalizeImportedSegments (JArr items) = None) /\
  (forall items segs,
      BlueprintSidebarEdit.normalizeImportedSegments (JArr items) = Some segs ->
      Forall2 (fun item seg => BlueprintSidebarEdit.segmentOfItem item = Some seg) items segs /\
      Forall hasNonEmptyStringId items).
Proof.
  split; [|split].
  - intros raw H. destruct raw; try reflexivity. discriminate.
  - intros items H. simpl. apply normalizeLoop_rejects.
    apply Exists_exists in H. destruct H as (item & Hin & Hno).
    apply Exists_exists. exists item. split; [exact Hin|].
    apply segmentOfItem_rejects. exact Hno.
  - intros items segs H. simpl in H.
    destruct (normalizeLoop_accepts _ _ _ H) as (segs' & -> & HF). simpl.
    split; [exact HF|].
    clear H. induction HF as [|item seg items segs' Hitem _ IH]; constructor; auto.
    destruct (segmentOfItem_accepts item seg Hitem) as (props & -> & L & T).
    exists props, (Segment.id seg). repeat split; auto.
    intros Hempty. rewrite Hempty in T. discriminate.
Qed.

(** A number is rejected, and so is an array whose second element has no
    [id] although its first element is a complete segment. *)
Lemma import_is_all_or_nothing_witness :
  BlueprintSidebarEdit.normalizeImportedSegments (JNum 7) = None /\
  BlueprintSidebarEdit.normalizeImportedSegments
    (JArr [ Segment.value sampleSegment; JObj [ ("code", JStr "S-2") ] ]) = None.
Proof.
  split.
  - apply (proj1 import_is_all_or_nothing). reflexivity.
  - apply (proj1 (proj2 import_is_all_or_nothing)).
    apply Exists_cons_tl. apply Exists_cons_hd.
    intros (props & id & E & L & _). injection E as <-. discriminate L.
Defined.

(** ** C4: initialisation from the persisted snapshots *)

Section SnapshotInitialisers.

Variable JSON_parse : string -> option JSON.
Variable Number_toString : float -> string.

Lemma get_throws_on_null (raw : JSON) (key : string) :
  JSValue.get raw key = JSValue.Throws -> raw = JNull.
Proof.
  destruct raw as [| | | | |props]; simpl; try discriminate; [reflexivity|].
  destruct (JSValue.lookup key props); discriminate.
Qed.

Lemma polylineOfRaw_throws (raw : JSON) :
  unusableElement Number_toString raw -> polylineOfRaw Number_toString raw = None.
Proof.
  intros [-> | (v & Hid & Hv)]; [reflexivity|].
  unfold polylineOfRaw. rewrite Hid, Hv. reflexivity.
Qed.

Lemma polylineOfRaw_defined (raw : JSON) :
  ~ unusableElement Number_toString raw ->
  exists p, polylineOfRaw Number_toString raw = Some p.
Proof.
  intros Hraw. unfold polylineOfRaw.
  destruct (JSValue.get raw "id") as [| |v] eqn:Hid.
  - exfalso. apply Hraw. left. exact (get_throws_on_null raw "id" Hid).
  - eauto.
  - destruct (String_of Number_toString v) as [id|] eqn:Hv; [eauto|].
    exfalso. apply Hraw. right. exists v. auto.
Qed.

Lemma polylineOfRaw_defaults (raw : JSON) (p : LoadedPolyline.t) :
  polylineOfRaw Number_toString raw = Some p -> defaultedFieldByField raw p.
Proof.
  unfold polylineOfRaw.
  destruct (JSValue.get raw "id") as [| |v] eqn:Hid;
    [discriminate | | destruct (String_of Number_toString v) as [id|]; [|discriminate]];
    intros [= <-]; unfold defaultedFieldByField; simpl.
  all: repeat match goal with |- _ /\ _ => split end.
  all: try (intros ? Hv; rewrite Hv; reflexivity).
  all: try (intros Hv; rewrite Hv; reflexivity).
  all: try (intros ? Hw Hf; rewrite Hw, Hf; reflexivity).
  all: try (destruct (JSValue.get raw "label") as [| |[| | |s| |]]; try reflexivity;
            intros H; exfalso; eapply H; reflexivity).
  all: try (destruct (JSValue.get raw "description") as [| |[| | |s| |]]; try reflexivity;
            intros H; exfalso; eapply H; reflexivity).
  all: try (destruct (JSValue.get raw "points") as [| |[| | | |pts|]]; try reflexivity;
            intros H; exfalso; eapply H; reflexivity).
  all: try (destruct (JSValue.get raw "strokeWidth") as [| |[| |w| | |]]; try reflexivity;
            intros H; destruct (JS.Number_isFinite w) eqn:Hf; [|reflexivity];
            specialize (H w eq_refl); congruence).
  all: try (destruct (JSValue.get raw "strokeWidth") as [| |[| |w| | |]]; try reflexivity;
            destruct (JS.Number_isFinite w) eqn:Hf; [exact Hf | reflexivity]).
  all: intros H1 H2;
    destruct (JSValue.get raw "dashStyle") as [| |[| | |s| |]]; try reflexivity;
    destruct (String.eqb s "dashed") eqn:E1;
    [apply String.eqb_eq in E1; subst s; exfalso; apply H1; reflexivity|];
    destruct (String.eqb s "dotted") eqn:E2;
    [apply String.eqb_eq in E2; subst s; exfalso; apply H2; reflexivity|];
    reflexivity.
Qed.

Lemma mapPolylines_throws (parsed : list JSON) :
  Exists (unusableElement Number_toString) parsed ->
  mapPolylines Number_toString parsed = None.
Proof.
  induction 1 as [raw rest Hraw | raw rest _ IH]; simpl.
  - rewrite (polylineOfRaw_throws raw Hraw). reflexivity.
  - destruct (polylineOfRaw Number_toString raw); [|reflexivity].
    rewrite IH. reflexivity.
Qed.

Lemma mapPolylines_rebuilds (parsed : list JSON) :
  ~ Exists (unusableElement Number_toString) parsed ->
  exists loaded,
    mapPolylines Number_toString parsed = Some loaded /\
    Forall2 defaultedFieldByField parsed loaded.
Proof.
  induction parsed as [|raw rest IH]; intros Hno; simpl.
  - exists []. auto.
  - destruct (polylineOfRaw_defined raw) as (p & Hp).
    { intros Hraw. apply Hno. apply Exists_cons_hd. exact Hraw. }
    destruct IH as (loaded & Hl & HF).
    { intros Hin. apply Hno. apply Exists_cons_tl. exact Hin. }
    rewrite Hp, Hl. exists (p :: loaded). split; [reflexivity|].
    constructor; [apply polylineOfRaw_defaults; exact Hp | exact HF].
Qed.

Lemma tryLoadPolylines_no_array (item : GetItem) :
  noArraySnapshot JSON_parse item ->
  tryLoadPolylines JSON_parse Number_toString item = None.
Proof.
  destruct item as [| |stored]; simpl; try reflexivity.
  intros [-> | [Hp | (v & Hp & Hv)]]; [reflexivity | |].
  - destruct (String.eqb stored ""); [reflexivity|]. rewrite Hp. reflexivity.
  - destruct (String.eqb stored ""); [reflexivity|]. rewrite Hp.
    destruct v; try reflexivity. discriminate.
Qed.

End SnapshotInitialisers.

(** C4, as the code has it.  When the read of a snapshot throws, finds no
    entry, an empty text, a text that is not JSON or a value that is not an
    array, the segments of [Home] start as [DEFAULT_SEGMENTS], its polylines
    as [DEFAULT_HOME_POLYLINES], and the polylines of the modal start empty.
    A polyline array with an element that cannot be used, a [null] or an
    element whose [id] cannot be turned into a string, is treated the same
    way.  Every element of any other polyline array is rebuilt field by
    field, with [label], [description], [strokeWidth], [dashStyle] and
    [points] defaulted when they are not of the expected kind. *)
Theorem snapshot_initialisers_fall_back_and_default_polylines
  (JSON_parse : string -> option JSON) (Number_toString : float -> string) :
  (forall item,
      noArraySnapshot JSON_parse item ->
      Home_segmentsInitializer JSON_parse item = map Segment.value DEFAULT_SEGMENTS /\
      Home_polylinesInitializer JSON_parse Number_toString item
      = map LoadedPolyline.of_polyline DEFAULT_HOME_POLYLINES /\
      WheelDetailModal_polylinesInitializer JSON_parse Number_toString item = []) /\
  (forall stored parsed,
      stored <> "" ->
      JSON_parse stored = Some (JArr parsed) ->
      (Exists (unusableElement Number_toString) parsed ->
       Home_polylinesInitializer JSON_parse Number_toString (GetString stored)
       = map LoadedPolyline.of_polyline DEFAULT_HOME_POLYLINES /\
       WheelDetailModal_polylinesInitializer JSON_parse Number_toString (GetString stored)
       = []) /\
      (~ Exists (unusableElement Number_toString) parsed ->
       exists loaded,
         Home_polylinesInitializer JSON_parse Number_toString (GetString stored) = loaded /\
         WheelDetailModal_polylinesInitializer JSON_parse Number_toString (GetString stored)
         = loaded /\
         Forall2 defaultedFieldByField parsed loaded)).
Proof.
  split.
  - intros item Hitem.
    unfold Home_polylinesInitializer, WheelDetailModal_polylinesInitializer.
    rewrite (tryLoadPolylines_no_array JSON_parse Number_toString item Hitem).
    repeat split.
    destruct item as [| |stored]; simpl; try reflexivity.
    destruct (String.eqb stored "") eqn:E; [reflexivity|].
    destruct Hitem as [-> | [Hp | (v & Hp & Hv)]]; [discriminate E | |]; rewrite Hp.
    + reflexivity.
    + destruct v; try reflexivity. discriminate.
  - intros stored parsed Hne Hp.
    unfold Home_polylinesInitializer, WheelDetailModal_polylinesInitializer. simpl.
    apply String.eqb_neq in Hne. rewrite Hne, Hp. split.
    + intros Hin. rewrite (mapPolylines_throws Number_toString parsed Hin). auto.
    + intros Hno.
      destruct (mapPolylines_rebuilds Number_toString parsed Hno) as (loaded & -> & HF).
      exists loaded. auto.
Qed.

(** On the sample parser: no entry; the text of an array holding one empty
    object, which is rebuilt; and the text of an array holding one object
    whose [id] is an object with a [toString] property, on which both
    initialisers fall back. *)
Lemma snapshot_initialisers_fall_back_and_default_polylines_witness :
  Home_segmentsInitializer JSON_parse_snapshot_sample GetNull
  = map Segment.value DEFAULT_SEGMENTS /\
  (exists loaded,
    Home_polylinesInitializer JSON_parse_snapshot_sample Number_toString_sample
      (GetString "[{}]")
    = loaded /\
    Forall2 defaultedFieldByField [JObj []] loaded) /\
  Home_polylinesInitializer JSON_parse_snapshot_sample Number_toString_sample
    (GetString sampleUnusableSnapshot)
  = map LoadedPolyline.of_polyline DEFAULT_HOME_POLYLINES /\
  WheelDetailModal_polylinesInitializer JSON_parse_snapshot_sample Number_toString_sample
    (GetString sampleUnusableSnapshot)
  = [].
Proof.
  split; [|split].
  - apply (proj1 (snapshot_initialisers_fall_back_and_default_polylines
                    JSON_parse_snapshot_sample Number_toString_sample) GetNull).
    exact I.
  - destruct (proj2 (proj2 (snapshot_initialisers_fall_back_and_default_polylines
                              JSON_parse_snapshot_sample Number_toString_sample)
                       "[{}]" [JObj []] ltac:(discriminate) eq_refl))
      as (loaded & H1 & _ & H3).
    + intros Hbad. inversion Hbad as [raw rest [Hnull | (v & Hid & _)] | raw rest Hrest];
        [discriminate Hnull | discriminate Hid | inversion Hrest].
    + exists loaded. auto.
  - apply (proj1 (proj2 (snapshot_initialisers_fall_back_and_default_polylines
                           JSON_parse_snapshot_sample Number_toString_sample)
                    sampleUnusableSnapshot
                    [JObj [("id", JObj [("toString", JNum 1)]); ("label", JStr "T")]]
                    ltac:(discriminate) eq_refl)).
    apply Exists_cons_hd. right.
    exists (JObj [("toString", JNum 1)]). split; reflexivity.
Defined.

(** C4 as stated fails.  With no entry under its key the modal starts with
    an empty collection and not with a default dataset; and a segment
    snapshot enters the state of [Home] as parsed: from the text [[42]] the
    state holds the number 42, which no field-by-field validation would
    have kept. *)
Lemma snapshot_is_cast_and_modal_starts_empty :
  WheelDetailModal_polylinesInitializer JSON_parse_sample Number_toString_sample GetNull = [] /\
  Home_segmentsInitializer JSON_parse_sample (GetString "[42]") = [JNum 42] /\
  BlueprintSidebarEdit.normalizeImportedSegments (JArr [JNum 42]) = None.
Proof. repeat split. Qed.

(** ** C5: the polyline drawing session *)

Section DrawingSession.

Import BlueprintImageWithSegments.

Lemma map_fixes {A} (f : A -> A) (l : list A) :
  (forall a, In a l -> f a = a) -> map f l = l.
Proof.
  intros H. rewrite <- (map_id l) at 2. apply map_ext_in. exact H.
Qed.

Lemma add_point_to_fresh (active : string) (point : PolylinePoint.t)
  (old : list Polyline.t) (line : Polyline.t) :
  (forall p, In p old -> Polyline.id p <> active) ->
  Polyline.id line = active ->
  map (fun poly =>
         if String.eqb (Polyline.id poly) active
         then Polyline.push_point poly point
         else poly)
      (old ++ [line])
  = old ++ [Polyline.push_point line point].
Proof.
  intros Hfresh Hline. rewrite map_app. simpl.
  rewrite Hline, String.eqb_refl. f_equal.
  apply map_fixes. intros p Hp.
  destruct (String.eqb_spec (Polyline.id p) active) as [E|E]; [|reflexivity].
  exfalso. exact (Hfresh p Hp E).
Qed.

End DrawingSession.

(** What the drawing session of the main page does commit.  Start, capture
    of [p1], capture of [p2] and finish leave the collection with exactly
    one more polyline, whose points are [[p1; p2]] in that order, provided
    the generated id is not in use.  The point a click captures is the
    tracked preview point when there is one, and the coordinate of the
    click only when there is none; pointer moves and leaves alone never
    change the collection. *)
Theorem drawing_session_commits_captured_points
  (now36 : string) (p1 p2 : PolylinePoint.t) (h : Home.State)
  (Hfresh : forall p, In p (Home.polylines h) ->
                      Polyline.id p <> ("poly-" ++ now36)%string) :
  Home.polylines
    (Home.handleFinishPolyline
       (Home.handleAddPolylinePointFromCanvas p2
          (Home.handleAddPolylinePointFromCanvas p1
             (Home.handleStartPolyline now36 h))))
  = Home.polylines h ++
    [ Polyline.mk ("poly-" ++ now36)
        ("Линия " ++ JSString.of_nat (List.length (Home.polylines h) + 1))
        "" cyan 0.7 solid [p1; p2] ] /\
  (forall lay event c h0,
      Home.isEditMode h0 = true ->
      Home.isDrawingPolyline h0 = true ->
      fst (canvasStep (h0, c) (Click lay event))
      = match capturedPoint lay event c with
        | Some q => Home.handleAddPolylinePointFromCanvas q h0
        | None => h0
        end) /\
  (forall lay event c h0,
      fst (canvasStep (h0, c) (PointerMove lay event)) = h0 /\
      fst (canvasStep (h0, c) PointerLeave) = h0).
Proof.
  split; [|split].
  - unfold Home.handleFinishPolyline, Home.handleAddPolylinePointFromCanvas,
      Home.handleStartPolyline. simpl.
    erewrite add_point_to_fresh; [|exact Hfresh|reflexivity].
    erewrite add_point_to_fresh; [|exact Hfresh|reflexivity].
    reflexivity.
  - intros lay event c h0 Hedit Hdraw. simpl.
    unfold BlueprintImageWithSegments.handleCanvasClick,
      BlueprintImageWithSegments.rendered_by_Home, capturedPoint.
    rewrite Hedit. simpl. rewrite Hdraw.
    destruct (BlueprintImageWithSegments.previewPoint c); [reflexivity|].
    destruct (BlueprintImageWithSegments.clientToSvgPercent lay _ _) as [[x y]|];
      reflexivity.
  - intros lay event c h0. split; reflexivity.
Qed.

(** From the sample state, which has no polyline. *)
Lemma drawing_session_commits_captured_points_witness :
  Home.polylines
    (Home.handleFinishPolyline
       (Home.handleAddPolylinePointFromCanvas (PolylinePoint.mk 30 60)
          (Home.handleAddPolylinePointFromCanvas (PolylinePoint.mk 10 20)
             (Home.handleStartPolyline "m1" sampleEditing))))
  = [ Polyline.mk "poly-m1" "Линия 1" "" cyan 0.7 solid
        [ PolylinePoint.mk 10 20; PolylinePoint.mk 30 60 ] ].
Proof.
  refine (proj1 (drawing_session_commits_captured_points "m1"
                   (PolylinePoint.mk 10 20) (PolylinePoint.mk 30 60) sampleEditing _)).
  intros p [].
Defined.

(** C5 does not hold of the canvas of the main page when the tracked
    preview point is stale.  After start the pointer moves to pixel
    (100, 100), so the preview point is (10, 20), and clicks there.  The
    scale is then doubled with the wheel and the pointer, which has not
    moved and is now over the coordinate (5, 10), clicks again before the
    line is finished.  [handleCanvasClick] commits the preview point twice:
    the preview point is in the list, and the position of the second click
    is not.  On the same events [handleContainerClick] of the modal commits
    the two positions clicked, as C5 says. *)
Lemma click_commits_the_preview_point :
  map Polyline.points
    (Home.polylines
       (fst (runCanvas
               [ StartPolyline "m1";
                 PointerMove sampleLayout (MouseEvent.mk 100 100);
                 Click sampleLayout (MouseEvent.mk 100 100);
                 Click sampleLayoutZoomed (MouseEvent.mk 100 100);
                 FinishPolyline ]
               (sampleEditing, BlueprintImageWithSegments.mounted))))
  = [ [ PolylinePoint.mk 10 20; PolylinePoint.mk 10 20 ] ] /\
  BlueprintImageWithSegments.previewPoint
    (snd (runCanvas
            [ StartPolyline "m1";
              PointerMove sampleLayout (MouseEvent.mk 100 100);
              Click sampleLayout (MouseEvent.mk 100 100);
              Click sampleLayoutZoomed (MouseEvent.mk 100 100);
              FinishPolyline ]
            (sampleEditing, BlueprintImageWithSegments.mounted)))
  = Some (PolylinePoint.mk 10 20) /\
  BlueprintImageWithSegments.clientToSvgPercent sampleLayout 100 100
  = Some (PolylinePoint.mk 10 20) /\
  BlueprintImageWithSegments.clientToSvgPercent sampleLayoutZoomed 100 100
  = Some (PolylinePoint.mk 5 10) /\
  map Polyline.points
    (WheelDetailModal.polylines
       (modalRun
          [ MdToggleEditMode;
            MdStart "m1";
            MdMove sampleLayout (MouseEvent.mk 100 100);
            MdClick sampleLayout (MouseEvent.mk 100 100);
            MdClick sampleLayoutZoomed (MouseEvent.mk 100 100);
            MdFinish ]
          (WheelDetailModal.initial [])))
  = [ [ PolylinePoint.mk 10 20; PolylinePoint.mk 5 10 ] ].
Proof. repeat split; vm_compute; reflexivity. Qed.

(** ** C6: deleting one polyline *)

Section DeletePolyline.

Lemma is_id_true (curr : option string) (id : string) :
  is_id curr id = true <-> curr = Some id.
Proof.
  destruct curr as [c|]; simpl.
  - rewrite String.eqb_eq. split; [intros ->; reflexivity | intros [= ->]; reflexivity].
  - split; discriminate.
Qed.

Lemma is_id_false (curr : option string) (id : string) :
  curr <> Some id -> is_id curr id = false.
Proof.
  intros H. destruct (is_id curr id) eqn:E; [|reflexivity].
  apply is_id_true in E. contradiction.
Qed.

Lemma removed_by_filter (id : string) (l : list Polyline.t) (p : Polyline.t) :
  In p (filter (fun q => negb (String.eqb (Polyline.id q) id)) l) -> Polyline.id p <> id.
Proof.
  intros Hin E. apply filter_In in Hin. destruct Hin as [_ Hf].
  rewrite E, String.eqb_refl in Hf. discriminate.
Qed.

Lemma filter_drops_one (id : string) (l : list Polyline.t) :
  In id (map Polyline.id l) ->
  Nat.eqb (List.length l)
          (List.length (filter (fun q => negb (String.eqb (Polyline.id q) id)) l)) = false.
Proof.
  intros Hin. apply Nat.eqb_neq.
  assert (Hlt : List.length (filter (fun q => negb (String.eqb (Polyline.id q) id)) l)
                < List.length l); [|lia].
  induction l as [|q l IH]; [contradiction|]. simpl.
  destruct (String.eqb_spec (Polyline.id q) id) as [E|E]; simpl.
  - pose proof (filter_length_le (fun q => negb (String.eqb (Polyline.id q) id)) l). lia.
  - destruct Hin as [Hq|Hin]; [contradiction|]. specialize (IH Hin). lia.
Qed.

End DeletePolyline.

(** C6, as the code has it.  Both delete operations remove every polyline
    of the given id and, when that id was the active one, end the drawing
    session in the same update.  [handleDeletePolyline] of [Home] also moves
    the active reference to the first polyline that remains (or null) in
    that update.  [deleteLine] of the modal sets the active reference to
    null; the first remaining line becomes active afterwards, when the
    effect on the number of lines runs with the modal open.  A delete of
    another id leaves the active reference and the session as they are. *)
Theorem delete_polyline_keeps_active_reference_valid
  (id : string) (h : Home.State) (m : WheelDetailModal.State) :
  (Home.polylines (Home.handleDeletePolyline id h)
   = filter (fun p => negb (String.eqb (Polyline.id p) id)) (Home.polylines h) /\
   (forall p, In p (Home.polylines (Home.handleDeletePolyline id h)) -> Polyline.id p <> id) /\
   (Home.activePolylineId h = Some id ->
    Home.activePolylineId (Home.handleDeletePolyline id h)
    = option_map Polyline.id (hd_error (Home.polylines (Home.handleDeletePolyline id h))) /\
    Home.isDrawingPolyline (Home.handleDeletePolyline id h) = false) /\
   (Home.activePolylineId h <> Some id ->
    Home.activePolylineId (Home.handleDeletePolyline id h) = Home.activePolylineId h /\
    Home.isDrawingPolyline (Home.handleDeletePolyline id h) = Home.isDrawingPolyline h)) /\
  (WheelDetailModal.polylines (WheelDetailModal.deleteLine id m)
   = filter (fun p => negb (String.eqb (Polyline.id p) id)) (WheelDetailModal.polylines m) /\
   (forall p, In p (WheelDetailModal.polylines (WheelDetailModal.deleteLine id m)) ->
              Polyline.id p <> id) /\
   (WheelDetailModal.activeId m = Some id ->
    WheelDetailModal.activeId (WheelDetailModal.deleteLine id m) = None /\
    WheelDetailModal.isDrawing (WheelDetailModal.deleteLine id m) = false /\
    (In id (map Polyline.id (WheelDetailModal.polylines m)) ->
     WheelDetailModal.activeId
       (WheelDetailModal.afterEffects true m (WheelDetailModal.deleteLine id m))
     = option_map Polyline.id
         (hd_error (WheelDetailModal.polylines (WheelDetailModal.deleteLine id m))))) /\
   (WheelDetailModal.activeId m <> Some id ->
    WheelDetailModal.activeId (WheelDetailModal.deleteLine id m) = WheelDetailModal.activeId m /\
    WheelDetailModal.isDrawing (WheelDetailModal.deleteLine id m) = WheelDetailModal.isDrawing m)).
Proof.
  split.
  - repeat split; simpl.
    + apply removed_by_filter.
    + apply is_id_true in H. rewrite H. reflexivity.
    + apply is_id_true in H. rewrite H. reflexivity.
    + rewrite (is_id_false _ _ H). reflexivity.
    + rewrite (is_id_false _ _ H). reflexivity.
  - repeat split; simpl.
    + apply removed_by_filter.
    + apply is_id_true in H. rewrite H. reflexivity.
    + apply is_id_true in H. rewrite H. reflexivity.
    + intros Hin. unfold WheelDetailModal.afterEffects. simpl.
      rewrite (filter_drops_one id _ Hin). simpl.
      apply is_id_true in H. rewrite H. reflexivity.
    + rewrite (is_id_false _ _ H). reflexivity.
    + rewrite (is_id_false _ _ H). reflexivity.
Qed.

(** The active line "a" of the sample modal is deleted while it is being
    drawn; "b" becomes active once the effect has run. *)
Lemma delete_polyline_keeps_active_reference_valid_witness :
  WheelDetailModal.activeId
    (WheelDetailModal.afterEffects true sampleModal
       (WheelDetailModal.deleteLine "a" sampleModal))
  = Some "b".
Proof.
  refine (proj2 (proj2 (proj1 (proj2 (proj2 (proj2
            (delete_polyline_keeps_active_reference_valid "a" sampleEditing sampleModal))))
            eq_refl)) _).
  simpl. auto.
Defined.

(** C6 as stated fails on [deleteLine]: deleting the active line "a" of the
    sample modal leaves no active line in the update itself, although line
    "b" remains. *)
Lemma modal_delete_clears_active_reference :
  WheelDetailModal.activeId (WheelDetailModal.deleteLine "a" sampleModal) = None /\
  map Polyline.id (WheelDetailModal.polylines (WheelDetailModal.deleteLine "a" sampleModal))
  = ["b"].
Proof. split; reflexivity. Qed.

(** ** C7: the wheel zoom *)

Section WheelZoom.

Import BlueprintImageWithSegments.

Lemma add_opp_is_sub (a b : float) : (a + - b)%float = (a - b)%float.
Proof.
  apply Prim2SF_inj.
  rewrite FloatAxioms.add_spec, FloatAxioms.sub_spec, FloatAxioms.opp_spec.
  unfold SF64add, SF64sub.
  destruct (Prim2SF a) as [sa|sa| |sa ma ea], (Prim2SF b) as [sb|sb| |sb mb eb];
    simpl; try reflexivity; destruct sa, sb; reflexivity.
Qed.

Lemma ltb_asym (a b : float) : (a <? b)%float = true -> (b <? a)%float = false.
Proof.
  rewrite !FloatAxioms.ltb_spec. unfold SFltb.
  destruct (SFcompare (Prim2SF a) (Prim2SF b)) as [c|] eqn:Hc; [|discriminate].
  rewrite (FloatOrder.SFcompare_antisym _ _ _ Hc). destruct c; simpl; congruence.
Qed.

Lemma zoom_after_wheelEvents (n : nat) (deltaY : float) :
  forall h,
    Home.zoom (wheelEvents n deltaY h)
    = Nat.iter n (fun z => nextZoomOnWheel z deltaY) (Home.zoom h).
Proof.
  induction n as [|n IH]; intros h; [reflexivity|].
  simpl wheelEvents. rewrite IH. rewrite Nat.iter_succ_r. f_equal.
  unfold handleWheel, rendered_by_Home. destruct (Home.isEditMode h); reflexivity.
Qed.

Lemma tenths_step (k : Z) :
  (5 <= k <= 40)%Z ->
  nextZoomOnWheel (tenths k) wheelUp = tenths (Z.min 40 (k + 1)) /\
  nextZoomOnWheel (tenths k) wheelDown = tenths (Z.max 5 (k - 1)).
Proof.
  intros Hk.
  assert (Hcases : exists n, (n <= 35)%nat /\ k = (5 + Z.of_nat n)%Z).
  { exists (Z.to_nat (k - 5)). lia. }
  destruct Hcases as (n & Hn & ->). clear Hk.
  do 36 (destruct n as [|n]; [split; vm_compute; reflexivity|]).
  lia.
Qed.

(** Whatever the [deltaY] of the events, a scale that starts on a tenth
    between 0.5 and 4 stays on one: the scale never leaves [0.5, 4]. *)
Lemma scale_stays_on_tenths (deltas : list float) :
  forall h,
    (exists k, (5 <= k <= 40)%Z /\ Home.zoom h = tenths k) ->
    exists k, (5 <= k <= 40)%Z /\ Home.zoom (wheelSequence deltas h) = tenths k.
Proof.
  unfold wheelSequence.
  induction deltas as [|deltaY deltas IH]; intros h Hh; [exact Hh|].
  cbn [fold_left]. apply IH. destruct Hh as (k & Hk & Hz).
  assert (Hzoom : Home.zoom (handleWheel (rendered_by_Home h) deltaY h)
                  = nextZoomOnWheel (tenths k) deltaY).
  { unfold handleWheel, rendered_by_Home.
    destruct (Home.isEditMode h); simpl; rewrite Hz; reflexivity. }
  rewrite Hzoom. destruct (tenths_step k Hk) as [Hup Hdown].
  destruct (0 <? deltaY)%float eqn:Hd.
  - exists (Z.max 5 (k - 1)). split; [lia|]. rewrite <- Hdown.
    unfold nextZoomOnWheel, wheelDown. rewrite Hd. reflexivity.
  - exists (Z.min 40 (k + 1)). split; [lia|]. rewrite <- Hup.
    unfold nextZoomOnWheel, wheelUp. rewrite Hd. reflexivity.
Qed.

End WheelZoom.

(** C7.  A wheel event with [deltaY > 0] replaces the scale [zoom] by
    [zoom - 0.1], one with [deltaY < 0] by [zoom + 0.1], in both cases
    clamped to [0.5, 4] and then rounded to two decimals.  On the scales the
    interface can reach, the doubles nearest to k/10 for 5 <= k <= 40, a
    wheel-up gives the double nearest to (k+1)/10, capped at 4, and a
    wheel-down the double nearest to (k-1)/10, floored at 0.5.  From scale 1
    four wheel-up events give 1.4 and thirty more give 4. *)
Theorem wheel_steps_scale_by_a_tenth :
  (forall zoom deltaY,
      (0 <? deltaY)%float = true ->
      BlueprintImageWithSegments.nextZoomOnWheel zoom deltaY
      = JS.Number_toFixed2 (clampZoom (zoom - 0.1)%float)) /\
  (forall zoom deltaY,
      (deltaY <? 0)%float = true ->
      BlueprintImageWithSegments.nextZoomOnWheel zoom deltaY
      = JS.Number_toFixed2 (clampZoom (zoom + 0.1)%float)) /\
  (forall k,
      (5 <= k <= 40)%Z ->
      BlueprintImageWithSegments.nextZoomOnWheel (tenths k) wheelUp
      = tenths (Z.min 40 (k + 1)) /\
      BlueprintImageWithSegments.nextZoomOnWheel (tenths k) wheelDown
      = tenths (Z.max 5 (k - 1))) /\
  (forall h,
      Home.zoom h = 1%float ->
      Home.zoom (wheelEvents 4 wheelUp h) = 1.4%float /\
      Home.zoom (wheelEvents 30 wheelUp (wheelEvents 4 wheelUp h)) = 4%float).
Proof.
  split; [|split; [|split]].
  - intros zoom deltaY Hd. unfold BlueprintImageWithSegments.nextZoomOnWheel.
    rewrite Hd. change (-1 * 0.1)%float with (PrimFloat.opp 0.1%float).
    rewrite add_opp_is_sub. reflexivity.
  - intros zoom deltaY Hd. unfold BlueprintImageWithSegments.nextZoomOnWheel.
    rewrite (ltb_asym _ _ Hd). change (1 * 0.1)%float with 0.1%float. reflexivity.
  - apply tenths_step.
  - intros h Hz. rewrite !zoom_after_wheelEvents, Hz. split; vm_compute; reflexivity.
Qed.

(** The sample state starts at scale 1; a reached scale such as 3.9 is
    stepped to 4.0 and back to 3.8. *)
Lemma wheel_steps_scale_by_a_tenth_witness :
  (Home.zoom (wheelEvents 4 wheelUp sampleEditing) = 1.4%float /\
   Home.zoom (wheelEvents 30 wheelUp (wheelEvents 4 wheelUp sampleEditing)) = 4%float) /\
  (BlueprintImageWithSegments.nextZoomOnWheel (tenths 39) wheelUp = tenths (Z.min 40 (39 + 1)) /\
   BlueprintImageWithSegments.nextZoomOnWheel (tenths 39) wheelDown = tenths (Z.max 5 (39 - 1))) /\
  BlueprintImageWithSegments.nextZoomOnWheel 1 120
  = JS.Number_toFixed2 (clampZoom (1 - 0.1)%float).
Proof.
  split; [|split].
  - apply (proj2 (proj2 (proj2 wheel_steps_scale_by_a_tenth)) sampleEditing). reflexivity.
  - apply (proj1 (proj2 (proj2 wheel_steps_scale_by_a_tenth)) 39%Z). lia.
  - apply (proj1 wheel_steps_scale_by_a_tenth). reflexivity.
Defined.

(** A wheel event whose [deltaY] is zero (a horizontal scroll) or NaN takes
    the [else] branch of the direction test and zooms in. *)
Remark wheel_without_vertical_delta_zooms_in :
  BlueprintImageWithSegments.nextZoomOnWheel 1 0 = 1.1%float /\
  BlueprintImageWithSegments.nextZoomOnWheel 1 nan = 1.1%float.
Proof. split; vm_compute; reflexivity. Qed.

(** ** C9: zooming leaves the annotations alone *)

(** C9.  A wheel event on the blueprint, in edit mode or in view mode,
    changes the [zoom] cell of [Home] and nothing else: the segments, the
    polylines and every other cell are those of before.  The polylines of
    the modal live in the state of [WheelDetailModal], which the handler
    does not receive.  The scale enters the page only as the container
    width [zoom * 100] percent. *)
Theorem wheel_changes_only_the_scale (deltaY : float) (h : Home.State) :
  BlueprintImageWithSegments.handleWheel
    (BlueprintImageWithSegments.rendered_by_Home h) deltaY h
  = Home.setZoom (BlueprintImageWithSegments.nextZoomOnWheel (Home.zoom h) deltaY) h /\
  Home.segments
    (BlueprintImageWithSegments.handleWheel
       (BlueprintImageWithSegments.rendered_by_Home h) deltaY h)
  = Home.segments h /\
  Home.polylines
    (BlueprintImageWithSegments.handleWheel
       (BlueprintImageWithSegments.rendered_by_Home h) deltaY h)
  = Home.polylines h /\
  (forall n, Home.segments (wheelEvents n deltaY h) = Home.segments h /\
             Home.polylines (wheelEvents n deltaY h) = Home.polylines h).
Proof.
  assert (Hstep : forall h0,
             BlueprintImageWithSegments.handleWheel
               (BlueprintImageWithSegments.rendered_by_Home h0) deltaY h0
             = Home.setZoom
                 (BlueprintImageWithSegments.nextZoomOnWheel (Home.zoom h0) deltaY) h0).
  { intros h0. unfold BlueprintImageWithSegments.handleWheel,
      BlueprintImageWithSegments.rendered_by_Home.
    destruct (Home.isEditMode h0); reflexivity. }
  rewrite Hstep. repeat split.
  - revert h. induction n as [|n IH]; intros h; [reflexivity|].
    simpl. rewrite IH, Hstep. reflexivity.
  - revert h. induction n as [|n IH]; intros h; [reflexivity|].
    simpl. rewrite IH, Hstep. reflexivity.
Qed.

(** ** C8: export followed by import *)

Section RoundTrip.

Import BlueprintSidebarEdit.

Lemma is_zero_cases (x : float) :
  PrimFloat.is_zero x = true -> x = 0%float \/ x = (-0)%float.
Proof.
  unfold PrimFloat.is_zero. rewrite FloatAxioms.eqb_spec.
  change (Prim2SF PrimFloat.zero) with (S754_zero false).
  intros H. rewrite <- (SF2Prim_Prim2SF x).
  destruct (Prim2SF x) as [[|]|s| |s m e]; simpl in *; auto; try discriminate;
    destruct s; discriminate.
Qed.

Lemma reparsedNumber_in_range (x : float) :
  inPercentRange x = true -> inPercentRange (reparsedNumber x) = true.
Proof.
  intros H. unfold reparsedNumber. destruct (PrimFloat.is_zero x); [reflexivity | exact H].
Qed.

Lemma reparsedNumber_same (x : float) :
  inPercentRange x = true -> sameNumber (reparsedNumber x) x.
Proof.
  intros H. unfold reparsedNumber, sameNumber.
  destruct (PrimFloat.is_zero x) eqn:Hz.
  - destruct (is_zero_cases x Hz) as [-> | ->]; reflexivity.
  - unfold inPercentRange in H. apply andb_prop in H. destruct H as [_ Hhi].
    pose proof (FloatOrder.leb_not_nan_l _ _ Hhi) as Hnan.
    unfold PrimFloat.is_nan in Hnan. apply negb_false_iff in Hnan. exact Hnan.
Qed.

Lemma reparsedNumber_identity (x : float) :
  x <> (-0)%float -> reparsedNumber x = x.
Proof.
  intros Hx. unfold reparsedNumber. destruct (PrimFloat.is_zero x) eqn:Hz; [|reflexivity].
  destruct (is_zero_cases x Hz) as [-> | ->]; [reflexivity | contradiction].
Qed.

Lemma roundtrip_number (x : float) :
  inPercentRange x = true -> JSON_roundtrip (JNum x) = JNum (reparsedNumber x).
Proof.
  intros H. simpl. rewrite (in_range_finite x H). unfold reparsedNumber.
  destruct (PrimFloat.is_zero x); reflexivity.
Qed.

Lemma safeNumber_reparsed (x fallback : float) :
  inPercentRange x = true ->
  safeNumber (JSValue.Value (JNum (reparsedNumber x))) fallback = reparsedNumber x.
Proof.
  intros H. unfold safeNumber.
  rewrite (in_range_finite _ (reparsedNumber_in_range x H)).
  apply clampPercent_fixes_range. apply reparsedNumber_in_range. exact H.
Qed.

Lemma toSegmentColor_of_name (c : SegmentColor) :
  toSegmentColor (JSValue.Value (JStr (color_name c))) = c.
Proof. destruct c; reflexivity. Qed.

Lemma reimport_one (s : Segment.t) :
  wellFormedSegment s ->
  segmentOfItem (JSON_roundtrip (Segment.value s)) = Some (reparsedSegment s).
Proof.
  intros [Hid Hgeo].
  pose proof (Hgeo Top) as Ht. pose proof (Hgeo Left) as Hl.
  pose proof (Hgeo Width) as Hw. pose proof (Hgeo Height) as Hh.
  simpl in Ht, Hl, Hw, Hh.
  unfold Segment.value.
  change (JSON_roundtrip (JObj ?props)) with
    (JObj (map (fun '(k, w) => (k, JSON_roundtrip w)) props)).
  cbn [map].
  rewrite !roundtrip_number by assumption.
  cbn [JSON_roundtrip].
  cbv [segmentOfItem JSValue.truthy JSValue.typeof_is_object negb orb
       JSValue.get JSValue.lookup String.eqb Ascii.eqb Bool.eqb stringOr].
  rewrite Hid.
  rewrite !safeNumber_reparsed by assumption.
  rewrite toSegmentColor_of_name. reflexivity.
Qed.

Lemma reimport_all (segments : list Segment.t) :
  Forall wellFormedSegment segments ->
  forall result,
    normalizeLoop (map JSON_roundtrip (map Segment.value segments)) result
    = Some (result ++ map reparsedSegment segments).
Proof.
  induction 1 as [|s segments Hs _ IH]; intros result; cbn [map normalizeLoop].
  - rewrite app_nil_r. reflexivity.
  - rewrite (reimport_one s Hs), IH, <- app_assoc. reflexivity.
Qed.

Lemma reparsedSegment_deep_equal (s : Segment.t) :
  geometryInRange s -> segmentDeepEqual (reparsedSegment s) s.
Proof.
  intros Hgeo. unfold segmentDeepEqual. simpl. repeat split.
  intros field. destruct field; simpl; apply reparsedNumber_same;
    [apply (Hgeo Top) | apply (Hgeo Left) | apply (Hgeo Width) | apply (Hgeo Height)].
Qed.

Lemma reparsedSegment_identity (s : Segment.t) :
  noNegativeZero s -> reparsedSegment s = s.
Proof.
  intros Hnz. destruct s as [i c t d top left width height col].
  unfold reparsedSegment. simpl.
  rewrite (reparsedNumber_identity top (Hnz Top)).
  rewrite (reparsedNumber_identity left (Hnz Left)).
  rewrite (reparsedNumber_identity width (Hnz Width)).
  rewrite (reparsedNumber_identity height (Hnz Height)).
  reflexivity.
Qed.

End RoundTrip.

(** C8, as the code has it.  For a list of well-formed segments (geometry
    in [0,100], an id that is not blank), serialising the list, parsing the
    text and validating the result returns a list that is deep-equal to the
    original: the same strings and colours and numbers that are [===].  It
    is the very same list when no geometry field is a negative zero, which
    JSON writes as [0]. *)
Theorem export_then_import_round_trips (segments : list Segment.t)
  (Hwf : Forall wellFormedSegment segments) :
  exists out,
    exportThenImport segments = Some out /\
    Forall2 segmentDeepEqual out segments /\
    (Forall noNegativeZero segments -> out = segments).
Proof.
  exists (map reparsedSegment segments). split; [|split].
  - unfold exportThenImport. simpl.
    rewrite (reimport_all segments Hwf []). reflexivity.
  - clear -Hwf. induction Hwf as [|s segments [_ Hs] _ IH]; simpl; constructor; auto.
    apply reparsedSegment_deep_equal. exact Hs.
  - intros Hnz. clear Hwf. induction Hnz as [|s segments Hs _ IH]; simpl; [reflexivity|].
    rewrite (reparsedSegment_identity s Hs), IH. reflexivity.
Qed.

(** The default segments are well-formed and survive the round trip. *)
Lemma export_then_import_round_trips_witness :
  exists out,
    exportThenImport DEFAULT_SEGMENTS = Some out /\
    Forall2 segmentDeepEqual out DEFAULT_SEGMENTS /\
    (Forall noNegativeZero DEFAULT_SEGMENTS -> out = DEFAULT_SEGMENTS).
Proof.
  apply (export_then_import_round_trips DEFAULT_SEGMENTS).
  repeat constructor; intros field; destruct field; reflexivity.
Defined.

(** C8 as stated fails.  A segment whose id is a single space meets the
    constraints of the data model (a string id, geometry in [0,100]), and
    the validator rejects the list that holds it. *)
Lemma blank_id_does_not_round_trip :
  exportThenImport [sampleBlankId] = None /\
  geometryInRange sampleBlankId /\
  Segment.id sampleBlankId <> "".
Proof.
  split; [reflexivity|]. split; [|discriminate].
  intros field. destruct field; reflexivity.
Qed.

(** ** C10: importing an empty array *)

(** C10.  The validator accepts the empty array and returns the empty
    list.  Yet when the pasted text is not blank and parses to the empty
    array, [handleApplyImport] reports the format error and leaves the state
    of [Home], its segments included, as it was.  In general an import that
    does not report success leaves [Home] unchanged, and one that reports
    success installs a list with at least one segment. *)
Theorem empty_array_import_is_rejected
  (JSON_parse : string -> option JSON)
  (c : BlueprintSidebarEdit.Local) (h : Home.State)
  (Htext : JSString.trim_is_empty (BlueprintSidebarEdit.importText c) = false)
  (Hparse : JSON_parse (BlueprintSidebarEdit.importText c) = Some (JArr [])) :
  BlueprintSidebarEdit.normalizeImportedSegments (JArr []) = Some [] /\
  BlueprintSidebarEdit.handleApplyImport JSON_parse c h
  = (BlueprintSidebarEdit.mkLocal (BlueprintSidebarEdit.importText c)
       (Some "Некорректный формат данных или пустой список сегментов.") false,
     h) /\
  (forall c0 h0,
      BlueprintSidebarEdit.importSuccess
        (fst (BlueprintSidebarEdit.handleApplyImport JSON_parse c0 h0)) = false ->
      snd (BlueprintSidebarEdit.handleApplyImport JSON_parse c0 h0) = h0) /\
  (forall c0 h0,
      BlueprintSidebarEdit.importSuccess
        (fst (BlueprintSidebarEdit.handleApplyImport JSON_parse c0 h0)) = true ->
      BlueprintSidebarEdit.importError
        (fst (BlueprintSidebarEdit.handleApplyImport JSON_parse c0 h0)) = None /\
      Home.segments (snd (BlueprintSidebarEdit.handleApplyImport JSON_parse c0 h0)) <> []).
Proof.
  split; [reflexivity|]. split; [|split].
  - unfold BlueprintSidebarEdit.handleApplyImport. rewrite Htext, Hparse. reflexivity.
  - intros c0 h0. unfold BlueprintSidebarEdit.handleApplyImport.
    destruct (JSString.trim_is_empty (BlueprintSidebarEdit.importText c0)); [reflexivity|].
    destruct (JSON_parse (BlueprintSidebarEdit.importText c0)) as [parsed|]; [|reflexivity].
    destruct (BlueprintSidebarEdit.normalizeImportedSegments parsed) as [[|first others]|];
      simpl; try reflexivity. discriminate.
  - intros c0 h0. unfold BlueprintSidebarEdit.handleApplyImport.
    destruct (JSString.trim_is_empty (BlueprintSidebarEdit.importText c0)); [discriminate|].
    destruct (JSON_parse (BlueprintSidebarEdit.importText c0)) as [parsed|]; [|discriminate].
    destruct (BlueprintSidebarEdit.normalizeImportedSegments parsed) as [[|first others]|];
      simpl; try discriminate.
    intros _. split; [reflexivity | discriminate].
Qed.

(** The text [[]] pasted over the sample state. *)
Lemma empty_array_import_is_rejected_witness :
  BlueprintSidebarEdit.handleApplyImport JSON_parse_sample
    (BlueprintSidebarEdit.mkLocal "[]" None false) sampleEditing
  = (BlueprintSidebarEdit.mkLocal "[]"
       (Some "Некорректный формат данных или пустой список сегментов.") false,
     sampleEditing).
Proof.
  refine (proj1 (proj2 (empty_array_import_is_rejected JSON_parse_sample
                          (BlueprintSidebarEdit.mkLocal "[]" None false)
                          sampleEditing _ _)));
    reflexivity.
Defined.

(** * Further properties of the editor *)

(** ** Pointer coordinates *)

(** X1.  The canvas and the modal map a pointer position the same way: to no
    point exactly when the overlay has no screen matrix, and otherwise to a
    point whose two coordinates are in [0,100], whatever the pointer
    position and the box of the overlay are (a box of width zero, a
    position that is not finite). *)
Theorem pointer_position_maps_into_the_percent_square
  (lay : Layout.t) (clientX clientY : float) :
  WheelDetailModal.clientToSvgPercent lay clientX clientY =
  BlueprintImageWithSegments.clientToSvgPercent lay clientX clientY /\
  match BlueprintImageWithSegments.clientToSvgPercent lay clientX clientY with
  | None => Layout.svg lay = None
  | Some point => Layout.svg lay <> None /\ pointInRange point
  end.
Proof.
  unfold WheelDetailModal.clientToSvgPercent,
    BlueprintImageWithSegments.clientToSvgPercent.
  destruct (Layout.svg lay) as [box|]; [|split; reflexivity].
  split; [reflexivity|]. split; [discriminate|].
  split; simpl; apply clampPercent_in_range.
Qed.

(** ** Polylines under every event of the editor *)

Section PolylineEvents.

Import SidebarControls HomeCallbacks.

Lemma pointsInRange_forall (l : list Polyline.t) :
  pointsInRange l <->
  forall poly, In poly l -> Forall pointInRange (Polyline.points poly).
Proof. apply Forall_forall. Qed.

Lemma attribute_spread_keeps (poly : Polyline.t) (p : PolylinePatch.t) :
  attributePatch p ->
  Polyline.id (PolylinePatch.spread poly p) = Polyline.id poly /\
  Polyline.points (PolylinePatch.spread poly p) = Polyline.points poly.
Proof. intros [Hid Hpts]. simpl. rewrite Hid, Hpts. split; reflexivity. Qed.

Lemma updateCurrentPolyline_flags (p : PolylinePatch.t) (h : Home.State) :
  Home.activePolylineId (updateCurrentPolyline p h) = Home.activePolylineId h /\
  Home.isDrawingPolyline (updateCurrentPolyline p h) = Home.isDrawingPolyline h /\
  Home.isEditMode (updateCurrentPolyline p h) = Home.isEditMode h /\
  Home.segments (updateCurrentPolyline p h) = Home.segments h /\
  Home.selectedSegmentId (updateCurrentPolyline p h) = Home.selectedSegmentId h /\
  Home.pendingDeletePolylineId (updateCurrentPolyline p h) = Home.pendingDeletePolylineId h.
Proof.
  unfold updateCurrentPolyline.
  destruct (currentActivePolylineId h) as [current|]; [|repeat split].
  destruct (String.eqb current ""); repeat split.
Qed.

Lemma updateCurrentPolyline_pairs (p : PolylinePatch.t) (h : Home.State) :
  attributePatch p ->
  Forall2 (fun old new => Polyline.id new = Polyline.id old /\
                          Polyline.points new = Polyline.points old)
    (Home.polylines h) (Home.polylines (updateCurrentPolyline p h)).
Proof.
  intros Hp.
  assert (Hsame : forall l : list Polyline.t,
            Forall2 (fun old new => Polyline.id new = Polyline.id old /\
                                    Polyline.points new = Polyline.points old) l l).
  { induction l; constructor; auto. }
  unfold updateCurrentPolyline.
  destruct (currentActivePolylineId h) as [current|]; [|apply Hsame].
  destruct (String.eqb current ""); [apply Hsame|].
  simpl. induction (Home.polylines h) as [|poly l IH]; simpl; constructor; [|exact IH].
  destruct (String.eqb (Polyline.id poly) current); [|split; reflexivity].
  apply attribute_spread_keeps, Hp.
Qed.

Lemma pairs_keep_ids (l l' : list Polyline.t) :
  Forall2 (fun old new => Polyline.id new = Polyline.id old /\
                          Polyline.points new = Polyline.points old) l l' ->
  map Polyline.id l' = map Polyline.id l.
Proof. induction 1 as [|a b l l' [Hid _] _ IH]; simpl; congruence. Qed.

Lemma pairs_keep_range (l l' : list Polyline.t) :
  Forall2 (fun old new => Polyline.id new = Polyline.id old /\
                          Polyline.points new = Polyline.points old) l l' ->
  pointsInRange l -> pointsInRange l'.
Proof.
  induction 1 as [|a b l l' [_ Hpts] _ IH]; intros Hl; [constructor|].
  inversion Hl as [|? ? Ha Hrest]; subst.
  constructor; [rewrite Hpts; exact Ha|apply IH, Hrest].
Qed.

Lemma add_point_ids (point : PolylinePoint.t) (h : Home.State) :
  map Polyline.id (Home.polylines (Home.handleAddPolylinePointFromCanvas point h)) =
  map Polyline.id (Home.polylines h).
Proof.
  unfold Home.handleAddPolylinePointFromCanvas.
  destruct (Home.isDrawingPolyline h); [|reflexivity].
  destruct (Home.activePolylineId h) as [active|]; [|reflexivity].
  destruct (String.eqb active ""); [reflexivity|]. simpl.
  rewrite map_map. apply map_ext. intros poly.
  destruct (String.eqb (Polyline.id poly) active); reflexivity.
Qed.

Lemma add_point_flags (point : PolylinePoint.t) (h : Home.State) :
  Home.activePolylineId (Home.handleAddPolylinePointFromCanvas point h) =
    Home.activePolylineId h /\
  Home.isDrawingPolyline (Home.handleAddPolylinePointFromCanvas point h) =
    Home.isDrawingPolyline h /\
  Home.isEditMode (Home.handleAddPolylinePointFromCanvas point h) = Home.isEditMode h.
Proof.
  unfold Home.handleAddPolylinePointFromCanvas.
  destruct (Home.isDrawingPolyline h) eqn:Hd; [|rewrite Hd; repeat split].
  destruct (Home.activePolylineId h) as [active|] eqn:Ha;
    [|rewrite Hd, Ha; repeat split].
  destruct (String.eqb active ""); [rewrite Hd, Ha; repeat split|].
  simpl. repeat split; assumption.
Qed.

Lemma add_point_in_range (point : PolylinePoint.t) (h : Home.State) :
  pointInRange point -> pointsInRange (Home.polylines h) ->
  pointsInRange (Home.polylines (Home.handleAddPolylinePointFromCanvas point h)).
Proof.
  intros Hp Hh. unfold Home.handleAddPolylinePointFromCanvas.
  destruct (Home.isDrawingPolyline h); [|exact Hh].
  destruct (Home.activePolylineId h) as [active|]; [|exact Hh].
  destruct (String.eqb active ""); [exact Hh|]. simpl.
  rewrite pointsInRange_forall in *.
  intros poly Hin. apply in_map_iff in Hin. destruct Hin as (old & <- & Hin).
  destruct (String.eqb (Polyline.id old) active); [|apply Hh, Hin].
  simpl. apply Forall_app. split; [apply Hh, Hin|]. constructor; [exact Hp|constructor].
Qed.

Lemma click_point_in_range (lay : Layout.t) (event : MouseEvent.t)
  (c : BlueprintImageWithSegments.Local) (point : PolylinePoint.t) :
  previewInRange c -> capturedPoint lay event c = Some point -> pointInRange point.
Proof.
  intros Hc. unfold capturedPoint.
  destruct (BlueprintImageWithSegments.previewPoint c) as [preview|] eqn:E.
  - intros [= <-]. apply Hc, E.
  - unfold BlueprintImageWithSegments.clientToSvgPercent.
    destruct (Layout.svg lay); [|discriminate]. intros [= <-].
    split; simpl; apply clampPercent_in_range.
Qed.

Lemma canvas_click_cases (lay : Layout.t) (event : MouseEvent.t)
  (c : BlueprintImageWithSegments.Local) (h : Home.State) :
  BlueprintImageWithSegments.handleCanvasClick
    (BlueprintImageWithSegments.rendered_by_Home h) lay event c h = h \/
  exists point,
    capturedPoint lay event c = Some point /\
    BlueprintImageWithSegments.handleCanvasClick
      (BlueprintImageWithSegments.rendered_by_Home h) lay event c h =
    Home.handleAddPolylinePointFromCanvas point h.
Proof.
  unfold BlueprintImageWithSegments.handleCanvasClick,
    BlueprintImageWithSegments.rendered_by_Home, capturedPoint.
  destruct (Home.isEditMode h); simpl; [|left; reflexivity].
  destruct (Home.isDrawingPolyline h); simpl; [|left; reflexivity].
  destruct (BlueprintImageWithSegments.previewPoint c) as [preview|].
  - right. exists preview. split; reflexivity.
  - destruct (BlueprintImageWithSegments.clientToSvgPercent lay _ _) as [[x y]|];
      [|left; reflexivity].
    right. exists (PolylinePoint.mk x y). split; reflexivity.
Qed.

Lemma pointer_move_preview_in_range (lay : Layout.t) (event : MouseEvent.t)
  (c : BlueprintImageWithSegments.Local) (p : BlueprintImageWithSegments.Props) :
  previewInRange (BlueprintImageWithSegments.handleMouseMoveOnCanvas p lay event c).
Proof.
  unfold BlueprintImageWithSegments.handleMouseMoveOnCanvas, previewInRange.
  destruct (_ || _); simpl; [discriminate|].
  unfold BlueprintImageWithSegments.clientToSvgPercent.
  destruct (Layout.svg lay); simpl; [|discriminate].
  intros q [= <-]. split; simpl; apply clampPercent_in_range.
Qed.

Lemma delete_polyline_in_range (id : string) (h : Home.State) :
  pointsInRange (Home.polylines h) ->
  pointsInRange (Home.polylines (Home.handleDeletePolyline id h)).
Proof.
  intros Hh. rewrite pointsInRange_forall in *.
  intros poly Hin. simpl in Hin. apply filter_In in Hin. apply Hh, Hin.
Qed.

Lemma start_polyline_in_range (now36 : string) (h : Home.State) :
  pointsInRange (Home.polylines h) ->
  pointsInRange (Home.polylines (Home.handleStartPolyline now36 h)).
Proof.
  intros Hh. rewrite pointsInRange_forall in *.
  intros poly Hin. simpl in Hin. apply in_app_iff in Hin.
  destruct Hin as [Hin|[<-|[]]]; [apply Hh, Hin|constructor].
Qed.

Lemma toggle_polylines (h : Home.State) :
  Home.polylines (Home.handleToggleEditMode h) = Home.polylines h /\
  Home.activePolylineId (Home.handleToggleEditMode h) = Home.activePolylineId h.
Proof.
  unfold Home.handleToggleEditMode.
  destruct (Home.isEditMode h); simpl; [split; reflexivity|].
  destruct (Home.selectedSegmentId h) as [sel|], (Home.segments h) as [|first rest];
    try (split; reflexivity).
  destruct (String.eqb sel ""); split; reflexivity.
Qed.

Lemma confirm_delete_in_range (h : Home.State) :
  pointsInRange (Home.polylines h) ->
  pointsInRange (Home.polylines (Home.confirmDeletePolyline h)).
Proof.
  intros Hh. unfold Home.confirmDeletePolyline.
  destruct (Home.pendingDeletePolylineId h) as [pending|]; [|exact Hh].
  destruct (String.eqb pending ""); [exact Hh|].
  apply (delete_polyline_in_range pending h Hh).
Qed.

Lemma attribute_patches (value : string) (col : PolylineColor) (w : float)
  (d : PolylineDashStyle) :
  attributePatch (PolylinePatch.mk None (Some value) None None None None None) /\
  attributePatch (PolylinePatch.mk None None None (Some col) None None None) /\
  attributePatch (PolylinePatch.mk None None None None (Some w) None None) /\
  attributePatch (PolylinePatch.mk None None None None None (Some d) None).
Proof. repeat split. Qed.

Lemma polylineStep_keeps_points_in_range (ev : PolylineEvent)
  (h : Home.State) (c : BlueprintImageWithSegments.Local) :
  pointsInRange (Home.polylines h) -> previewInRange c ->
  pointsInRange (Home.polylines (fst (polylineStep (h, c) ev))) /\
  previewInRange (snd (polylineStep (h, c) ev)).
Proof.
  intros Hh Hc.
  assert (Hattr : forall p, attributePatch p ->
            pointsInRange (Home.polylines (updateCurrentPolyline p h))).
  { intros p Hp. apply (pairs_keep_range _ _ (updateCurrentPolyline_pairs p h Hp) Hh). }
  destruct ev as [cev| |n|value|col|entered|d| | | |]; simpl.
  - destruct cev as [now36|lay event| |lay event|]; simpl.
    + destruct (Home.isEditMode h && negb (Home.isDrawingPolyline h)); simpl;
        [|split; assumption].
      split; [apply start_polyline_in_range, Hh|exact Hc].
    + split; [exact Hh|apply pointer_move_preview_in_range].
    + split; [exact Hh|]. intros q Hq. discriminate Hq.
    + split; [|exact Hc].
      destruct (canvas_click_cases lay event c h) as [->|(point & Hcap & ->)]; [exact Hh|].
      apply add_point_in_range; [|exact Hh].
      apply (click_point_in_range lay event c point Hc Hcap).
    + destruct (Home.isEditMode h && Home.isDrawingPolyline h); simpl; split; assumption.
  - destruct (Home.isEditMode h); simpl; [|split; assumption].
    split; [|exact Hc]. constructor.
  - destruct (Home.isEditMode h); simpl; [|split; assumption].
    destruct (polylinePanelShown h); simpl; [|split; assumption].
    split; [|exact Hc]. unfold handleSelectPolylineChange.
    destruct (nth_error (Home.polylines h) n); exact Hh.
  - destruct (Home.isEditMode h); simpl; [|split; assumption].
    destruct (polylinePanelShown h); simpl; [|split; assumption].
    split; [|exact Hc]. apply Hattr, (attribute_patches value cyan 0%float solid).
  - destruct (Home.isEditMode h); simpl; [|split; assumption].
    destruct (polylinePanelShown h); simpl; [|split; assumption].
    split; [|exact Hc]. apply Hattr, (attribute_patches "" col 0%float solid).
  - destruct (Home.isEditMode h); simpl; [|split; assumption].
    destruct (polylinePanelShown h); simpl; [|split; assumption].
    split; [|exact Hc]. apply Hattr. split; reflexivity.
  - destruct (Home.isEditMode h); simpl; [|split; assumption].
    destruct (polylinePanelShown h); simpl; [|split; assumption].
    split; [|exact Hc]. apply Hattr, (attribute_patches "" cyan 0%float d).
  - destruct (Home.isEditMode h); simpl; [|split; assumption].
    destruct (polylinePanelShown h); simpl; [|split; assumption].
    split; [|exact Hc]. unfold handleDeletePolylineClick.
    destruct (match currentActivePolylineId h with Some _ => _ | None => _ end) as [id|];
      [|exact Hh].
    destruct (String.eqb id ""); exact Hh.
  - destruct (confirmDialogOpen h); simpl; [|split; assumption].
    split; [apply confirm_delete_in_range, Hh|exact Hc].
  - destruct (confirmDialogOpen h); simpl; split; assumption.
  - split; [|intros q Hq; discriminate Hq].
    change (pointsInRange (Home.polylines (Home.handleToggleEditMode h))).
    rewrite (proj1 (toggle_polylines h)). exact Hh.
Qed.

Lemma id_survives_filter (id a : string) (l : list Polyline.t) :
  In a (map Polyline.id l) -> String.eqb a id = false ->
  In a (map Polyline.id (filter (fun p => negb (String.eqb (Polyline.id p) id)) l)).
Proof.
  intros Hin Hne. apply in_map_iff in Hin. destruct Hin as (p & <- & Hin).
  apply in_map. apply filter_In. split; [exact Hin|]. rewrite Hne. reflexivity.
Qed.

Lemma delete_polyline_active_valid (id : string) (h : Home.State) :
  activeValid h -> activeValid (Home.handleDeletePolyline id h).
Proof.
  unfold activeValid. intros Hh. simpl.
  destruct (Home.activePolylineId h) as [a|] eqn:Ha; simpl.
  - destruct (String.eqb a id) eqn:E.
    + destruct (filter _ (Home.polylines h)) as [|first rest]; simpl;
        [reflexivity|left; reflexivity].
    + apply id_survives_filter; assumption.
  - exact Hh.
Qed.

Lemma confirm_delete_active_valid (h : Home.State) :
  activeValid h -> activeValid (Home.confirmDeletePolyline h).
Proof.
  intros Hh. unfold Home.confirmDeletePolyline.
  destruct (Home.pendingDeletePolylineId h) as [pending|]; [|exact Hh].
  destruct (String.eqb pending ""); [exact Hh|].
  apply (delete_polyline_active_valid pending h Hh).
Qed.

Lemma update_current_active_valid (p : PolylinePatch.t) (h : Home.State) :
  attributePatch p -> activeValid h -> activeValid (updateCurrentPolyline p h).
Proof.
  intros Hp. unfold activeValid.
  destruct (updateCurrentPolyline_flags p h) as (-> & -> & _).
  rewrite (pairs_keep_ids _ _ (updateCurrentPolyline_pairs p h Hp)). auto.
Qed.

Lemma add_point_active_valid (point : PolylinePoint.t) (h : Home.State) :
  activeValid h -> activeValid (Home.handleAddPolylinePointFromCanvas point h).
Proof.
  unfold activeValid.
  destruct (add_point_flags point h) as (-> & -> & _).
  rewrite add_point_ids. auto.
Qed.

Lemma toggle_active_valid (h : Home.State) :
  activeValid h -> activeValid (Home.handleToggleEditMode h).
Proof.
  unfold activeValid. destruct (toggle_polylines h) as [-> ->].
  destruct (Home.activePolylineId h); [auto|].
  intros Hd. unfold Home.handleToggleEditMode.
  destruct (Home.isEditMode h); simpl; [reflexivity|].
  destruct (Home.selectedSegmentId h) as [sel|], (Home.segments h) as [|first rest];
    try exact Hd.
  destruct (String.eqb sel ""); exact Hd.
Qed.

Lemma polylineStep_keeps_active_valid (ev : PolylineEvent)
  (h : Home.State) (c : BlueprintImageWithSegments.Local) :
  activeValid h -> activeValid (fst (polylineStep (h, c) ev)).
Proof.
  intros Hh.
  assert (Hattr : forall p, attributePatch p -> activeValid (updateCurrentPolyline p h)).
  { intros p Hp. apply update_current_active_valid; assumption. }
  destruct ev as [cev| |n|value|col|entered|d| | | |]; simpl.
  - destruct cev as [now36|lay event| |lay event|]; simpl; try exact Hh.
    + destruct (Home.isEditMode h && negb (Home.isDrawingPolyline h)); simpl; [|exact Hh].
      unfold activeValid. simpl. rewrite map_app. apply in_or_app. right. left. reflexivity.
    + destruct (canvas_click_cases lay event c h) as [->|(point & _ & ->)]; [exact Hh|].
      apply add_point_active_valid, Hh.
    + destruct (Home.isEditMode h && Home.isDrawingPolyline h); simpl; [|exact Hh].
      unfold activeValid in *. simpl.
      destruct (Home.activePolylineId h); [exact Hh|reflexivity].
  - destruct (Home.isEditMode h); simpl; [|exact Hh]. reflexivity.
  - destruct (Home.isEditMode h); simpl; [|exact Hh].
    destruct (polylinePanelShown h); simpl; [|exact Hh].
    unfold handleSelectPolylineChange.
    destruct (nth_error (Home.polylines h) n) as [polyline|] eqn:E; [|exact Hh].
    unfold activeValid. simpl. apply in_map. apply (nth_error_In _ _ E).
  - destruct (Home.isEditMode h); simpl; [|exact Hh].
    destruct (polylinePanelShown h); simpl; [|exact Hh].
    apply Hattr. split; reflexivity.
  - destruct (Home.isEditMode h); simpl; [|exact Hh].
    destruct (polylinePanelShown h); simpl; [|exact Hh].
    apply Hattr. split; reflexivity.
  - destruct (Home.isEditMode h); simpl; [|exact Hh].
    destruct (polylinePanelShown h); simpl; [|exact Hh].
    apply Hattr. split; reflexivity.
  - destruct (Home.isEditMode h); simpl; [|exact Hh].
    destruct (polylinePanelShown h); simpl; [|exact Hh].
    apply Hattr. split; reflexivity.
  - destruct (Home.isEditMode h); simpl; [|exact Hh].
    destruct (polylinePanelShown h); simpl; [|exact Hh].
    unfold handleDeletePolylineClick.
    destruct (match currentActivePolylineId h with Some _ => _ | None => _ end) as [id|];
      [|exact Hh].
    destruct (String.eqb id ""); exact Hh.
  - destruct (confirmDialogOpen h); simpl; [|exact Hh].
    apply confirm_delete_active_valid, Hh.
  - destruct (confirmDialogOpen h); simpl; exact Hh.
  - apply toggle_active_valid, Hh.
Qed.

End PolylineEvents.

(** X2.  Every point a polyline holds stays in [0,100] on both axes, whatever
    the user does to polylines: starting, drawing (pointer moves, clicks,
    the pointer leaving), finishing, clearing, selecting, the style
    controls, deleting with its confirmation, and switching the mode.  It
    holds from any store whose points are in range and a canvas whose
    tracked point is. *)
Theorem committed_points_stay_in_the_percent_square
  (events : list PolylineEvent) (h : Home.State)
  (c : BlueprintImageWithSegments.Local)
  (Hstore : pointsInRange (Home.polylines h))
  (Hpreview : previewInRange c) :
  pointsInRange (Home.polylines (fst (polylineRun events (h, c)))).
Proof.
  unfold polylineRun. revert h c Hstore Hpreview.
  induction events as [|ev events IH]; intros h c Hstore Hpreview; [exact Hstore|].
  cbn [fold_left].
  destruct (polylineStep_keeps_points_in_range ev h c Hstore Hpreview) as [H1 H2].
  destruct (polylineStep (h, c) ev) as [h1 c1]. apply IH; assumption.
Qed.

Lemma committed_points_stay_in_the_percent_square_witness :
  pointsInRange
    (Home.polylines
       (fst (polylineRun
               [ PvCanvas (StartPolyline "a");
                 PvCanvas (PointerMove sampleLayout (MouseEvent.mk 2000 (-50)));
                 PvCanvas (Click sampleLayout (MouseEvent.mk 2000 (-50)));
                 PvStrokeWidth 1; PvCanvas FinishPolyline ]
               (sampleEditing, BlueprintImageWithSegments.mounted)))).
Proof.
  apply committed_points_stay_in_the_percent_square.
  - constructor.
  - intros q Hq. discriminate Hq.
Defined.

(** X3.  The active polyline is always null or one of the collection, and a
    line is being drawn only while there is an active polyline, whatever
    the user does to polylines (the same events as above). *)
Theorem active_polyline_never_dangles
  (events : list PolylineEvent) (h : Home.State)
  (c : BlueprintImageWithSegments.Local)
  (Hactive : activeValid h) :
  activeValid (fst (polylineRun events (h, c))).
Proof.
  unfold polylineRun. revert h c Hactive.
  induction events as [|ev events IH]; intros h c Hactive; [exact Hactive|].
  cbn [fold_left].
  pose proof (polylineStep_keeps_active_valid ev h c Hactive) as H1.
  destruct (polylineStep (h, c) ev) as [h1 c1]. apply IH; assumption.
Qed.

Lemma active_polyline_never_dangles_witness :
  activeValid
    (fst (polylineRun
            [ PvCanvas (StartPolyline "a"); PvCanvas FinishPolyline;
              PvCanvas (StartPolyline "b"); PvDeleteClick; PvConfirmDelete ]
            (sampleEditing, BlueprintImageWithSegments.mounted))).
Proof.
  apply active_polyline_never_dangles. reflexivity.
Defined.

(** ** Segments under every event of the editor *)

Section SegmentEvents.

Import BlueprintSidebarEdit SidebarControls HomeCallbacks.

Lemma all_in_range_by_id (h : Home.State) :
  Forall geometryInRange (Home.segments h) <-> forall id, rangeHoldsFor id h.
Proof.
  rewrite Forall_forall. unfold rangeHoldsFor. split.
  - intros H id s Hin _. apply H, Hin.
  - intros H s Hin. apply (H (Segment.id s) s Hin eq_refl).
Qed.

Lemma update_keeps_all_in_range (target : string) (p : SegmentPatch.t) (h : Home.State) :
  clampedPatch p -> Forall geometryInRange (Home.segments h) ->
  Forall geometryInRange (Home.segments (Home.handleUpdateSegment target p h)).
Proof.
  intros Hp Hh. apply all_in_range_by_id. intros id.
  apply handleUpdateSegment_keeps_range; [exact Hp|].
  apply all_in_range_by_id. exact Hh.
Qed.

Lemma update_keeps_ids (target : string) (p : SegmentPatch.t) (h : Home.State) :
  SegmentPatch.id p = None ->
  map Segment.id (Home.segments (Home.handleUpdateSegment target p h)) =
  map Segment.id (Home.segments h).
Proof.
  intros Hp. simpl. rewrite map_map. apply map_ext. intros s.
  destruct (String.eqb (Segment.id s) target); [|reflexivity].
  apply spread_keeps_id, Hp.
Qed.

Lemma textPatch_clamped (field : TextField) (value : string) :
  clampedPatch (textPatch field value).
Proof. destruct field; repeat split; simpl; discriminate. Qed.

Lemma colorPatch_clamped (c : SegmentColor) :
  clampedPatch (SegmentPatch.mk None None None None None None None None (Some c)).
Proof. repeat split; simpl; discriminate. Qed.

Lemma safeNumber_in_range (value : JSValue.Access) (fallback : float) :
  inPercentRange fallback = true -> inPercentRange (safeNumber value fallback) = true.
Proof.
  intros Hf. unfold safeNumber.
  destruct value as [| |[| |n| | |]]; try exact Hf.
  destruct (JS.Number_isFinite n); [apply clampPercent_in_range|exact Hf].
Qed.

Lemma segmentOfItem_well_formed (item : JSON) (seg : Segment.t) :
  segmentOfItem item = Some seg -> wellFormedSegment seg.
Proof.
  unfold segmentOfItem.
  destruct (negb (JSValue.truthy item) || negb (JSValue.typeof_is_object item));
    [discriminate|].
  destruct (JSValue.get item "id") as [| |[| | |id| |]]; try discriminate.
  destruct (JSString.trim_is_empty id) eqn:T; [discriminate|].
  intros [= <-]. split; [exact T|].
  intros field. destruct field; simpl; apply safeNumber_in_range; reflexivity.
Qed.

Lemma normalized_well_formed (raw : JSON) (segs : list Segment.t) :
  normalizeImportedSegments raw = Some segs -> Forall wellFormedSegment segs.
Proof.
  destruct raw as [| | | |items|]; try discriminate. simpl. intros H.
  destruct (normalizeLoop_accepts _ _ _ H) as (segs' & -> & HF). simpl.
  clear H. induction HF as [|item seg items segs' Hitem _ IH]; constructor; auto.
  apply (segmentOfItem_well_formed item seg Hitem).
Qed.

Lemma well_formed_in_range (segs : list Segment.t) :
  Forall wellFormedSegment segs -> Forall geometryInRange segs.
Proof. apply Forall_impl. intros s [_ H]. exact H. Qed.

Lemma apply_import_cases (JSON_parse : string -> option JSON) (c : Local) (h : Home.State) :
  (importSuccess (fst (handleApplyImport JSON_parse c h)) = false /\
   snd (handleApplyImport JSON_parse c h) = h) \/
  exists parsed segs,
    JSON_parse (importText c) = Some parsed /\
    normalizeImportedSegments parsed = Some segs /\
    segs <> [] /\
    handleApplyImport JSON_parse c h =
    (mkLocal (importText c) None true, Home.handleImportSegments segs h).
Proof.
  unfold handleApplyImport.
  destruct (JSString.trim_is_empty (importText c)); [left; split; reflexivity|].
  destruct (JSON_parse (importText c)) as [parsed|]; [|left; split; reflexivity].
  destruct (normalizeImportedSegments parsed) as [[|first others]|] eqn:E;
    try (left; split; reflexivity).
  right. exists parsed, (first :: others). repeat split; auto. discriminate.
Qed.

Lemma first_id_in (segs : list Segment.t) (sel : string) :
  option_map Segment.id (hd_error segs) = Some sel -> In sel (map Segment.id segs).
Proof. destruct segs as [|first rest]; simpl; [discriminate|]. intros [= <-]. auto. Qed.

Lemma import_selection_valid (segs : list Segment.t) (h : Home.State) :
  selectionValid (Home.handleImportSegments segs h).
Proof.
  unfold selectionValid. simpl.
  destruct (option_map Segment.id (hd_error segs)) as [sel|] eqn:E; [|exact I].
  apply first_id_in, E.
Qed.

Lemma segment_id_survives_filter (id a : string) (l : list Segment.t) :
  In a (map Segment.id l) -> String.eqb a id = false ->
  In a (map Segment.id (filter (fun s => negb (String.eqb (Segment.id s) id)) l)).
Proof.
  intros Hin Hne. apply in_map_iff in Hin. destruct Hin as (s & <- & Hin).
  apply in_map. apply filter_In. split; [exact Hin|]. rewrite Hne. reflexivity.
Qed.

Lemma delete_segment_selection_valid (id : string) (h : Home.State) :
  selectionValid h -> selectionValid (Home.handleDeleteSegment id h).
Proof.
  unfold selectionValid. intros Hh. simpl.
  destruct (Home.selectedSegmentId h) as [sel|]; simpl; [|exact I].
  destruct (String.eqb sel id) eqn:E.
  - destruct (option_map Segment.id (hd_error _)) as [first|] eqn:F; [|exact I].
    apply first_id_in, F.
  - apply segment_id_survives_filter; assumption.
Qed.

Lemma update_selection_valid (target : string) (p : SegmentPatch.t) (h : Home.State) :
  SegmentPatch.id p = None -> selectionValid h ->
  selectionValid (Home.handleUpdateSegment target p h).
Proof.
  intros Hp Hh. unfold selectionValid.
  rewrite (update_keeps_ids target p h Hp). exact Hh.
Qed.

Lemma toggle_segments (h : Home.State) :
  Home.segments (Home.handleToggleEditMode h) = Home.segments h.
Proof.
  unfold Home.handleToggleEditMode.
  destruct h as [segs polys hov sel z e tp w d a p]. simpl.
  destruct e; simpl; [reflexivity|].
  destruct sel as [sel|], segs as [|first rest]; try reflexivity.
  destruct (String.eqb sel ""); reflexivity.
Qed.

Lemma toggle_selection_valid (h : Home.State) :
  selectionValid h -> selectionValid (Home.handleToggleEditMode h).
Proof.
  unfold selectionValid. rewrite toggle_segments.
  unfold Home.handleToggleEditMode.
  destruct h as [segs polys hov sel z e tp w d a p]. simpl.
  destruct e; simpl; [auto|].
  destruct sel as [sel|], segs as [|first rest]; simpl; auto.
  destruct (String.eqb sel ""); simpl; auto.
Qed.

(** One [mousemove] of a drag on the state it finds. *)
Lemma drag_move_cases (lay : Layout.t) (event : MouseEvent.t)
  (c : BlueprintImageWithSegments.Local) (h : Home.State) :
  BlueprintImageWithSegments.handleMouseMove
    (BlueprintImageWithSegments.rendered_by_Home h) lay event c h = h \/
  exists drag top left,
    BlueprintImageWithSegments.dragState c = Some drag /\
    Home.isEditMode h = true /\
    BlueprintImageWithSegments.handleMouseMove
      (BlueprintImageWithSegments.rendered_by_Home h) lay event c h =
    Home.handleSegmentPositionChange (BlueprintImageWithSegments.drag_id drag)
      (BlueprintImageWithSegments.clampPercent top)
      (BlueprintImageWithSegments.clampPercent left) h.
Proof.
  unfold BlueprintImageWithSegments.handleMouseMove,
    BlueprintImageWithSegments.rendered_by_Home.
  destruct (BlueprintImageWithSegments.dragState c) as [drag|]; [|left; reflexivity].
  destruct (Home.isEditMode h); simpl; [|left; reflexivity].
  destruct (Layout.img lay) as [rect|]; [|left; reflexivity].
  right. eexists drag, _, _. repeat split.
Qed.

Lemma mouse_down_drag (lay : Layout.t) (grab : MouseEvent.t) (segment : Segment.t)
  (h : Home.State) (drag : BlueprintImageWithSegments.DragState) :
  BlueprintImageWithSegments.dragState
    (BlueprintImageWithSegments.handleMouseDown
       (BlueprintImageWithSegments.rendered_by_Home h) lay grab segment
       BlueprintImageWithSegments.mounted) = Some drag ->
  BlueprintImageWithSegments.drag_id drag = Segment.id segment /\
  Home.isEditMode h = true.
Proof.
  unfold BlueprintImageWithSegments.handleMouseDown,
    BlueprintImageWithSegments.rendered_by_Home.
  destruct (Home.isEditMode h); simpl; [|discriminate].
  destruct (Layout.svg lay) as [box|] eqn:E; simpl; [|discriminate].
  unfold BlueprintImageWithSegments.clientToSvgPercent. rewrite E. simpl.
  intros [= <-]. split; reflexivity.
Qed.

Lemma position_change_moves_only (id : string) (top left : float) (h : Home.State) :
  Forall2 (fun old new => movedOnly old new /\ (Segment.id old <> id -> new = old))
    (Home.segments h) (Home.segments (Home.handleSegmentPositionChange id top left h)).
Proof.
  simpl. induction (Home.segments h) as [|s l IH]; simpl; constructor; [|exact IH].
  destruct (String.eqb (Segment.id s) id) eqn:E.
  - split; [repeat split|]. intros Hne. apply String.eqb_eq in E. contradiction.
  - split; [repeat split|reflexivity].
Qed.

Lemma moves_compose (id : string) (l1 l2 l3 : list Segment.t) :
  Forall2 (fun old new => movedOnly old new /\ (Segment.id old <> id -> new = old)) l1 l2 ->
  Forall2 (fun old new => movedOnly old new /\ (Segment.id old <> id -> new = old)) l2 l3 ->
  Forall2 (fun old new => movedOnly old new /\ (Segment.id old <> id -> new = old)) l1 l3.
Proof.
  intros H12. revert l3. induction H12 as [|a b l1 l2 [Hab Hne] _ IH]; intros l3 H23;
    inversion H23 as [|b' c l2' l3' [Hbc Hne'] H23']; subst; constructor; auto.
  destruct Hab as (A1 & A2 & A3 & A4 & A5 & A6 & A7).
  destruct Hbc as (B1 & B2 & B3 & B4 & B5 & B6 & B7).
  split; [repeat split; congruence|].
  intros Hid. rewrite Hne' by congruence. apply Hne, Hid.
Qed.

Lemma moves_refl (id : string) (l : list Segment.t) :
  Forall2 (fun old new => movedOnly old new /\ (Segment.id old <> id -> new = old)) l l.
Proof. induction l; constructor; auto. split; [repeat split|reflexivity]. Qed.

Lemma moves_keep_ids (id : string) (l l' : list Segment.t) :
  Forall2 (fun old new => movedOnly old new /\ (Segment.id old <> id -> new = old)) l l' ->
  map Segment.id l' = map Segment.id l.
Proof. induction 1 as [|a b l l' [[Hid _] _] _ IH]; simpl; congruence. Qed.

(** The moves of a drag on the segment [id], folded from [h]. *)
Lemma drag_moves_frame (c : BlueprintImageWithSegments.Local) (id : string)
  (moves : list (Layout.t * MouseEvent.t)) :
  (forall drag, BlueprintImageWithSegments.dragState c = Some drag ->
                BlueprintImageWithSegments.drag_id drag = id) ->
  forall h,
    let h' :=
      fold_left
        (fun h0 (m : Layout.t * MouseEvent.t) =>
           BlueprintImageWithSegments.handleMouseMove
             (BlueprintImageWithSegments.rendered_by_Home h0) (fst m) (snd m) c h0)
        moves h in
    Forall2 (fun old new => movedOnly old new /\ (Segment.id old <> id -> new = old))
      (Home.segments h) (Home.segments h') /\
    polylineSideUnchanged h h' /\
    Home.hoveredSegmentId h' = Home.hoveredSegmentId h /\
    (Home.selectedSegmentId h' = Home.selectedSegmentId h \/
     Home.selectedSegmentId h' = Some id /\ Home.isEditMode h = true) /\
    (Forall geometryInRange (Home.segments h) -> Forall geometryInRange (Home.segments h')).
Proof.
  intros Hc. induction moves as [|m moves IH]; intros h; cbn [fold_left].
  - split; [apply moves_refl|]. split; [repeat split|]. auto.
  - destruct (drag_move_cases (fst m) (snd m) c h) as [->|(drag & top & left & Hd & He & ->)];
      [apply IH|].
    specialize (IH (Home.handleSegmentPositionChange
                      (BlueprintImageWithSegments.drag_id drag)
                      (BlueprintImageWithSegments.clampPercent top)
                      (BlueprintImageWithSegments.clampPercent left) h)).
    cbv zeta in IH. destruct IH as (Hsegs & Hpoly & Hhov & Hsel & Hrange).
    rewrite (Hc drag Hd) in *.
    split; [|split; [|split; [|split]]].
    + eapply moves_compose; [apply position_change_moves_only|exact Hsegs].
    + exact Hpoly.
    + exact Hhov.
    + right. split; [|exact He]. destruct Hsel as [->|[-> _]]; reflexivity.
    + intros Hh. apply Hrange.
      apply (update_keeps_all_in_range id _ h (positionPatch_clamped top left) Hh).
Qed.

Lemma drag_session_frame (lay : Layout.t) (grab : MouseEvent.t) (segment : Segment.t)
  (moves : list (Layout.t * MouseEvent.t)) (h : Home.State) :
  let h' := fst (dragSession lay grab segment moves h) in
  Forall2 (fun old new => movedOnly old new /\
                          (Segment.id old <> Segment.id segment -> new = old))
    (Home.segments h) (Home.segments h') /\
  polylineSideUnchanged h h' /\
  Home.hoveredSegmentId h' = Home.hoveredSegmentId h /\
  (Home.selectedSegmentId h' = Home.selectedSegmentId h \/
   Home.selectedSegmentId h' = Some (Segment.id segment) /\ Home.isEditMode h = true) /\
  (Forall geometryInRange (Home.segments h) -> Forall geometryInRange (Home.segments h')).
Proof.
  unfold dragSession. cbn [fst]. apply drag_moves_frame.
  intros drag Hd. apply (mouse_down_drag lay grab segment h drag Hd).
Qed.

Lemma position_change_keeps_range (id : string) (top left : float) (h : Home.State) :
  Forall geometryInRange (Home.segments h) ->
  Forall geometryInRange
    (Home.segments
       (Home.handleSegmentPositionChange id
          (BlueprintImageWithSegments.clampPercent top)
          (BlueprintImageWithSegments.clampPercent left) h)).
Proof.
  intros Hh.
  apply (update_keeps_all_in_range id _ h (positionPatch_clamped top left) Hh).
Qed.

Lemma position_change_keeps_ids (id : string) (top left : float) (h : Home.State) :
  map Segment.id (Home.segments (Home.handleSegmentPositionChange id top left h)) =
  map Segment.id (Home.segments h).
Proof.
  apply (moves_keep_ids id), position_change_moves_only.
Qed.

(** A [mousedown] on a box either leaves the canvas as it is or holds
    that box. *)
Lemma mouse_down_cases (lay : Layout.t) (grab : MouseEvent.t) (segment : Segment.t)
  (h : Home.State) (c : BlueprintImageWithSegments.Local) :
  BlueprintImageWithSegments.handleMouseDown
    (BlueprintImageWithSegments.rendered_by_Home h) lay grab segment c = c \/
  exists dx dy,
    BlueprintImageWithSegments.handleMouseDown
      (BlueprintImageWithSegments.rendered_by_Home h) lay grab segment c =
    BlueprintImageWithSegments.mkLocal
      (Some (BlueprintImageWithSegments.mkDrag (Segment.id segment) dx dy))
      (BlueprintImageWithSegments.previewPoint c).
Proof.
  unfold BlueprintImageWithSegments.handleMouseDown,
    BlueprintImageWithSegments.rendered_by_Home.
  destruct (Home.isEditMode h); simpl; [|left; reflexivity].
  destruct (Layout.svg lay) as [box|] eqn:E; simpl; [|left; reflexivity].
  unfold BlueprintImageWithSegments.clientToSvgPercent. rewrite E. simpl.
  right. eexists _, _. reflexivity.
Qed.

Lemma editorStep_keeps_range (JSON_parse : string -> option JSON)
  (ev : EditorEvent) (st : Home.State * BlueprintImageWithSegments.Local) :
  Forall geometryInRange (Home.segments (fst st)) ->
  Forall geometryInRange (Home.segments (fst (editorStep JSON_parse st ev))).
Proof.
  destruct st as [h c]. cbn [fst]. intros Hh.
  destruct ev as [now36| |n|field entered|field value|col|n lay grab|lay event| |text| |];
    cbn [editorStep].
  - destruct (Home.isEditMode h); [|exact Hh]. simpl. apply Forall_app. split; [exact Hh|].
    constructor; [|constructor]. intros field. destruct field; reflexivity.
  - destruct (Home.isEditMode h); [|exact Hh]. cbn [fst]. unfold handleDeleteSegmentClick.
    destruct (selected h) as [sel|]; [|exact Hh].
    simpl. apply Forall_forall. intros s Hin. apply filter_In in Hin.
    rewrite Forall_forall in Hh. apply Hh, Hin.
  - destruct (Home.isEditMode h); [|exact Hh]. cbn [fst]. unfold handleSelectSegmentClick.
    destruct (nth_error (Home.segments h) n); exact Hh.
  - destruct (Home.isEditMode h); [|exact Hh]. cbn [fst]. unfold handleGeometryChange.
    destruct (selected h) as [sel|]; [|exact Hh].
    apply update_keeps_all_in_range; [apply geometryPatch_clamped|exact Hh].
  - destruct (Home.isEditMode h); [|exact Hh]. cbn [fst]. unfold handleTextChange.
    destruct (selected h) as [sel|]; [|exact Hh].
    apply update_keeps_all_in_range; [apply textPatch_clamped|exact Hh].
  - destruct (Home.isEditMode h); [|exact Hh]. cbn [fst]. unfold handleColorChange.
    destruct (selected h) as [sel|]; [|exact Hh].
    apply update_keeps_all_in_range; [apply colorPatch_clamped|exact Hh].
  - destruct (nth_error (Home.segments h) n); exact Hh.
  - cbn [fst].
    destruct (drag_move_cases lay event c h) as [->|(drag & top & left & _ & _ & ->)];
      [exact Hh|].
    apply position_change_keeps_range, Hh.
  - destruct (BlueprintImageWithSegments.dragState c); [|exact Hh].
    destruct (BlueprintImageWithSegments.onSegmentPositionChange _); exact Hh.
  - destruct (Home.isEditMode h); [|exact Hh]. cbn [fst].
    destruct (apply_import_cases JSON_parse (mkLocal text None false) h)
      as [[_ ->]|(parsed & segs & _ & Hnorm & _ & ->)]; [exact Hh|].
    cbn [snd]. simpl. apply well_formed_in_range, (normalized_well_formed parsed), Hnorm.
  - destruct (Home.isEditMode h); [|exact Hh]. simpl.
    repeat constructor; intros field; destruct field; reflexivity.
  - cbn [fst]. rewrite toggle_segments. exact Hh.
Qed.

Lemma well_formed_split (l : list Segment.t) :
  Forall wellFormedSegment l <->
  Forall geometryInRange l /\
  Forall (fun id => JSString.trim_is_empty id = false) (map Segment.id l).
Proof.
  unfold wellFormedSegment. rewrite Forall_map. split.
  - intros H. split; eapply Forall_impl; try exact H; intros s [? ?]; assumption.
  - intros [Hg Hi]. rewrite Forall_forall in *. intros s Hin. split; auto.
Qed.

Lemma editorStep_keeps_ids_importable (JSON_parse : string -> option JSON)
  (ev : EditorEvent) (st : Home.State * BlueprintImageWithSegments.Local) :
  Forall (fun id => JSString.trim_is_empty id = false)
    (map Segment.id (Home.segments (fst st))) ->
  Forall (fun id => JSString.trim_is_empty id = false)
    (map Segment.id (Home.segments (fst (editorStep JSON_parse st ev)))).
Proof.
  destruct st as [h c]. cbn [fst]. intros Hh.
  destruct ev as [now36| |n|field entered|field value|col|n lay grab|lay event| |text| |];
    cbn [editorStep].
  - destruct (Home.isEditMode h); [|exact Hh]. simpl. rewrite map_app.
    apply Forall_app. split; [exact Hh|]. constructor; [reflexivity|constructor].
  - destruct (Home.isEditMode h); [|exact Hh]. cbn [fst]. unfold handleDeleteSegmentClick.
    destruct (selected h) as [sel|]; [|exact Hh]. simpl.
    rewrite Forall_map in *. rewrite Forall_forall in *.
    intros s Hin. apply filter_In in Hin. apply Hh, Hin.
  - destruct (Home.isEditMode h); [|exact Hh]. cbn [fst]. unfold handleSelectSegmentClick.
    destruct (nth_error (Home.segments h) n); exact Hh.
  - destruct (Home.isEditMode h); [|exact Hh]. cbn [fst]. unfold handleGeometryChange.
    destruct (selected h) as [sel|]; [|exact Hh].
    rewrite update_keeps_ids; [exact Hh|destruct field; reflexivity].
  - destruct (Home.isEditMode h); [|exact Hh]. cbn [fst]. unfold handleTextChange.
    destruct (selected h) as [sel|]; [|exact Hh].
    rewrite update_keeps_ids; [exact Hh|destruct field; reflexivity].
  - destruct (Home.isEditMode h); [|exact Hh]. cbn [fst]. unfold handleColorChange.
    destruct (selected h) as [sel|]; [|exact Hh].
    rewrite update_keeps_ids; [exact Hh|reflexivity].
  - destruct (nth_error (Home.segments h) n); exact Hh.
  - cbn [fst].
    destruct (drag_move_cases lay event c h) as [->|(drag & top & left & _ & _ & ->)];
      [exact Hh|].
    rewrite position_change_keeps_ids. exact Hh.
  - destruct (BlueprintImageWithSegments.dragState c); [|exact Hh].
    destruct (BlueprintImageWithSegments.onSegmentPositionChange _); exact Hh.
  - destruct (Home.isEditMode h); [|exact Hh]. cbn [fst].
    destruct (apply_import_cases JSON_parse (mkLocal text None false) h)
      as [[_ ->]|(parsed & segs & _ & Hnorm & _ & ->)]; [exact Hh|].
    cbn [snd]. simpl.
    apply (proj1 (well_formed_split segs)), (normalized_well_formed parsed), Hnorm.
  - destruct (Home.isEditMode h); [|exact Hh]. simpl. repeat constructor.
  - cbn [fst]. rewrite toggle_segments. exact Hh.
Qed.

Lemma drag_target_none (h : Home.State) (c : BlueprintImageWithSegments.Local) :
  BlueprintImageWithSegments.dragState c = None -> dragTargetValid (h, c).
Proof. intros Hc. unfold dragTargetValid. cbn [fst snd]. rewrite Hc. exact I. Qed.

Lemma drag_target_kept (h h' : Home.State) (c : BlueprintImageWithSegments.Local) :
  (forall id, In id (map Segment.id (Home.segments h)) ->
              In id (map Segment.id (Home.segments h'))) ->
  dragTargetValid (h, c) -> dragTargetValid (h', c).
Proof.
  intros Hids. unfold dragTargetValid. cbn [fst snd].
  destruct (BlueprintImageWithSegments.dragState c) as [drag|]; [apply Hids|auto].
Qed.

Lemma drag_target_same_ids (h h' : Home.State) (c : BlueprintImageWithSegments.Local) :
  map Segment.id (Home.segments h') = map Segment.id (Home.segments h) ->
  dragTargetValid (h, c) -> dragTargetValid (h', c).
Proof. intros E. apply drag_target_kept. intros id. rewrite E. auto. Qed.

(** One event of the editor keeps the selection and the held box among
    the segments, when it is not a removal during a drag. *)
Lemma editorStep_keeps_selection (JSON_parse : string -> option JSON)
  (ev : EditorEvent) (h : Home.State) (c : BlueprintImageWithSegments.Local) :
  BlueprintImageWithSegments.dragState c = None \/ removesSegments ev = false ->
  selectionValid h -> dragTargetValid (h, c) ->
  selectionValid (fst (editorStep JSON_parse (h, c) ev)) /\
  dragTargetValid (editorStep JSON_parse (h, c) ev).
Proof.
  intros Htimed Hsel Hdrag.
  destruct ev as [now36| |n|field entered|field value|col|n lay grab|lay event| |text| |];
    cbn [editorStep].
  - destruct (Home.isEditMode h); [|auto]. cbn [fst]. split.
    + unfold selectionValid. simpl. rewrite map_app. apply in_or_app.
      right. left. reflexivity.
    + revert Hdrag. apply drag_target_kept. intros id Hin. simpl.
      rewrite map_app. apply in_or_app. left. exact Hin.
  - destruct Htimed as [Hnone|Hno]; [|discriminate Hno].
    destruct (Home.isEditMode h); [|auto]. cbn [fst].
    split; [|apply drag_target_none, Hnone].
    unfold handleDeleteSegmentClick.
    destruct (selected h) as [sel|]; [|exact Hsel].
    apply delete_segment_selection_valid, Hsel.
  - destruct (Home.isEditMode h); [|auto]. cbn [fst]. unfold handleSelectSegmentClick.
    destruct (nth_error (Home.segments h) n) as [segment|] eqn:E; [|auto].
    split; [|exact Hdrag].
    unfold selectionValid. simpl. apply in_map, (nth_error_In _ _ E).
  - destruct (Home.isEditMode h); [|auto]. cbn [fst]. unfold handleGeometryChange.
    destruct (selected h) as [sel|]; [|auto].
    split; [apply update_selection_valid; [destruct field; reflexivity|assumption]|].
    revert Hdrag. apply drag_target_same_ids, update_keeps_ids.
    destruct field; reflexivity.
  - destruct (Home.isEditMode h); [|auto]. cbn [fst]. unfold handleTextChange.
    destruct (selected h) as [sel|]; [|auto].
    split; [apply update_selection_valid; [destruct field; reflexivity|assumption]|].
    revert Hdrag. apply drag_target_same_ids, update_keeps_ids.
    destruct field; reflexivity.
  - destruct (Home.isEditMode h); [|auto]. cbn [fst]. unfold handleColorChange.
    destruct (selected h) as [sel|]; [|auto].
    split; [apply update_selection_valid; [reflexivity|assumption]|].
    revert Hdrag. apply drag_target_same_ids, update_keeps_ids. reflexivity.
  - destruct (nth_error (Home.segments h) n) as [segment|] eqn:E; [|auto].
    cbn [fst]. split; [exact Hsel|].
    destruct (mouse_down_cases lay grab segment h c) as [->|(dx & dy & ->)];
      [exact Hdrag|].
    unfold dragTargetValid. cbn. apply in_map, (nth_error_In _ _ E).
  - cbn [fst].
    destruct (drag_move_cases lay event c h) as [->|(drag & top & left & Hd & _ & ->)];
      [auto|].
    assert (Hin : In (BlueprintImageWithSegments.drag_id drag)
                     (map Segment.id (Home.segments h))).
    { unfold dragTargetValid in Hdrag. cbn [fst snd] in Hdrag. rewrite Hd in Hdrag.
      exact Hdrag. }
    split.
    + unfold selectionValid. rewrite position_change_keeps_ids. exact Hin.
    + revert Hdrag. apply drag_target_same_ids, position_change_keeps_ids.
  - destruct (BlueprintImageWithSegments.dragState c); [|auto].
    destruct (BlueprintImageWithSegments.onSegmentPositionChange _); [|auto].
    cbn [fst]. split; [exact Hsel|]. apply drag_target_none. reflexivity.
  - destruct Htimed as [Hnone|Hno]; [|discriminate Hno].
    destruct (Home.isEditMode h); [|auto]. cbn [fst].
    split; [|apply drag_target_none, Hnone].
    destruct (apply_import_cases JSON_parse (mkLocal text None false) h)
      as [[_ ->]|(parsed & segs & _ & _ & _ & ->)]; [exact Hsel|].
    cbn [snd]. apply import_selection_valid.
  - destruct Htimed as [Hnone|Hno]; [|discriminate Hno].
    destruct (Home.isEditMode h); [|auto]. cbn [fst].
    split; [|apply drag_target_none, Hnone].
    unfold selectionValid. simpl. left. reflexivity.
  - cbn [fst]. split; [apply toggle_selection_valid, Hsel|].
    apply drag_target_none. reflexivity.
Qed.

Lemma editorRun_keeps_well_formed (JSON_parse : string -> option JSON)
  (events : list EditorEvent) :
  forall st,
    (Forall geometryInRange (Home.segments (fst st)) ->
     Forall geometryInRange (Home.segments (fst (editorRun JSON_parse events st)))) /\
    (Forall wellFormedSegment (Home.segments (fst st)) ->
     Forall wellFormedSegment (Home.segments (fst (editorRun JSON_parse events st)))).
Proof.
  unfold editorRun. induction events as [|ev events IH]; intros st; cbn [fold_left]; [auto|].
  pose proof (editorStep_keeps_range JSON_parse ev st) as Hg.
  pose proof (editorStep_keeps_ids_importable JSON_parse ev st) as Hi.
  destruct (IH (editorStep JSON_parse st ev)) as (IHg & IHw).
  split; [auto|].
  intros Hw. apply IHw. apply well_formed_split. apply well_formed_split in Hw.
  destruct Hw. split; auto.
Qed.

End SegmentEvents.

(** X4.  Every segment of the store keeps [top], [left], [width] and [height]
    in [0,100] whatever the user does to segments: adding, deleting,
    selecting, typing in the form, pressing, moving and releasing the mouse
    on a box, importing any text, resetting, switching the mode, in any
    order.  It holds from any store whose segments are in range, for every
    state of the canvas and every behaviour of [JSON.parse]. *)
Theorem every_segment_stays_in_the_percent_square
  (JSON_parse : string -> option JSON)
  (events : list EditorEvent) (st : Home.State * BlueprintImageWithSegments.Local)
  (Hstore : Forall geometryInRange (Home.segments (fst st))) :
  Forall geometryInRange (Home.segments (fst (editorRun JSON_parse events st))).
Proof. apply editorRun_keeps_well_formed, Hstore. Qed.

Lemma every_segment_stays_in_the_percent_square_witness :
  Forall geometryInRange
    (Home.segments
       (fst (editorRun JSON_parse_sample
               [ EvAddSegment "x"; EvGeometry BlueprintSidebarEdit.Width 250;
                 EvMouseDown 0 sampleLayout (MouseEvent.mk 150 150);
                 EvMouseMove sampleLayout (MouseEvent.mk 5000 (-40));
                 EvDeleteSegment;
                 EvMouseMove sampleLayout (MouseEvent.mk 300 200);
                 EvMouseUp;
                 EvApplyImport "[42]"; EvDeleteSegment ]
               (sampleEditing, BlueprintImageWithSegments.mounted)))).
Proof.
  apply every_segment_stays_in_the_percent_square.
  repeat constructor; intros field; destruct field; reflexivity.
Defined.

(** X6.  A store of well-formed segments (geometry in [0,100], an id that is
    not blank) stays one under every event of the editor, so the validator
    accepts what the export writes for it and returns the same segments,
    with the numbers read from the text.  The Import box, given that text,
    installs them and reports success, unless the store is empty: the text
    of an empty store is refused with the format error and the state stays
    as it is. *)
Theorem editor_keeps_the_store_importable
  (JSON_parse : string -> option JSON)
  (events : list EditorEvent) (st : Home.State * BlueprintImageWithSegments.Local)
  (c : BlueprintSidebarEdit.Local) (h : Home.State)
  (Hstore : Forall wellFormedSegment (Home.segments (fst st)))
  (Htext : JSString.trim_is_empty (BlueprintSidebarEdit.importText c) = false)
  (Hparse : JSON_parse (BlueprintSidebarEdit.importText c) =
            Some (savedSegments (Home.segments (fst (editorRun JSON_parse events st))))) :
  Forall wellFormedSegment (Home.segments (fst (editorRun JSON_parse events st))) /\
  exportThenImport (Home.segments (fst (editorRun JSON_parse events st))) =
  Some (map reparsedSegment (Home.segments (fst (editorRun JSON_parse events st)))) /\
  BlueprintSidebarEdit.handleApplyImport JSON_parse c h =
  match Home.segments (fst (editorRun JSON_parse events st)) with
  | [] =>
      (BlueprintSidebarEdit.mkLocal (BlueprintSidebarEdit.importText c)
         (Some "Некорректный формат данных или пустой список сегментов.") false,
       h)
  | _ :: _ =>
      (BlueprintSidebarEdit.mkLocal (BlueprintSidebarEdit.importText c) None true,
       Home.handleImportSegments
         (map reparsedSegment (Home.segments (fst (editorRun JSON_parse events st)))) h)
  end.
Proof.
  assert (Hw : Forall wellFormedSegment
                 (Home.segments (fst (editorRun JSON_parse events st)))).
  { apply editorRun_keeps_well_formed, Hstore. }
  assert (Hback :
    BlueprintSidebarEdit.normalizeImportedSegments
      (savedSegments (Home.segments (fst (editorRun JSON_parse events st)))) =
    Some (map reparsedSegment (Home.segments (fst (editorRun JSON_parse events st))))).
  { unfold savedSegments. simpl. apply (reimport_all _ Hw []). }
  split; [exact Hw|]. split; [exact Hback|].
  unfold BlueprintSidebarEdit.handleApplyImport. rewrite Htext, Hparse, Hback.
  destruct (Home.segments (fst (editorRun JSON_parse events st))); reflexivity.
Qed.

(** The sample store after a change of geometry, exported and pasted back;
    and the same store emptied, whose text the Import box refuses. *)
Lemma editor_keeps_the_store_importable_witness :
  BlueprintSidebarEdit.handleApplyImport JSON_parse_export_sample
    (BlueprintSidebarEdit.mkLocal sampleExportText None false) sampleEditing =
  (BlueprintSidebarEdit.mkLocal sampleExportText None true,
   Home.handleImportSegments [ Segment.mk "s1" "S-1" "" "" 100 10 10 8 cyan ] sampleEditing) /\
  BlueprintSidebarEdit.handleApplyImport JSON_parse_export_sample
    (BlueprintSidebarEdit.mkLocal "[]" None false) sampleEditing =
  (BlueprintSidebarEdit.mkLocal "[]"
     (Some "Некорректный формат данных или пустой список сегментов.") false,
   sampleEditing).
Proof.
  split.
  - refine (proj2 (proj2 (editor_keeps_the_store_importable JSON_parse_export_sample
             [ EvGeometry BlueprintSidebarEdit.Top 250 ]
             (sampleEditing, BlueprintImageWithSegments.mounted)
             (BlueprintSidebarEdit.mkLocal sampleExportText None false) sampleEditing
             _ eq_refl eq_refl))).
    repeat constructor; intros field; destruct field; reflexivity.
  - refine (proj2 (proj2 (editor_keeps_the_store_importable JSON_parse_export_sample
             [ EvDeleteSegment ]
             (sampleEditing, BlueprintImageWithSegments.mounted)
             (BlueprintSidebarEdit.mkLocal "[]" None false) sampleEditing
             _ eq_refl eq_refl))).
    repeat constructor; intros field; destruct field; reflexivity.
Defined.

(** X7.  A drag changes nothing but the position of the segments that carry the
    id of the dragged box: every segment keeps its id, texts, size and
    colour and its place in the list, a segment with another id is the
    same object, the polylines, the scale, the mode and the hovered segment
    are as before, and the selection either stays or becomes the dragged
    box.  This holds for every pointer position and page layout. *)
Theorem drag_moves_only_the_dragged_segment
  (lay : Layout.t) (grab : MouseEvent.t) (segment : Segment.t)
  (moves : list (Layout.t * MouseEvent.t)) (h : Home.State) :
  Forall2 (fun old new => movedOnly old new /\
                          (Segment.id old <> Segment.id segment -> new = old))
    (Home.segments h) (Home.segments (fst (dragSession lay grab segment moves h))) /\
  polylineSideUnchanged h (fst (dragSession lay grab segment moves h)) /\
  Home.hoveredSegmentId (fst (dragSession lay grab segment moves h)) =
    Home.hoveredSegmentId h /\
  (Home.selectedSegmentId (fst (dragSession lay grab segment moves h)) =
     Home.selectedSegmentId h \/
   Home.selectedSegmentId (fst (dragSession lay grab segment moves h)) =
     Some (Segment.id segment)).
Proof.
  destruct (drag_session_frame lay grab segment moves h) as (H1 & H2 & H3 & H4 & _).
  cbv zeta in *. repeat split; try assumption; try apply H2.
  destruct H4 as [H4|[H4 _]]; auto.
Qed.

(** X8.  An import that reports success has installed exactly the list the
    validator returned for the parsed text: every stored segment has an id
    that is not blank and its geometry in [0,100], the first one is
    selected, no segment is hovered, and the polylines, the scale and the
    mode are untouched. *)
Theorem successful_import_installs_the_validated_list
  (JSON_parse : string -> option JSON)
  (c : BlueprintSidebarEdit.Local) (h : Home.State)
  (Hsuccess : BlueprintSidebarEdit.importSuccess
                (fst (BlueprintSidebarEdit.handleApplyImport JSON_parse c h)) = true) :
  (exists parsed,
      JSON_parse (BlueprintSidebarEdit.importText c) = Some parsed /\
      BlueprintSidebarEdit.normalizeImportedSegments parsed =
      Some (Home.segments (snd (BlueprintSidebarEdit.handleApplyImport JSON_parse c h)))) /\
  Forall wellFormedSegment
    (Home.segments (snd (BlueprintSidebarEdit.handleApplyImport JSON_parse c h))) /\
  Home.selectedSegmentId (snd (BlueprintSidebarEdit.handleApplyImport JSON_parse c h)) =
    option_map Segment.id
      (hd_error (Home.segments (snd (BlueprintSidebarEdit.handleApplyImport JSON_parse c h)))) /\
  Home.hoveredSegmentId (snd (BlueprintSidebarEdit.handleApplyImport JSON_parse c h)) = None /\
  polylineSideUnchanged h (snd (BlueprintSidebarEdit.handleApplyImport JSON_parse c h)).
Proof.
  destruct (apply_import_cases JSON_parse c h)
    as [[Hfail _]|(parsed & segs & Hparse & Hnorm & _ & E)].
  - rewrite Hfail in Hsuccess. discriminate.
  - rewrite E. cbn [snd]. split; [exists parsed; split; assumption|].
    split; [apply (normalized_well_formed parsed), Hnorm|].
    repeat split.
Qed.

(** The text of one object with only an id, pasted over the sample state:
    the defaults fill the other fields. *)
Lemma successful_import_installs_the_validated_list_witness :
  Home.segments
    (snd (BlueprintSidebarEdit.handleApplyImport JSON_parse_import_sample
            (BlueprintSidebarEdit.mkLocal sampleImportText None false) sampleEditing)) =
  [ Segment.mk "s9" "SEG" "" "" 0 0 10 8 cyan ] /\
  Forall wellFormedSegment
    (Home.segments
       (snd (BlueprintSidebarEdit.handleApplyImport JSON_parse_import_sample
               (BlueprintSidebarEdit.mkLocal sampleImportText None false) sampleEditing))).
Proof.
  split; [reflexivity|].
  apply (successful_import_installs_the_validated_list JSON_parse_import_sample
           (BlueprintSidebarEdit.mkLocal sampleImportText None false) sampleEditing).
  reflexivity.
Defined.

(** ** View mode, unknown ids, the mode switch *)

Section Modes.

Import SidebarControls HomeCallbacks.

Lemma drag_moves_without_drag (c : BlueprintImageWithSegments.Local)
  (moves : list (Layout.t * MouseEvent.t)) :
  BlueprintImageWithSegments.dragState c = None ->
  forall h,
    fold_left
      (fun h0 (m : Layout.t * MouseEvent.t) =>
         BlueprintImageWithSegments.handleMouseMove
           (BlueprintImageWithSegments.rendered_by_Home h0) (fst m) (snd m) c h0)
      moves h = h.
Proof.
  intros Hc. induction moves as [|m moves IH]; intros h; cbn [fold_left]; [reflexivity|].
  unfold BlueprintImageWithSegments.handleMouseMove at 2. rewrite Hc. apply IH.
Qed.


Lemma filter_keeps_all {A} (f : A -> bool) (l : list A) :
  (forall a, In a l -> f a = true) -> filter f l = l.
Proof.
  induction l as [|a l IH]; intros H; simpl; [reflexivity|].
  rewrite (H a (or_introl eq_refl)), IH; [reflexivity|].
  intros b Hb. apply H. right. exact Hb.
Qed.



End Modes.

(** X9.  In view mode the pointer edits nothing: a drag of any box with any
    moves leaves the state of [Home] as it is, a click on the canvas adds no
    point, and a pointer move tracks no preview point.  The wheel still
    zooms. *)
Theorem view_mode_pointer_edits_nothing (h : Home.State)
  (Hview : Home.isEditMode h = false) :
  (forall lay grab segment moves, fst (dragSession lay grab segment moves h) = h) /\
  (forall lay event c,
      BlueprintImageWithSegments.handleCanvasClick
        (BlueprintImageWithSegments.rendered_by_Home h) lay event c h = h /\
      BlueprintImageWithSegments.previewPoint
        (BlueprintImageWithSegments.handleMouseMoveOnCanvas
           (BlueprintImageWithSegments.rendered_by_Home h) lay event c) = None) /\
  (forall deltaY,
      BlueprintImageWithSegments.handleWheel
        (BlueprintImageWithSegments.rendered_by_Home h) deltaY h =
      Home.setZoom (BlueprintImageWithSegments.nextZoomOnWheel (Home.zoom h) deltaY) h).
Proof.
  split; [|split].
  - intros lay grab segment moves. unfold dragSession. cbn [fst].
    apply drag_moves_without_drag.
    unfold BlueprintImageWithSegments.handleMouseDown,
      BlueprintImageWithSegments.rendered_by_Home.
    rewrite Hview. reflexivity.
  - intros lay event c.
    unfold BlueprintImageWithSegments.handleCanvasClick,
      BlueprintImageWithSegments.handleMouseMoveOnCanvas,
      BlueprintImageWithSegments.rendered_by_Home.
    rewrite Hview. split; reflexivity.
  - intros deltaY.
    unfold BlueprintImageWithSegments.handleWheel,
      BlueprintImageWithSegments.rendered_by_Home.
    rewrite Hview. reflexivity.
Qed.

Lemma view_mode_pointer_edits_nothing_witness :
  fst (dragSession sampleLayout (MouseEvent.mk 150 150) sampleSegment
         [ (sampleLayout, MouseEvent.mk 400 300) ]
         (Home.initial [sampleSegment] [])) =
  Home.initial [sampleSegment] [].
Proof.
  apply (view_mode_pointer_edits_nothing (Home.initial [sampleSegment] [])).
  reflexivity.
Defined.



(** X11.  Switching to view mode and back abandons the line being drawn: the
    drawing flag is off, so later clicks on the canvas add no point,
    although both collections, the scale and the active polyline are as
    they were before the two switches. *)
Theorem mode_switch_ends_the_drawing_session (h : Home.State)
  (Hedit : Home.isEditMode h = true) :
  Home.isEditMode (Home.handleToggleEditMode h) = false /\
  Home.isEditMode (Home.handleToggleEditMode (Home.handleToggleEditMode h)) = true /\
  Home.isDrawingPolyline (Home.handleToggleEditMode (Home.handleToggleEditMode h)) = false /\
  Home.segments (Home.handleToggleEditMode (Home.handleToggleEditMode h)) = Home.segments h /\
  Home.polylines (Home.handleToggleEditMode (Home.handleToggleEditMode h)) = Home.polylines h /\
  Home.activePolylineId (Home.handleToggleEditMode (Home.handleToggleEditMode h)) =
    Home.activePolylineId h /\
  Home.zoom (Home.handleToggleEditMode (Home.handleToggleEditMode h)) = Home.zoom h /\
  (forall lay event c,
      BlueprintImageWithSegments.handleCanvasClick
        (BlueprintImageWithSegments.rendered_by_Home
           (Home.handleToggleEditMode (Home.handleToggleEditMode h)))
        lay event c (Home.handleToggleEditMode (Home.handleToggleEditMode h)) =
      Home.handleToggleEditMode (Home.handleToggleEditMode h)).
Proof.
  destruct h as [segs polys hov sel z e tp w d a p]. simpl in Hedit. subst e.
  unfold Home.handleToggleEditMode. simpl.
  destruct sel as [sel|], segs as [|first rest]; simpl;
    try (repeat split; fail).
  destruct (String.eqb sel ""); simpl; repeat split.
Qed.

Lemma mode_switch_ends_the_drawing_session_witness :
  Home.isDrawingPolyline (Home.handleStartPolyline "a" sampleEditing) = true /\
  Home.isDrawingPolyline
    (Home.handleToggleEditMode
       (Home.handleToggleEditMode (Home.handleStartPolyline "a" sampleEditing))) = false.
Proof.
  split; [reflexivity|].
  apply (mode_switch_ends_the_drawing_session (Home.handleStartPolyline "a" sampleEditing)).
  reflexivity.
Defined.

Section StyleControls.

Import SidebarControls HomeCallbacks.

Lemma updateCurrentPolyline_restyles (p : PolylinePatch.t) (h : Home.State) :
  attributePatch p -> PolylinePatch.description p = None ->
  Forall2 (fun old new =>
             restyledOnly old new /\
             (Some (Polyline.id old) <> currentActivePolylineId h -> new = old))
    (Home.polylines h) (Home.polylines (updateCurrentPolyline p h)).
Proof.
  intros [Hid Hpts] Hdesc.
  assert (Hsame : forall (Q : Polyline.t -> Prop) (l : list Polyline.t),
            Forall2 (fun old new => restyledOnly old new /\ (Q old -> new = old)) l l).
  { induction l; constructor; auto. split; [repeat split|reflexivity]. }
  unfold updateCurrentPolyline.
  destruct (currentActivePolylineId h) as [current|]; [|apply Hsame].
  destruct (String.eqb current ""); [apply Hsame|].
  simpl. induction (Home.polylines h) as [|poly l IH]; simpl; constructor; [|exact IH].
  destruct (String.eqb (Polyline.id poly) current) eqn:E.
  - split.
    + unfold restyledOnly. simpl. rewrite Hid, Hpts, Hdesc. repeat split.
    + intros Hne. apply String.eqb_eq in E. subst current. contradiction Hne. reflexivity.
  - split; [repeat split|reflexivity].
Qed.

Lemma updateCurrentPolyline_segment_side (p : PolylinePatch.t) (h : Home.State) :
  segmentSideUnchanged h (updateCurrentPolyline p h).
Proof.
  unfold updateCurrentPolyline.
  destruct (currentActivePolylineId h) as [current|]; [|repeat split].
  destruct (String.eqb current ""); repeat split.
Qed.

End StyleControls.

(** X12.  The label input and the colour, stroke-width and dash-style selects of
    the polyline panel change only the style of the polylines that carry
    the current id (the active one, or the first line when none is
    active): every polyline keeps its id, description and points and its
    place in the list, a polyline with another id is the same object, and
    the segments, the selection, the scale, the mode, the active polyline,
    the drawing flag and the pending deletion are as before. *)
Theorem style_controls_change_only_the_style
  (value : string) (col : PolylineColor) (entered : float) (d : PolylineDashStyle)
  (edit : Home.State -> Home.State) (h : Home.State)
  (Hcontrol : In edit
                [ SidebarControls.handleLabelChange value;
                  SidebarControls.handlePolylineColorChange col;
                  SidebarControls.handleStrokeWidthChange entered;
                  SidebarControls.handleDashStyleChange d ]) :
  Forall2 (fun old new =>
             restyledOnly old new /\
             (Some (Polyline.id old) <> SidebarControls.currentActivePolylineId h ->
              new = old))
    (Home.polylines h) (Home.polylines (edit h)) /\
  segmentSideUnchanged h (edit h) /\
  Home.activePolylineId (edit h) = Home.activePolylineId h /\
  Home.isDrawingPolyline (edit h) = Home.isDrawingPolyline h /\
  Home.pendingDeletePolylineId (edit h) = Home.pendingDeletePolylineId h.
Proof.
  assert (H : forall p, attributePatch p -> PolylinePatch.description p = None ->
            edit = SidebarControls.updateCurrentPolyline p ->
            Forall2 (fun old new =>
                       restyledOnly old new /\
                       (Some (Polyline.id old) <> SidebarControls.currentActivePolylineId h ->
                        new = old))
              (Home.polylines h) (Home.polylines (edit h)) /\
            segmentSideUnchanged h (edit h) /\
            Home.activePolylineId (edit h) = Home.activePolylineId h /\
            Home.isDrawingPolyline (edit h) = Home.isDrawingPolyline h /\
            Home.pendingDeletePolylineId (edit h) = Home.pendingDeletePolylineId h).
  { intros p Hp Hd ->.
    split; [apply updateCurrentPolyline_restyles; assumption|].
    split; [apply updateCurrentPolyline_segment_side|].
    destruct (updateCurrentPolyline_flags p h) as (Ha & Hdr & _ & _ & _ & Hpe).
    auto. }
  destruct Hcontrol as [<-|[<-|[<-|[<-|[]]]]];
    (eapply H; [| |reflexivity]; [split; reflexivity|reflexivity]).
Qed.

Lemma style_controls_change_only_the_style_witness :
  segmentSideUnchanged
    (Home.handleStartPolyline "a" sampleEditing)
    (SidebarControls.handleStrokeWidthChange 0.3 (Home.handleStartPolyline "a" sampleEditing)).
Proof.
  apply (style_controls_change_only_the_style "" cyan 0.3 solid
           (SidebarControls.handleStrokeWidthChange 0.3)
           (Home.handleStartPolyline "a" sampleEditing)).
  simpl. right. right. left. reflexivity.
Defined.

(** X13.  Deleting a polyline waits for the confirmation.  The Delete button of
    the panel only records the current id as pending and opens the dialog;
    Cancel then gives back the state the button was clicked on, and Confirm
    gives the state [handleDeletePolyline] makes of it for that id. *)
Theorem polyline_delete_waits_for_confirmation (h : Home.State) (id : string)
  (Hcurrent : SidebarControls.currentActivePolylineId h = Some id)
  (Hid : id <> "")
  (Hidle : Home.pendingDeletePolylineId h = None) :
  SidebarControls.handleDeletePolylineClick h = Home.setPendingDeletePolylineId (Some id) h /\
  HomeCallbacks.confirmDialogOpen (SidebarControls.handleDeletePolylineClick h) = true /\
  HomeCallbacks.cancelDeletePolyline (SidebarControls.handleDeletePolylineClick h) = h /\
  Home.confirmDeletePolyline (SidebarControls.handleDeletePolylineClick h) =
  Home.handleDeletePolyline id h.
Proof.
  apply String.eqb_neq in Hid.
  assert (E : SidebarControls.handleDeletePolylineClick h =
              Home.setPendingDeletePolylineId (Some id) h).
  { unfold SidebarControls.handleDeletePolylineClick. rewrite Hcurrent, Hid. reflexivity. }
  rewrite E. split; [reflexivity|].
  destruct h as [segs polys hov sel z e tp w d a p]. simpl in Hidle. subst p.
  unfold HomeCallbacks.confirmDialogOpen, HomeCallbacks.cancelDeletePolyline,
    Home.confirmDeletePolyline. simpl. rewrite Hid. repeat split.
Qed.

Lemma polyline_delete_waits_for_confirmation_witness :
  Home.polylines
    (Home.confirmDeletePolyline
       (SidebarControls.handleDeletePolylineClick
          (Home.handleStartPolyline "a" sampleEditing))) = [] /\
  HomeCallbacks.cancelDeletePolyline
    (SidebarControls.handleDeletePolylineClick
       (Home.handleStartPolyline "a" sampleEditing)) =
  Home.handleStartPolyline "a" sampleEditing.
Proof.
  split; [reflexivity|].
  refine (proj1 (proj2 (proj2 (polyline_delete_waits_for_confirmation
                                 (Home.handleStartPolyline "a" sampleEditing)
                                 "poly-a" _ _ _)))).
  - reflexivity.
  - discriminate.
  - reflexivity.
Defined.

(** ** The modal under every event *)

Section ModalEvents.

Import WheelDetailModalControls.

Lemma afterEffects_cases (before after : WheelDetailModal.State) :
  WheelDetailModal.afterEffects true before after = after \/
  WheelDetailModal.afterEffects true before after =
  WheelDetailModal.mk (WheelDetailModal.polylines after)
    (option_map Polyline.id (hd_error (WheelDetailModal.polylines after)))
    (WheelDetailModal.isDrawing after) (WheelDetailModal.previewPoint after)
    (WheelDetailModal.isEditMode after) /\
  WheelDetailModal.activeId after = None.
Proof.
  unfold WheelDetailModal.afterEffects, WheelDetailModal.syncActiveEffect.
  destruct (Nat.eqb _ _); [left; reflexivity|].
  destruct after as [polys [a|] d pv e]; simpl; [left; reflexivity|].
  right. split; reflexivity.
Qed.

Lemma modal_update_pairs (p : PolylinePatch.t) (m : WheelDetailModal.State) :
  attributePatch p ->
  Forall2 (fun old new => Polyline.id new = Polyline.id old /\
                          Polyline.points new = Polyline.points old)
    (WheelDetailModal.polylines m) (WheelDetailModal.polylines (updateActive p m)) /\
  WheelDetailModal.activeId (updateActive p m) = WheelDetailModal.activeId m /\
  WheelDetailModal.previewPoint (updateActive p m) = WheelDetailModal.previewPoint m.
Proof.
  intros Hp.
  assert (Hsame : forall l : list Polyline.t,
            Forall2 (fun old new => Polyline.id new = Polyline.id old /\
                                    Polyline.points new = Polyline.points old) l l).
  { induction l; constructor; auto. }
  unfold updateActive.
  destruct (WheelDetailModal.activeId m) as [active|] eqn:Ha; [|auto].
  destruct (String.eqb active ""); [auto|]. simpl. split; [|auto].
  induction (WheelDetailModal.polylines m) as [|poly l IH]; simpl; constructor; [|exact IH].
  destruct (String.eqb (Polyline.id poly) active); [|split; reflexivity].
  apply attribute_spread_keeps, Hp.
Qed.

Lemma modal_click_cases (lay : Layout.t) (e : MouseEvent.t) (m : WheelDetailModal.State) :
  WheelDetailModal.handleContainerClick lay e m = m \/
  exists p active,
    WheelDetailModal.clientToSvgPercent lay (MouseEvent.clientX e) (MouseEvent.clientY e)
    = Some p /\
    WheelDetailModal.handleContainerClick lay e m =
    WheelDetailModal.mk
      (map (fun pl => if String.eqb (Polyline.id pl) active
                      then Polyline.push_point pl p else pl)
           (WheelDetailModal.polylines m))
      (WheelDetailModal.activeId m) (WheelDetailModal.isDrawing m)
      (WheelDetailModal.previewPoint m) (WheelDetailModal.isEditMode m).
Proof.
  unfold WheelDetailModal.handleContainerClick.
  destruct (_ || _); [left; reflexivity|].
  destruct (WheelDetailModal.clientToSvgPercent lay _ _) as [p|]; [|left; reflexivity].
  destruct (WheelDetailModal.activeId m) as [active|]; [|left; reflexivity].
  destruct (String.eqb active ""); [left; reflexivity|].
  right. exists p, active. split; reflexivity.
Qed.

Lemma modal_point_in_range (lay : Layout.t) (x y : float) (p : PolylinePoint.t) :
  WheelDetailModal.clientToSvgPercent lay x y = Some p -> pointInRange p.
Proof.
  unfold WheelDetailModal.clientToSvgPercent.
  destruct (Layout.svg lay); [|discriminate]. intros [= <-].
  split; simpl; apply clampPercent_in_range.
Qed.

Lemma push_keeps_range (active : string) (p : PolylinePoint.t) (l : list Polyline.t) :
  pointInRange p -> pointsInRange l ->
  pointsInRange
    (map (fun pl => if String.eqb (Polyline.id pl) active
                    then Polyline.push_point pl p else pl) l).
Proof.
  intros Hp Hl. rewrite pointsInRange_forall in *.
  intros poly Hin. apply in_map_iff in Hin. destruct Hin as (old & <- & Hin).
  destruct (String.eqb (Polyline.id old) active); [|apply Hl, Hin].
  simpl. apply Forall_app. split; [apply Hl, Hin|]. constructor; [exact Hp|constructor].
Qed.

Lemma push_keeps_ids (active : string) (p : PolylinePoint.t) (l : list Polyline.t) :
  map Polyline.id
    (map (fun pl => if String.eqb (Polyline.id pl) active
                    then Polyline.push_point pl p else pl) l) =
  map Polyline.id l.
Proof.
  rewrite map_map. apply map_ext. intros pl.
  destruct (String.eqb (Polyline.id pl) active); reflexivity.
Qed.

Lemma filter_keeps_range (id : string) (l : list Polyline.t) :
  pointsInRange l ->
  pointsInRange (filter (fun p => negb (String.eqb (Polyline.id p) id)) l).
Proof.
  intros Hl. rewrite pointsInRange_forall in *.
  intros poly Hin. apply filter_In in Hin. apply Hl, Hin.
Qed.

Lemma modalHandler_keeps_points_in_range (ev : ModalEvent) (m : WheelDetailModal.State) :
  pointsInRange (WheelDetailModal.polylines m) -> modalPreviewInRange m ->
  pointsInRange (WheelDetailModal.polylines (modalHandler m ev)) /\
  modalPreviewInRange (modalHandler m ev).
Proof.
  intros Hm Hp.
  assert (Hattr : forall p, attributePatch p ->
            pointsInRange (WheelDetailModal.polylines (updateActive p m)) /\
            modalPreviewInRange (updateActive p m)).
  { intros p Ha. destruct (modal_update_pairs p m Ha) as (Hpairs & _ & Hpv).
    split; [apply (pairs_keep_range _ _ Hpairs Hm)|].
    unfold modalPreviewInRange. rewrite Hpv. exact Hp. }
  destruct ev as [now36|lay e|lay e| | | |n|n|choice|value|col|entered|d|];
    cbn [modalHandler]; try (apply Hattr; split; reflexivity).
  - destruct (_ && _); [|auto]. unfold WheelDetailModal.startLine.
    destruct (negb (WheelDetailModal.isEditMode m)); [auto|]. split; [|exact Hp].
    simpl. apply Forall_app. split; [exact Hm|repeat constructor].
  - split.
    + unfold WheelDetailModal.handleMouseMove. destruct (_ || _); exact Hm.
    + unfold WheelDetailModal.handleMouseMove, modalPreviewInRange.
      destruct (_ || _); simpl; [discriminate|].
      intros q Hq. apply (modal_point_in_range _ _ _ _ Hq).
  - destruct (modal_click_cases lay e m) as [->|(p & active & Hpt & ->)]; [auto|].
    split; [|exact Hp]. simpl. apply push_keeps_range; [|exact Hm].
    apply (modal_point_in_range _ _ _ _ Hpt).
  - destruct (_ && _); [|auto]. split; [exact Hm|]. intros q Hq. discriminate Hq.
  - split; [|exact Hp]. constructor.
  - unfold handleDeleteActive. destruct (WheelDetailModal.activeId m) as [active|]; [|auto].
    destruct (String.eqb active ""); [auto|]. split; [|exact Hp].
    simpl. apply filter_keeps_range, Hm.
  - unfold handleRowDelete.
    destruct (nth_error (WheelDetailModal.polylines m) n) as [p|]; [|auto].
    split; [|exact Hp]. simpl. apply filter_keeps_range, Hm.
  - unfold handleRowSelect.
    destruct (nth_error (WheelDetailModal.polylines m) n) as [p|]; auto.
  - unfold handleSelectChange. destruct choice as [n|]; [|auto].
    destruct (nth_error (WheelDetailModal.polylines m) n) as [p|]; auto.
  - unfold toggleEditMode. destruct (negb (WheelDetailModal.isEditMode m)); [auto|].
    split; [exact Hm|]. intros q Hq. discriminate Hq.
Qed.

Lemma modalHandler_keeps_active_valid (ev : ModalEvent) (m : WheelDetailModal.State) :
  modalActiveValid m -> modalActiveValid (modalHandler m ev).
Proof.
  intros Hm.
  assert (Hattr : forall p, attributePatch p -> modalActiveValid (updateActive p m)).
  { intros p Ha. destruct (modal_update_pairs p m Ha) as (Hpairs & Hact & _).
    unfold modalActiveValid. rewrite Hact, (pairs_keep_ids _ _ Hpairs). exact Hm. }
  assert (Hdel : forall id, modalActiveValid (WheelDetailModal.deleteLine id m)).
  { intros id. unfold modalActiveValid in *. simpl.
    destruct (WheelDetailModal.activeId m) as [a|]; simpl; [|exact I].
    destruct (String.eqb a id) eqn:E; [exact I|].
    apply id_survives_filter; assumption. }
  destruct ev as [now36|lay e|lay e| | | |n|n|choice|value|col|entered|d|];
    cbn [modalHandler]; try (apply Hattr; split; reflexivity).
  - destruct (_ && _); [|auto]. unfold WheelDetailModal.startLine.
    destruct (negb (WheelDetailModal.isEditMode m)); [auto|].
    unfold modalActiveValid. simpl. rewrite map_app. apply in_or_app. right. left. reflexivity.
  - unfold WheelDetailModal.handleMouseMove. destruct (_ || _); exact Hm.
  - destruct (modal_click_cases lay e m) as [->|(p & active & _ & ->)]; [auto|].
    unfold modalActiveValid. simpl. rewrite push_keeps_ids. exact Hm.
  - destruct (_ && _); [|auto]. exact Hm.
  - exact I.
  - unfold handleDeleteActive. destruct (WheelDetailModal.activeId m) as [active|] eqn:E;
      [|unfold modalActiveValid; rewrite E; exact I].
    destruct (String.eqb active ""); [exact Hm|apply Hdel].
  - unfold handleRowDelete.
    destruct (nth_error (WheelDetailModal.polylines m) n) as [p|]; [apply Hdel|exact Hm].
  - unfold handleRowSelect.
    destruct (nth_error (WheelDetailModal.polylines m) n) as [p|] eqn:E; [|exact Hm].
    unfold modalActiveValid. simpl. apply in_map, (nth_error_In _ _ E).
  - unfold handleSelectChange. destruct choice as [n|]; [|exact I].
    destruct (nth_error (WheelDetailModal.polylines m) n) as [p|] eqn:E; [|exact Hm].
    unfold modalActiveValid. simpl.
    destruct (String.eqb (Polyline.id p) ""); [exact I|].
    apply in_map, (nth_error_In _ _ E).
  - unfold toggleEditMode. destruct (negb (WheelDetailModal.isEditMode m)); exact Hm.
Qed.

Lemma modalStep_keeps_invariants (ev : ModalEvent) (m : WheelDetailModal.State) :
  (pointsInRange (WheelDetailModal.polylines m) -> modalPreviewInRange m ->
   pointsInRange (WheelDetailModal.polylines (modalStep m ev)) /\
   modalPreviewInRange (modalStep m ev)) /\
  (modalActiveValid m -> modalActiveValid (modalStep m ev)).
Proof.
  unfold modalStep.
  destruct (afterEffects_cases m (modalHandler m ev)) as [->|[-> Hnone]].
  - split.
    + apply modalHandler_keeps_points_in_range.
    + apply modalHandler_keeps_active_valid.
  - split.
    + intros Hm Hp. apply (modalHandler_keeps_points_in_range ev m Hm Hp).
    + intros _. unfold modalActiveValid. simpl.
      destruct (WheelDetailModal.polylines (modalHandler m ev)) as [|first rest]; simpl;
        [exact I|left; reflexivity].
Qed.

(** The pointer moves of a session change only the tracked point. *)
Lemma modal_moves_only_preview (moves : list (Layout.t * MouseEvent.t))
  (polys : list Polyline.t) (active : string) :
  forall pv, exists pv',
    modalRun (map (fun m : Layout.t * MouseEvent.t => MdMove (fst m) (snd m)) moves)
      (WheelDetailModal.mk polys (Some active) true pv true) =
    WheelDetailModal.mk polys (Some active) true pv' true.
Proof.
  unfold modalRun.
  induction moves as [|mv moves IH]; intros pv; cbn [map fold_left]; [exists pv; reflexivity|].
  unfold modalStep at 2. cbn [modalHandler].
  unfold WheelDetailModal.handleMouseMove, WheelDetailModal.afterEffects. simpl.
  rewrite Nat.eqb_refl. apply IH.
Qed.

End ModalEvents.

(** X14.  Every point a line of the modal holds stays in [0,100] on both axes,
    whatever the user does in the modal, in either mode: starting,
    drawing, finishing, clearing, deleting, selecting, the style controls,
    switching the mode. *)
Theorem modal_points_stay_in_the_percent_square
  (events : list ModalEvent) (m : WheelDetailModal.State)
  (Hstore : pointsInRange (WheelDetailModal.polylines m))
  (Hpreview : modalPreviewInRange m) :
  pointsInRange (WheelDetailModal.polylines (modalRun events m)).
Proof.
  unfold modalRun. revert m Hstore Hpreview.
  induction events as [|ev events IH]; intros m Hstore Hpreview; [exact Hstore|].
  cbn [fold_left].
  destruct (proj1 (modalStep_keeps_invariants ev m) Hstore Hpreview) as [H1 H2].
  apply IH; assumption.
Qed.

Lemma modal_points_stay_in_the_percent_square_witness :
  pointsInRange
    (WheelDetailModal.polylines
       (modalRun
          [ MdToggleEditMode; MdStart "c";
            MdClick sampleLayout (MouseEvent.mk 4000 (-7)); MdFinish ]
          sampleModal)).
Proof.
  apply modal_points_stay_in_the_percent_square.
  - repeat constructor.
  - intros q Hq. discriminate Hq.
Defined.

(** X15.  The active line of the modal is always null or one of the collection,
    whatever the user does in the modal: a deletion never leaves it on the
    line that is gone. *)
Theorem modal_active_line_never_dangles
  (events : list ModalEvent) (m : WheelDetailModal.State)
  (Hactive : modalActiveValid m) :
  modalActiveValid (modalRun events m).
Proof.
  unfold modalRun. revert m Hactive.
  induction events as [|ev events IH]; intros m Hactive; [exact Hactive|].
  cbn [fold_left]. apply IH. apply modalStep_keeps_invariants, Hactive.
Qed.

Lemma modal_active_line_never_dangles_witness :
  modalActiveValid (modalRun [ MdRowDelete 0; MdDeleteActive; MdClear ] sampleModal).
Proof.
  apply modal_active_line_never_dangles. simpl. left. reflexivity.
Defined.

(** X16.  A drawing session of the modal commits the positions clicked.  From
    edit mode with no line being drawn, Start, a click at [p1], a click at
    [p2] and Finish, with any pointer moves in between, leave the
    collection with exactly one more line, whose points are [[p1; p2]] in
    that order, provided the generated id is not in use; the new line is
    active and no preview point is left.  The point a click commits is the
    position of the click, whatever point the moves tracked. *)
Theorem modal_session_commits_the_clicked_positions
  (now36 : string) (lay1 lay2 : Layout.t) (e1 e2 : MouseEvent.t)
  (p1 p2 : PolylinePoint.t) (before between : list (Layout.t * MouseEvent.t))
  (m : WheelDetailModal.State)
  (Hedit : WheelDetailModal.isEditMode m = true)
  (Hidle : WheelDetailModal.isDrawing m = false)
  (Hfresh : forall p, In p (WheelDetailModal.polylines m) ->
                      Polyline.id p <> ("wheel-poly-" ++ now36)%string)
  (Hp1 : WheelDetailModal.clientToSvgPercent lay1
           (MouseEvent.clientX e1) (MouseEvent.clientY e1) = Some p1)
  (Hp2 : WheelDetailModal.clientToSvgPercent lay2
           (MouseEvent.clientX e2) (MouseEvent.clientY e2) = Some p2) :
  modalRun
    ([MdStart now36]
     ++ map (fun mv : Layout.t * MouseEvent.t => MdMove (fst mv) (snd mv)) before
     ++ [MdClick lay1 e1]
     ++ map (fun mv : Layout.t * MouseEvent.t => MdMove (fst mv) (snd mv)) between
     ++ [MdClick lay2 e2; MdFinish])
    m =
  WheelDetailModal.mk
    (WheelDetailModal.polylines m ++
     [ Polyline.mk ("wheel-poly-" ++ now36)
         ("Линия " ++ JSString.of_nat (List.length (WheelDetailModal.polylines m) + 1))
         "" cyan 0.7 solid [p1; p2] ])
    (Some ("wheel-poly-" ++ now36)%string) false None true.
Proof.
  destruct m as [polys a d pv e].
  cbn [WheelDetailModal.isEditMode WheelDetailModal.isDrawing WheelDetailModal.polylines] in *.
  subst e d.
  assert (Hstart :
    modalStep (WheelDetailModal.mk polys a false pv true) (MdStart now36) =
    WheelDetailModal.mk
      (polys ++ [Polyline.mk ("wheel-poly-" ++ now36)
                   ("Линия " ++ JSString.of_nat (List.length polys + 1)) "" cyan 0.7 solid []])
      (Some ("wheel-poly-" ++ now36)%string) true pv true).
  { unfold modalStep, WheelDetailModal.afterEffects. simpl.
    destruct (Nat.eqb _ _); reflexivity. }
  assert (Hclick : forall lay ev p pts pv0,
    WheelDetailModal.clientToSvgPercent lay (MouseEvent.clientX ev) (MouseEvent.clientY ev)
    = Some p ->
    modalStep
      (WheelDetailModal.mk
         (polys ++ [Polyline.mk ("wheel-poly-" ++ now36)
                      ("Линия " ++ JSString.of_nat (List.length polys + 1))
                      "" cyan 0.7 solid pts])
         (Some ("wheel-poly-" ++ now36)%string) true pv0 true)
      (MdClick lay ev) =
    WheelDetailModal.mk
      (polys ++ [Polyline.mk ("wheel-poly-" ++ now36)
                   ("Линия " ++ JSString.of_nat (List.length polys + 1))
                   "" cyan 0.7 solid (pts ++ [p])])
      (Some ("wheel-poly-" ++ now36)%string) true pv0 true).
  { intros lay ev p pts pv0 Hp.
    unfold modalStep. cbn [modalHandler].
    unfold WheelDetailModal.handleContainerClick. simpl. rewrite Hp. simpl.
    erewrite add_point_to_fresh; [|exact Hfresh|reflexivity].
    unfold WheelDetailModal.afterEffects. simpl.
    rewrite !length_app. simpl. rewrite Nat.eqb_refl. reflexivity. }
  unfold modalRun. rewrite !fold_left_app. cbn [fold_left].
  rewrite Hstart.
  destruct (modal_moves_only_preview before
              (polys ++ [Polyline.mk ("wheel-poly-" ++ now36)
                           ("Линия " ++ JSString.of_nat (List.length polys + 1))
                           "" cyan 0.7 solid []])
              ("wheel-poly-" ++ now36)%string pv)
    as [pv1 E1].
  unfold modalRun in E1. rewrite E1.
  rewrite (Hclick lay1 e1 p1 [] pv1 Hp1).
  destruct (modal_moves_only_preview between
              (polys ++ [Polyline.mk ("wheel-poly-" ++ now36)
                           ("Линия " ++ JSString.of_nat (List.length polys + 1))
                           "" cyan 0.7 solid ([] ++ [p1])])
              ("wheel-poly-" ++ now36)%string pv1)
    as [pv2 E2].
  unfold modalRun in E2. rewrite E2.
  rewrite (Hclick lay2 e2 p2 ([] ++ [p1]) pv2 Hp2).
  unfold modalStep, WheelDetailModal.afterEffects. simpl.
  rewrite Nat.eqb_refl. reflexivity.
Qed.

Lemma modal_session_commits_the_clicked_positions_witness :
  WheelDetailModal.polylines
    (modalRun
       [ MdStart "m1"; MdMove sampleLayout (MouseEvent.mk 900 450);
         MdClick sampleLayout (MouseEvent.mk 100 100);
         MdClick sampleLayout (MouseEvent.mk 300 300); MdFinish ]
       (WheelDetailModalControls.toggleEditMode (WheelDetailModal.initial []))) =
  [ Polyline.mk "wheel-poly-m1" "Линия 1" "" cyan 0.7 solid
      [ PolylinePoint.mk 10 20; PolylinePoint.mk 30 60 ] ].
Proof.
  change (WheelDetailModal.polylines
            (modalRun
               ([MdStart "m1"]
                ++ map (fun mv : Layout.t * MouseEvent.t => MdMove (fst mv) (snd mv))
                     [ (sampleLayout, MouseEvent.mk 900 450) ]
                ++ [MdClick sampleLayout (MouseEvent.mk 100 100)]
                ++ map (fun mv : Layout.t * MouseEvent.t => MdMove (fst mv) (snd mv)) []
                ++ [MdClick sampleLayout (MouseEvent.mk 300 300); MdFinish])
               (WheelDetailModalControls.toggleEditMode (WheelDetailModal.initial []))) =
          [ Polyline.mk "wheel-poly-m1" "Линия 1" "" cyan 0.7 solid
              [ PolylinePoint.mk 10 20; PolylinePoint.mk 30 60 ] ]).
  rewrite (modal_session_commits_the_clicked_positions "m1" sampleLayout sampleLayout
             (MouseEvent.mk 100 100) (MouseEvent.mk 300 300)
             (PolylinePoint.mk 10 20) (PolylinePoint.mk 30 60)).
  - reflexivity.
  - reflexivity.
  - reflexivity.
  - intros p [].
  - vm_compute. reflexivity.
  - vm_compute. reflexivity.
Defined.

(** ** Saving and reloading *)

Section Reload.

Variable JSON_parse : string -> option JSON.
Variable Number_toString : float -> string.

Lemma roundtrip_finite_number (x : float) :
  JS.Number_isFinite x = true -> JSON_roundtrip (JNum x) = JNum (reparsedNumber x).
Proof.
  intros H. simpl. rewrite H. unfold reparsedNumber.
  destruct (PrimFloat.is_zero x); reflexivity.
Qed.

Lemma reparsedNumber_finite (x : float) :
  JS.Number_isFinite x = true -> JS.Number_isFinite (reparsedNumber x) = true.
Proof.
  intros H. unfold reparsedNumber. destruct (PrimFloat.is_zero x); [reflexivity|exact H].
Qed.

Lemma roundtrip_points (pts : list PolylinePoint.t) :
  Forall (fun pt => JS.Number_isFinite (PolylinePoint.x pt) = true /\
                    JS.Number_isFinite (PolylinePoint.y pt) = true) pts ->
  map JSON_roundtrip (map LoadedPolyline.point_value pts) =
  map LoadedPolyline.point_value (map reparsedPoint pts).
Proof.
  induction 1 as [|pt pts [Hx Hy] _ IH]; [reflexivity|].
  cbn [map]. rewrite IH. f_equal.
  unfold LoadedPolyline.point_value, reparsedPoint.
  change (JSON_roundtrip (JObj ?props)) with
    (JObj (map (fun '(k, w) => (k, JSON_roundtrip w)) props)).
  cbn [map]. rewrite !roundtrip_finite_number by assumption. reflexivity.
Qed.

Lemma reload_one (p : Polyline.t) :
  finitePolyline p ->
  polylineOfRaw Number_toString (JSON_roundtrip (polylineValue p)) =
  Some (LoadedPolyline.of_polyline (reparsedPolyline p)).
Proof.
  intros [Hw Hpts]. unfold polylineValue.
  change (JSON_roundtrip (JObj ?props)) with
    (JObj (map (fun '(k, w) => (k, JSON_roundtrip w)) props)).
  cbn [map].
  rewrite (roundtrip_finite_number _ Hw).
  change (JSON_roundtrip (JArr ?items)) with (JArr (map JSON_roundtrip items)).
  rewrite (roundtrip_points _ Hpts).
  cbn [JSON_roundtrip].
  cbv [polylineOfRaw JSValue.get JSValue.lookup String.eqb Ascii.eqb Bool.eqb String_of].
  rewrite (reparsedNumber_finite _ Hw).
  unfold LoadedPolyline.of_polyline, reparsedPolyline. simpl.
  destruct (Polyline.dashStyle p); reflexivity.
Qed.

Lemma reload_all (polys : list Polyline.t) :
  Forall finitePolyline polys ->
  mapPolylines Number_toString (map JSON_roundtrip (map polylineValue polys)) =
  Some (map LoadedPolyline.of_polyline (map reparsedPolyline polys)).
Proof.
  induction 1 as [|p polys Hp _ IH]; [reflexivity|].
  cbn [map mapPolylines]. rewrite (reload_one p Hp), IH. reflexivity.
Qed.

Lemma roundtrip_segment (s : Segment.t) :
  geometryInRange s -> JSON_roundtrip (Segment.value s) = Segment.value (reparsedSegment s).
Proof.
  intros Hgeo.
  pose proof (Hgeo BlueprintSidebarEdit.Top) as Ht.
  pose proof (Hgeo BlueprintSidebarEdit.Left) as Hl.
  pose proof (Hgeo BlueprintSidebarEdit.Width) as Hw.
  pose proof (Hgeo BlueprintSidebarEdit.Height) as Hh.
  simpl in Ht, Hl, Hw, Hh.
  unfold Segment.value.
  change (JSON_roundtrip (JObj ?props)) with
    (JObj (map (fun '(k, w) => (k, JSON_roundtrip w)) props)).
  cbn [map]. rewrite !roundtrip_number by assumption. reflexivity.
Qed.

End Reload.

(** X17.  What the persistence effect wrote for a polyline collection is what
    both polyline initialisers return on the next load: the same
    polylines in the same order, each with its id, label, description,
    colour, dash style, stroke width and points (numbers as read from the
    text), provided the stroke widths and coordinates are finite.  The
    empty collection reloads as the empty collection, on the page too,
    where the defaults come back only without a stored array. *)
Theorem saved_polylines_reload_as_they_were
  (JSON_parse : string -> option JSON) (Number_toString : float -> string)
  (polylines : list Polyline.t) (stored : string)
  (Htext : stored <> "")
  (Hparse : JSON_parse stored = Some (savedPolylines polylines))
  (Hfinite : Forall finitePolyline polylines) :
  Home_polylinesInitializer JSON_parse Number_toString (GetString stored) =
    map LoadedPolyline.of_polyline (map reparsedPolyline polylines) /\
  WheelDetailModal_polylinesInitializer JSON_parse Number_toString (GetString stored) =
    map LoadedPolyline.of_polyline (map reparsedPolyline polylines).
Proof.
  apply String.eqb_neq in Htext.
  unfold Home_polylinesInitializer, WheelDetailModal_polylinesInitializer, tryLoadPolylines.
  rewrite Htext, Hparse. unfold savedPolylines.
  change (JSON_roundtrip (JArr ?items)) with (JArr (map JSON_roundtrip items)).
  cbv beta iota.
  rewrite (reload_all Number_toString polylines Hfinite). split; reflexivity.
Qed.

(** The default polylines saved and loaded again, and the page after
    Clear: the stored text is [[]], and the next load shows no polyline. *)
Lemma saved_polylines_reload_as_they_were_witness :
  Home_polylinesInitializer JSON_parse_saved_sample Number_toString_sample
    (GetString sampleSavedPolylines) =
  map LoadedPolyline.of_polyline DEFAULT_HOME_POLYLINES /\
  Home_polylinesInitializer JSON_parse_sample Number_toString_sample (GetString "[]") = [].
Proof.
  split.
  - refine (proj1 (saved_polylines_reload_as_they_were JSON_parse_saved_sample
                     Number_toString_sample DEFAULT_HOME_POLYLINES sampleSavedPolylines
                     _ _ _)).
    + discriminate.
    + reflexivity.
    + repeat constructor.
  - refine (proj1 (saved_polylines_reload_as_they_were JSON_parse_sample
                     Number_toString_sample [] "[]" _ _ _)).
    + discriminate.
    + reflexivity.
    + constructor.
Defined.

(** X18.  What the persistence effect wrote for a segment collection is what the
    segment initialiser returns on the next load: the same segments in the
    same order (numbers as read from the text), for segments with their
    geometry in [0,100].  A collection emptied by deleting every segment
    reloads empty, not as the defaults. *)
Theorem saved_segments_reload_as_they_were
  (JSON_parse : string -> option JSON)
  (segments : list Segment.t) (stored : string)
  (Htext : stored <> "")
  (Hparse : JSON_parse stored = Some (savedSegments segments))
  (Hrange : Forall geometryInRange segments) :
  Home_segmentsInitializer JSON_parse (GetString stored) =
  map Segment.value (map reparsedSegment segments).
Proof.
  apply String.eqb_neq in Htext.
  unfold Home_segmentsInitializer. rewrite Htext, Hparse. unfold savedSegments.
  change (JSON_roundtrip (JArr ?items)) with (JArr (map JSON_roundtrip items)).
  cbv iota beta. clear Hparse.
  induction Hrange as [|s segments Hs _ IH]; [reflexivity|].
  cbn [map]. rewrite (roundtrip_segment s Hs). f_equal. exact IH.
Qed.

Lemma saved_segments_reload_as_they_were_witness :
  Home_segmentsInitializer JSON_parse_sample (GetString "[]") = [].
Proof.
  apply (saved_segments_reload_as_they_were JSON_parse_sample [] "[]").
  - discriminate.
  - reflexivity.
  - constructor.
Defined.

(** ** The scale stays within its limits *)

Section ZoomLimits.

Lemma shr_1_nonneg (mrs : shr_record) :
  (0 <= shr_m mrs)%Z -> (0 <= shr_m (shr_1 mrs))%Z.
Proof. destruct mrs as [[|[p|p|]|p] r s]; simpl; lia. Qed.

Lemma iter_shr_1_nonneg (p : positive) :
  forall mrs, (0 <= shr_m mrs)%Z -> (0 <= shr_m (SpecFloat.iter_pos shr_1 p mrs))%Z.
Proof.
  induction p as [p IH|p IH|]; simpl; intros mrs H; auto using shr_1_nonneg.
Qed.

Lemma shr_fexp_nonneg (prec emax m e : Z) (l : location) :
  (0 <= m)%Z -> (0 <= shr_m (fst (shr_fexp prec emax m e l)))%Z.
Proof.
  intros Hm. unfold shr_fexp, shr.
  assert (H0 : (0 <= shr_m (shr_record_of_loc m l))%Z)
    by (destruct l as [|[| |]]; exact Hm).
  destruct (fexp prec emax (Zdigits2 m + e) - e)%Z; simpl; auto.
  apply iter_shr_1_nonneg, H0.
Qed.

Lemma round_nearest_even_nonneg (m : Z) (l : location) :
  (0 <= m)%Z -> (0 <= round_nearest_even m l)%Z.
Proof.
  intros Hm. unfold round_nearest_even.
  destruct l as [|[| |]]; try lia. destruct (Z.even m); lia.
Qed.

Lemma binary_round_aux_not_nan (prec emax : Z) (sx : bool) (mx ex : Z) (lx : location) :
  (0 <= mx)%Z -> binary_round_aux prec emax sx mx ex lx <> S754_nan.
Proof.
  intros Hm. unfold binary_round_aux.
  pose proof (shr_fexp_nonneg prec emax mx ex lx Hm) as H1.
  destruct (shr_fexp prec emax mx ex lx) as [mrs1 e1]. simpl in H1.
  pose proof (shr_fexp_nonneg prec emax
                (round_nearest_even (shr_m mrs1) (loc_of_shr_record mrs1)) e1 loc_Exact
                (round_nearest_even_nonneg _ _ H1)) as H2.
  destruct (shr_fexp prec emax _ e1 loc_Exact) as [mrs2 e2]. simpl in H2.
  destruct (shr_m mrs2) as [|m|m]; [discriminate| |lia].
  destruct (e2 <=? emax - prec)%Z; discriminate.
Qed.

Lemma binary_normalize_not_nan (prec emax m e : Z) (szero : bool) :
  binary_normalize prec emax m e szero <> S754_nan.
Proof.
  unfold binary_normalize, binary_round.
  destruct m as [|m|m]; [discriminate| |];
    destruct (shl_align _ _ _) as [mz ez]; apply binary_round_aux_not_nan; lia.
Qed.

Lemma is_nan_false_of_spec (x : float) :
  Prim2SF x <> S754_nan -> PrimFloat.is_nan x = false.
Proof.
  intros H. unfold PrimFloat.is_nan. rewrite FloatAxioms.eqb_spec. unfold SFeqb.
  destruct (Prim2SF x) as [s|s| |s m e]; simpl; try reflexivity.
  - destruct s; reflexivity.
  - contradiction.
  - rewrite Z.compare_refl, Pos.compare_cont_refl. destruct s; reflexivity.
Qed.

(** Adding a finite number to a number gives a number. *)
Lemma add_finite_not_nan (x d : float) (s : bool) (m : positive) (e : Z) :
  PrimFloat.is_nan x = false -> Prim2SF d = S754_finite s m e ->
  PrimFloat.is_nan (x + d)%float = false.
Proof.
  intros Hx Hd. apply is_nan_false_of_spec.
  rewrite FloatAxioms.add_spec, Hd. unfold SF64add, SFadd.
  pose proof (not_nan_spec x Hx) as Hn.
  destruct (Prim2SF x) as [sx|sx| |sx mx ex]; try discriminate; [contradiction|].
  apply binary_normalize_not_nan.
Qed.

Lemma ltb_leb (x y : float) : (x <? y)%float = true -> (x <=? y)%float = true.
Proof.
  rewrite FloatAxioms.ltb_spec, FloatAxioms.leb_spec. unfold SFltb, SFleb.
  destruct (SFcompare (Prim2SF x) (Prim2SF y)) as [[| |]|]; congruence.
Qed.

Lemma ltb_not_nan_r (x y : float) : (x <? y)%float = true -> PrimFloat.is_nan y = false.
Proof.
  rewrite FloatAxioms.ltb_spec. unfold SFltb. intros H. apply is_nan_false_of_spec.
  intros E. rewrite E in H. destruct (Prim2SF x); discriminate.
Qed.

Lemma clampZoom_in_limits (w : float) :
  PrimFloat.is_nan w = false -> inZoomLimits (clampZoom w) = true.
Proof.
  intros Hw. unfold clampZoom.
  assert (Hmax : JS.Math_max 0.5%float w = 0.5%float \/
                 JS.Math_max 0.5%float w = w /\ (0.5 <? w)%float = true).
  { unfold JS.Math_max, JS.Number_isNaN. rewrite Hw.
    change (PrimFloat.is_nan 0.5%float) with false. cbn [orb].
    destruct (0.5 <? w)%float; [right; split; reflexivity|].
    destruct (w <? 0.5)%float; left; reflexivity. }
  destruct Hmax as [->|[-> Hlt]]; [reflexivity|].
  unfold JS.Math_min, JS.Number_isNaN. rewrite Hw.
  change (PrimFloat.is_nan 4%float) with false. cbn [orb].
  destruct (4 <? w)%float eqn:H4; [reflexivity|].
  assert (Hle : (w <=? 4)%float = true) by (apply ltb_false_leb; auto).
  destruct (w <? 4)%float; [|change (get_sign 4%float) with false; cbv iota];
    unfold inZoomLimits; rewrite (ltb_leb _ _ Hlt), Hle; reflexivity.
Qed.

Lemma digits2_pos_bounds (m : positive) :
  (2 ^ (Z.pos (digits2_pos m) - 1) <= Z.pos m < 2 ^ Z.pos (digits2_pos m))%Z.
Proof.
  assert (Hstep : forall d, (0 < d)%Z -> (2 ^ d = 2 * 2 ^ (d - 1))%Z).
  { intros d Hd. replace d with (Z.succ (d - 1)) at 1 by lia.
    apply Z.pow_succ_r. lia. }
  induction m as [m IH|m IH|]; cbn [digits2_pos]; [| |simpl; lia];
    rewrite Pos2Z.inj_succ;
    replace (Z.succ (Z.pos (digits2_pos m)) - 1)%Z with (Z.pos (digits2_pos m)) by lia;
    rewrite (Z.pow_succ_r 2 (Z.pos (digits2_pos m))) by lia;
    pose proof (Hstep (Z.pos (digits2_pos m)) (Pos2Z.is_pos _)); lia.
Qed.

(** The numbers [n / 100] for [50 <= n <= 400] are within the limits. *)
Lemma hundredths_in_limits (n : Z) :
  (50 <= n <= 400)%Z ->
  inZoomLimits (of_uint63 (Uint63.of_Z n) / 100)%float = true.
Proof.
  intros Hn.
  assert (Htable :
    forallb (fun k => inZoomLimits (of_uint63 (Uint63.of_Z (Z.of_nat k)) / 100)%float)
      (seq 50 351) = true) by (vm_compute; reflexivity).
  rewrite forallb_forall in Htable.
  replace n with (Z.of_nat (Z.to_nat n)) by lia.
  apply Htable. apply in_seq. lia.
Qed.

(** The shape of a number within the limits: 53 bits of mantissa and an
    exponent between -53 and -50. *)
Lemma in_limits_shape (v : float) :
  inZoomLimits v = true ->
  exists m e,
    Prim2SF v = S754_finite false m e /\
    (- 53 <= e <= - 50)%Z /\
    (4503599627370496 <= Z.pos m < 9007199254740992)%Z /\
    (e = (- 50)%Z -> Z.pos m = 4503599627370496%Z).
Proof.
  unfold inZoomLimits. intros H. apply andb_prop in H. destruct H as [Hlo Hhi].
  rewrite FloatAxioms.leb_spec in Hlo, Hhi.
  change (Prim2SF 0.5%float) with (S754_finite false 4503599627370496 (-53)) in Hlo.
  change (Prim2SF 4%float) with (S754_finite false 4503599627370496 (-50)) in Hhi.
  pose proof (Prim2SF_valid v) as Hvalid.
  destruct (Prim2SF v) as [s|s| |s m e]; try discriminate.
  - destruct s; discriminate.
  - destruct s; [discriminate|].
    exists m, e. split; [reflexivity|].
    unfold SFleb, SFcompare in Hlo, Hhi.
    unfold valid_binary, bounded, canonical_mantissa, fexp in Hvalid.
    apply andb_prop in Hvalid. destruct Hvalid as [Hcanon _].
    apply Z.eqb_eq in Hcanon.
    pose proof (digits2_pos_bounds m) as Hdigits.
    assert (He : (- 53 <= e <= - 50)%Z).
    { destruct (Z.compare_spec (-53) e), (Z.compare_spec e (-50));
        try discriminate; lia. }
    assert (Hd : Z.pos (digits2_pos m) = 53%Z).
    { unfold FloatOps.prec, emin, FloatOps.emax in Hcanon. lia. }
    rewrite Hd in Hdigits.
    assert (Hm : (4503599627370496 <= Z.pos m < 9007199254740992)%Z) by exact Hdigits.
    clear Hdigits Hcanon Hd Hlo.
    split; [exact He|]. split; [exact Hm|].
    intros ->. rewrite Z.compare_refl in Hhi.
    rewrite Pos.compare_cont_spec in Hhi.
    destruct (m ?= 4503599627370496)%positive eqn:C; [ | |discriminate Hhi].
    + apply Pos.compare_eq in C. rewrite C. reflexivity.
    + apply Pos.compare_lt_iff in C. apply Pos2Z.pos_lt_pos in C. lia.
Qed.

Lemma toFixed2_digits_in_limits (m : positive) (e : Z) :
  (- 53 <= e <= - 50)%Z ->
  (4503599627370496 <= Z.pos m < 9007199254740992)%Z ->
  (e = (- 50)%Z -> Z.pos m = 4503599627370496%Z) ->
  (50 <= JS.toFixed2_digits m e <= 400)%Z.
Proof.
  intros He Hm Htop. unfold JS.toFixed2_digits.
  assert (Hcases : e = (-53)%Z \/ e = (-52)%Z \/ e = (-51)%Z \/ e = (-50)%Z) by lia.
  destruct Hcases as [-> | [-> | [-> | ->]]].
  - change (50 <= (200 * Z.pos m + 9007199254740992) / 18014398509481984 <= 400)%Z.
    split; [apply Z.div_le_lower_bound|apply Z.lt_succ_r, Z.div_lt_upper_bound]; lia.
  - change (50 <= (200 * Z.pos m + 4503599627370496) / 9007199254740992 <= 400)%Z.
    split; [apply Z.div_le_lower_bound|apply Z.lt_succ_r, Z.div_lt_upper_bound]; lia.
  - change (50 <= (200 * Z.pos m + 2251799813685248) / 4503599627370496 <= 400)%Z.
    split; [apply Z.div_le_lower_bound|apply Z.lt_succ_r, Z.div_lt_upper_bound]; lia.
  - rewrite (Htop eq_refl). vm_compute. split; discriminate.
Qed.

Lemma toFixed2_in_limits (v : float) :
  inZoomLimits v = true -> inZoomLimits (JS.Number_toFixed2 v) = true.
Proof.
  intros Hv. destruct (in_limits_shape v Hv) as (m & e & E & He & Hm & Htop).
  unfold JS.Number_toFixed2. rewrite E.
  assert (Hbig : (0x1p46 <=? abs v)%float = false).
  { rewrite FloatAxioms.leb_spec, abs_spec, E.
    change (Prim2SF 0x1p46%float) with (S754_finite false 4503599627370496 (-6)).
    unfold SFleb, SFabs, SFcompare.
    destruct (Z.compare_spec (-6) e); try reflexivity; lia. }
  rewrite Hbig. apply hundredths_in_limits.
  apply toFixed2_digits_in_limits; assumption.
Qed.

End ZoomLimits.

(** X19.  The scale never leaves its limits: for every scale that is a number,
    finite or not, within the limits or not, and for every [deltaY], NaN
    included, the scale a wheel event passes to [onZoomChange] is between
    0.5 and 4. *)
Theorem wheel_keeps_the_scale_within_its_limits (zoom deltaY : float)
  (Hnumber : JS.Number_isNaN zoom = false) :
  inZoomLimits (BlueprintImageWithSegments.nextZoomOnWheel zoom deltaY) = true.
Proof.
  unfold BlueprintImageWithSegments.nextZoomOnWheel. cbv zeta.
  apply toFixed2_in_limits.
  apply (clampZoom_in_limits (zoom + (if (0 <? deltaY)%float then -1 else 1) * 0.1)%float).
  destruct (0 <? deltaY)%float.
  - apply (add_finite_not_nan zoom (-1 * 0.1)%float true 7205759403792794 (-56) Hnumber).
    reflexivity.
  - apply (add_finite_not_nan zoom (1 * 0.1)%float false 7205759403792794 (-56) Hnumber).
    reflexivity.
Qed.

Lemma wheel_keeps_the_scale_within_its_limits_witness :
  inZoomLimits (BlueprintImageWithSegments.nextZoomOnWheel infinity nan) = true /\
  inZoomLimits (BlueprintImageWithSegments.nextZoomOnWheel (-7)%float 120%float) = true.
Proof.
  split; apply wheel_keeps_the_scale_within_its_limits; reflexivity.
Defined.

(** ** A whole session *)

Section PageSession.

Import BlueprintSidebarEdit SidebarControls HomeCallbacks.

Lemma toggle_zoom (h : Home.State) :
  Home.zoom (Home.handleToggleEditMode h) = Home.zoom h /\
  (Home.isDrawingPolyline (Home.handleToggleEditMode h) = Home.isDrawingPolyline h \/
   Home.isDrawingPolyline (Home.handleToggleEditMode h) = false).
Proof.
  destruct h as [segs polys hov sel z e tp w d a p].
  unfold Home.handleToggleEditMode. simpl.
  destruct e; simpl; [auto|].
  destruct sel as [sel|], segs as [|first rest]; simpl; auto.
  destruct (String.eqb sel ""); simpl; auto.
Qed.

Lemma position_change_polyline_side (id : string) (top left : float) (h : Home.State) :
  Home.polylines (Home.handleSegmentPositionChange id top left h) = Home.polylines h /\
  Home.activePolylineId (Home.handleSegmentPositionChange id top left h) =
    Home.activePolylineId h /\
  Home.isDrawingPolyline (Home.handleSegmentPositionChange id top left h) =
    Home.isDrawingPolyline h /\
  Home.zoom (Home.handleSegmentPositionChange id top left h) = Home.zoom h.
Proof. repeat split. Qed.

Lemma editorStep_polyline_side (JSON_parse : string -> option JSON)
  (ev : EditorEvent) (h : Home.State) (c : BlueprintImageWithSegments.Local) :
  Home.polylines (fst (editorStep JSON_parse (h, c) ev)) = Home.polylines h /\
  Home.activePolylineId (fst (editorStep JSON_parse (h, c) ev)) = Home.activePolylineId h /\
  (Home.isDrawingPolyline (fst (editorStep JSON_parse (h, c) ev)) = Home.isDrawingPolyline h \/
   Home.isDrawingPolyline (fst (editorStep JSON_parse (h, c) ev)) = false) /\
  (Home.zoom (fst (editorStep JSON_parse (h, c) ev)) = Home.zoom h \/
   Home.zoom (fst (editorStep JSON_parse (h, c) ev)) = 1%float) /\
  (BlueprintImageWithSegments.previewPoint (snd (editorStep JSON_parse (h, c) ev)) =
     BlueprintImageWithSegments.previewPoint c \/
   BlueprintImageWithSegments.previewPoint (snd (editorStep JSON_parse (h, c) ev)) = None).
Proof.
  destruct ev as [now36| |n|field entered|field value|col|n lay grab|lay event| |text| |];
    cbn [editorStep].
  - destruct (Home.isEditMode h); simpl; auto 6.
  - destruct (Home.isEditMode h); [|auto 6]. cbn [fst snd]. unfold handleDeleteSegmentClick.
    destruct (selected h); simpl; auto 6.
  - destruct (Home.isEditMode h); [|auto 6]. cbn [fst snd]. unfold handleSelectSegmentClick.
    destruct (nth_error (Home.segments h) n); simpl; auto 6.
  - destruct (Home.isEditMode h); [|auto 6]. cbn [fst snd]. unfold handleGeometryChange.
    destruct (selected h); simpl; auto 6.
  - destruct (Home.isEditMode h); [|auto 6]. cbn [fst snd]. unfold handleTextChange.
    destruct (selected h); simpl; auto 6.
  - destruct (Home.isEditMode h); [|auto 6]. cbn [fst snd]. unfold handleColorChange.
    destruct (selected h); simpl; auto 6.
  - destruct (nth_error (Home.segments h) n) as [segment|]; [|auto 6]. cbn [fst snd].
    destruct (mouse_down_cases lay grab segment h c) as [->|(dx & dy & ->)]; auto 6.
  - cbn [fst snd].
    destruct (drag_move_cases lay event c h) as [->|(drag & top & left & _ & _ & ->)];
      [auto 6|].
    destruct (position_change_polyline_side
                (BlueprintImageWithSegments.drag_id drag)
                (BlueprintImageWithSegments.clampPercent top)
                (BlueprintImageWithSegments.clampPercent left) h) as (-> & -> & -> & ->).
    auto 6.
  - destruct (BlueprintImageWithSegments.dragState c); [|auto 6].
    destruct (BlueprintImageWithSegments.onSegmentPositionChange _); simpl; auto 6.
  - destruct (Home.isEditMode h); [|auto 6]. cbn [fst snd].
    destruct (apply_import_cases JSON_parse (mkLocal text None false) h)
      as [[_ ->]|(parsed & segs & _ & _ & _ & ->)]; simpl; auto 6.
  - destruct (Home.isEditMode h); simpl; auto 6.
  - cbn [fst snd]. destruct (toggle_polylines h) as [-> ->].
    destruct (toggle_zoom h) as [-> Hd]. auto 6.
Qed.

Lemma add_point_segment_side (point : PolylinePoint.t) (h : Home.State) :
  segmentSideUnchanged h (Home.handleAddPolylinePointFromCanvas point h).
Proof.
  unfold Home.handleAddPolylinePointFromCanvas.
  destruct (Home.isDrawingPolyline h); [|repeat split].
  destruct (Home.activePolylineId h) as [active|]; [|repeat split].
  destruct (String.eqb active ""); repeat split.
Qed.

Lemma polylineStep_segment_side (ev : PolylineEvent) (h : Home.State)
  (c : BlueprintImageWithSegments.Local) :
  Home.segments (fst (polylineStep (h, c) ev)) = Home.segments h /\
  Home.zoom (fst (polylineStep (h, c) ev)) = Home.zoom h /\
  (selectionValid h -> selectionValid (fst (polylineStep (h, c) ev))).
Proof.
  assert (Hside : forall h', segmentSideUnchanged h h' ->
            Home.segments h' = Home.segments h /\
            Home.zoom h' = Home.zoom h /\
            (selectionValid h -> selectionValid h')).
  { intros h' (Hs & _ & Hsel & Hz & _). unfold selectionValid.
    rewrite Hs, Hsel, Hz. auto. }
  assert (Hattr : forall p, Home.segments (updateCurrentPolyline p h) = Home.segments h /\
            Home.zoom (updateCurrentPolyline p h) = Home.zoom h /\
            (selectionValid h -> selectionValid (updateCurrentPolyline p h))).
  { intros p. apply Hside, updateCurrentPolyline_segment_side. }
  destruct ev as [cev| |n|value|col|entered|d| | | |]; simpl.
  - destruct cev as [now36|lay event| |lay event|]; simpl; auto.
    + destruct (Home.isEditMode h && negb (Home.isDrawingPolyline h)); simpl; auto.
    + destruct (canvas_click_cases lay event c h) as [->|(point & _ & ->)]; [auto|].
      apply Hside, add_point_segment_side.
    + destruct (Home.isEditMode h && Home.isDrawingPolyline h); simpl; auto.
  - destruct (Home.isEditMode h); simpl; auto.
  - destruct (Home.isEditMode h); simpl; [|auto].
    destruct (polylinePanelShown h); simpl; [|auto].
    unfold handleSelectPolylineChange.
    destruct (nth_error (Home.polylines h) n); simpl; auto.
  - destruct (Home.isEditMode h); simpl; [|auto].
    destruct (polylinePanelShown h); simpl; [|auto]. apply Hattr.
  - destruct (Home.isEditMode h); simpl; [|auto].
    destruct (polylinePanelShown h); simpl; [|auto]. apply Hattr.
  - destruct (Home.isEditMode h); simpl; [|auto].
    destruct (polylinePanelShown h); simpl; [|auto]. apply Hattr.
  - destruct (Home.isEditMode h); simpl; [|auto].
    destruct (polylinePanelShown h); simpl; [|auto]. apply Hattr.
  - destruct (Home.isEditMode h); simpl; [|auto].
    destruct (polylinePanelShown h); simpl; [|auto].
    unfold handleDeletePolylineClick.
    destruct (match currentActivePolylineId h with Some _ => _ | None => _ end) as [id|];
      [|auto].
    destruct (String.eqb id ""); simpl; auto.
  - destruct (confirmDialogOpen h); simpl; [|auto].
    unfold Home.confirmDeletePolyline.
    destruct (Home.pendingDeletePolylineId h) as [pending|]; simpl; [|auto].
    destruct (String.eqb pending ""); simpl; auto.
  - destruct (confirmDialogOpen h); simpl; auto.
  - change (Home.segments (Home.handleToggleEditMode h) = Home.segments h /\
            Home.zoom (Home.handleToggleEditMode h) = Home.zoom h /\
            (selectionValid h -> selectionValid (Home.handleToggleEditMode h))).
    split; [apply toggle_segments|]. split; [apply toggle_zoom|].
    apply toggle_selection_valid.
Qed.

Lemma wheel_step (deltaY : float) (h : Home.State) :
  BlueprintImageWithSegments.handleWheel
    (BlueprintImageWithSegments.rendered_by_Home h) deltaY h =
  Home.setZoom (BlueprintImageWithSegments.nextZoomOnWheel (Home.zoom h) deltaY) h.
Proof.
  unfold BlueprintImageWithSegments.handleWheel,
    BlueprintImageWithSegments.rendered_by_Home.
  destruct (Home.isEditMode h); reflexivity.
Qed.

Lemma wheel_keeps_tenths (deltaY : float) (h : Home.State) :
  zoomOnTenths h ->
  zoomOnTenths
    (Home.setZoom (BlueprintImageWithSegments.nextZoomOnWheel (Home.zoom h) deltaY) h).
Proof.
  intros (k & Hk & Hz). unfold zoomOnTenths. simpl. rewrite Hz.
  destruct (tenths_step k Hk) as [Hup Hdown].
  destruct (0 <? deltaY)%float eqn:Hd.
  - exists (Z.max 5 (k - 1)). split; [lia|]. rewrite <- Hdown.
    unfold BlueprintImageWithSegments.nextZoomOnWheel, wheelDown. rewrite Hd. reflexivity.
  - exists (Z.min 40 (k + 1)). split; [lia|]. rewrite <- Hup.
    unfold BlueprintImageWithSegments.nextZoomOnWheel, wheelUp. rewrite Hd. reflexivity.
Qed.

Lemma polylineStep_drag (ev : PolylineEvent) (h : Home.State)
  (c : BlueprintImageWithSegments.Local) :
  BlueprintImageWithSegments.dragState (snd (polylineStep (h, c) ev)) =
    BlueprintImageWithSegments.dragState c \/
  BlueprintImageWithSegments.dragState (snd (polylineStep (h, c) ev)) = None.
Proof.
  destruct ev as [cev| |n|value|col|entered|d| | | |]; cbn [polylineStep].
  - destruct cev as [now36|lay event| |lay event|]; cbn [canvasStep snd].
    + destruct (Home.isEditMode h && negb (Home.isDrawingPolyline h)); auto.
    + unfold BlueprintImageWithSegments.handleMouseMoveOnCanvas.
      destruct (negb _ || negb _); [auto|].
      destruct (BlueprintImageWithSegments.clientToSvgPercent _ _ _); auto.
    + auto.
    + auto.
    + destruct (Home.isEditMode h && Home.isDrawingPolyline h); auto.
  - destruct (Home.isEditMode h); auto.
  - destruct (Home.isEditMode h); [|auto]. destruct (polylinePanelShown h); auto.
  - destruct (Home.isEditMode h); [|auto]. destruct (polylinePanelShown h); auto.
  - destruct (Home.isEditMode h); [|auto]. destruct (polylinePanelShown h); auto.
  - destruct (Home.isEditMode h); [|auto]. destruct (polylinePanelShown h); auto.
  - destruct (Home.isEditMode h); [|auto]. destruct (polylinePanelShown h); auto.
  - destruct (Home.isEditMode h); [|auto]. destruct (polylinePanelShown h); auto.
  - destruct (confirmDialogOpen h); auto.
  - destruct (confirmDialogOpen h); auto.
  - auto.
Qed.

Lemma pageStep_keeps_invariant (JSON_parse : string -> option JSON)
  (ev : PageEvent) (st : Home.State * BlueprintImageWithSegments.Local) :
  pageInvariant st -> pageInvariant (pageStep JSON_parse st ev).
Proof.
  destruct st as [h c]. unfold pageInvariant. cbn [fst snd].
  intros (Hseg & Hpts & Hprev & Hact & Hzoom).
  destruct ev as [eev|pev|deltaY]; cbn [pageStep].
  - pose proof (editorStep_keeps_range JSON_parse eev (h, c)) as Hg.
    pose proof (editorStep_keeps_ids_importable JSON_parse eev (h, c)) as Hi.
    destruct (editorStep_polyline_side JSON_parse eev h c) as (Ep & Ea & Hd & Hz & Hp).
    apply well_formed_split in Hseg. destruct Hseg as [Hgeo Hids].
    split; [apply well_formed_split; auto|].
    split; [rewrite Ep; exact Hpts|]. split; [|split].
    + unfold previewInRange in *. destruct Hp as [-> | ->]; [exact Hprev|].
      intros q Hq. discriminate Hq.
    + unfold activeValid in *. rewrite Ep, Ea.
      destruct (Home.activePolylineId h); [exact Hact|].
      destruct Hd as [-> | ->]; auto.
    + unfold zoomOnTenths. destruct Hz as [-> | ->]; [exact Hzoom|].
      exists 10%Z. split; [lia|reflexivity].
  - destruct (polylineStep_segment_side pev h c) as (Es & Ez & _).
    destruct (polylineStep_keeps_points_in_range pev h c Hpts Hprev) as [Hp1 Hp2].
    pose proof (polylineStep_keeps_active_valid pev h c Hact) as Ha.
    unfold zoomOnTenths. rewrite Es, Ez. auto 10.
  - cbn [fst snd]. rewrite wheel_step.
    split; [exact Hseg|]. split; [exact Hpts|].
    split; [exact Hprev|]. split; [exact Hact|]. apply wheel_keeps_tenths, Hzoom.
Qed.

(** One event of the page keeps the selection and the held box among the
    segments, when it is not a removal during a drag. *)
Lemma pageStep_keeps_selection (JSON_parse : string -> option JSON)
  (ev : PageEvent) (st : Home.State * BlueprintImageWithSegments.Local) :
  noRemovalWhileDragging JSON_parse [ev] st = true ->
  selectionValid (fst st) -> dragTargetValid st ->
  selectionValid (fst (pageStep JSON_parse st ev)) /\
  dragTargetValid (pageStep JSON_parse st ev).
Proof.
  destruct st as [h c]. cbn [noRemovalWhileDragging fst snd]. rewrite andb_true_r.
  intros Htimed Hsel Hdrag.
  destruct ev as [eev|pev|deltaY]; cbn [pageStep].
  - apply editorStep_keeps_selection; [|exact Hsel|exact Hdrag].
    destruct (BlueprintImageWithSegments.dragState c); [right|left; reflexivity].
    apply negb_true_iff, Htimed.
  - destruct (polylineStep_segment_side pev h c) as (Es & _ & Hs).
    split; [apply Hs, Hsel|].
    unfold dragTargetValid in *. cbn [fst snd] in Hdrag. rewrite Es.
    destruct (polylineStep_drag pev h c) as [-> | ->]; [exact Hdrag|exact I].
  - cbn [fst snd]. rewrite wheel_step. split; [exact Hsel|exact Hdrag].
Qed.

End PageSession.

(** X20.  Whatever the user does on the page, in any order (the events on
    segments, with the press, the moves and the release of a drag as
    events of their own, the events on polylines, wheel events), and for
    every behaviour of [JSON.parse], the page keeps all of the following:
    every segment has an id that is not blank and its geometry in [0,100];
    every point of every polyline, and the tracked preview point, is in
    [0,100] on both axes; the active polyline is null or exists, and a
    line is drawn only while one is active; the scale is one of 0.5, 0.6,
    ..., 4.0. *)
Theorem page_session_keeps_the_store_consistent
  (JSON_parse : string -> option JSON)
  (events : list PageEvent) (st : Home.State * BlueprintImageWithSegments.Local)
  (Hstart : pageInvariant st) :
  pageInvariant (pageRun JSON_parse events st).
Proof.
  unfold pageRun. revert st Hstart.
  induction events as [|ev events IH]; intros st Hstart; [exact Hstart|].
  cbn [fold_left]. apply IH, pageStep_keeps_invariant, Hstart.
Qed.

(** The page as it loads when nothing is stored is consistent, and so
    stays consistent: here after an import that fails, a new segment, a
    drag of the first box with a deletion while the box is held, a line
    with one point, two wheel events and a reset. *)
Lemma page_session_keeps_the_store_consistent_witness :
  pageInvariant pageLoaded /\
  pageInvariant
    (pageRun JSON_parse_sample
       [ OnSegments EvToggleEditMode; OnSegments (EvApplyImport "[42]");
         OnSegments (EvAddSegment "k3");
         OnSegments (EvMouseDown 0 sampleLayout (MouseEvent.mk 150 150));
         OnSegments (EvMouseMove sampleLayout (MouseEvent.mk 160 170));
         OnSegments EvDeleteSegment;
         OnSegments (EvMouseMove sampleLayout (MouseEvent.mk 170 180));
         OnSegments EvMouseUp;
         OnPolylines (PvCanvas (StartPolyline "k4"));
         OnPolylines (PvCanvas (Click sampleLayout (MouseEvent.mk 700 (-20))));
         OnWheel wheelUp; OnWheel 0; OnPolylines (PvCanvas FinishPolyline);
         OnSegments EvReset ]
       pageLoaded).
Proof.
  assert (Hloaded : pageInvariant pageLoaded).
  { unfold pageInvariant, pageLoaded. cbn [fst snd].
    split; [repeat constructor; intros field; destruct field; reflexivity|].
    split; [repeat constructor|].
    split; [intros q Hq; discriminate Hq|].
    split; [reflexivity|].
    exists 10%Z. split; [lia|reflexivity]. }
  split; [exact Hloaded|].
  apply page_session_keeps_the_store_consistent, Hloaded.
Defined.

(** X5.  The selected segment is null or one of the collection after any
    sequence of page events (on segments, on polylines, wheel) in which
    Delete, Import and Reset fire only while no box is held by the mouse;
    and so is the held box.  The press, the moves and the release of a
    drag are events of their own, and any other event may come between
    them. *)
Theorem selected_segment_never_dangles
  (JSON_parse : string -> option JSON)
  (events : list PageEvent) (st : Home.State * BlueprintImageWithSegments.Local)
  (Hselected : selectionValid (fst st))
  (Hheld : dragTargetValid st)
  (Htimed : noRemovalWhileDragging JSON_parse events st = true) :
  selectionValid (fst (pageRun JSON_parse events st)) /\
  dragTargetValid (pageRun JSON_parse events st).
Proof.
  unfold pageRun. revert st Hselected Hheld Htimed.
  induction events as [|ev events IH]; intros st Hselected Hheld Htimed; [auto|].
  cbn [fold_left]. cbn [noRemovalWhileDragging] in Htimed.
  apply andb_prop in Htimed. destruct Htimed as [Hnow Hrest].
  destruct (pageStep_keeps_selection JSON_parse ev st) as [Hs Hd]; try assumption.
  - cbn [noRemovalWhileDragging]. rewrite Hnow. reflexivity.
  - apply IH; assumption.
Qed.

(** A drag of the first box, with a segment added and the wheel turned
    while the box is held, and a deletion after the release. *)
Lemma selected_segment_never_dangles_witness :
  selectionValid
    (fst (pageRun JSON_parse_sample
            [ OnSegments (EvMouseDown 0 sampleLayout (MouseEvent.mk 150 150));
              OnSegments (EvMouseMove sampleLayout (MouseEvent.mk 160 170));
              OnSegments (EvAddSegment "x");
              OnWheel wheelUp;
              OnSegments (EvMouseMove sampleLayout (MouseEvent.mk 170 180));
              OnSegments EvMouseUp;
              OnSegments EvDeleteSegment;
              OnSegments EvToggleEditMode ]
            (sampleEditing, BlueprintImageWithSegments.mounted))).
Proof.
  refine (proj1 (selected_segment_never_dangles JSON_parse_sample _
                   (sampleEditing, BlueprintImageWithSegments.mounted) _ _ _)).
  - simpl. left. reflexivity.
  - exact I.
  - vm_compute. reflexivity.
Defined.

(** The timing matters.  In edit mode the first box is pressed and moved,
    it is deleted while it is held, and the mouse moves again: the
    [mousemove] listener selects the id it holds, which is no longer the
    id of any segment, and the release leaves the selection there. *)
Remark removal_during_a_drag_leaves_the_selection_dangling :
  Home.selectedSegmentId
    (fst (pageRun JSON_parse_sample
            [ OnSegments (EvMouseDown 0 sampleLayout (MouseEvent.mk 150 150));
              OnSegments (EvMouseMove sampleLayout (MouseEvent.mk 160 170));
              OnSegments EvDeleteSegment;
              OnSegments (EvMouseMove sampleLayout (MouseEvent.mk 170 180));
              OnSegments EvMouseUp ]
            (sampleEditing, BlueprintImageWithSegments.mounted))) = Some "s1" /\
  Home.segments
    (fst (pageRun JSON_parse_sample
            [ OnSegments (EvMouseDown 0 sampleLayout (MouseEvent.mk 150 150));
              OnSegments (EvMouseMove sampleLayout (MouseEvent.mk 160 170));
              OnSegments EvDeleteSegment;
              OnSegments (EvMouseMove sampleLayout (MouseEvent.mk 170 180));
              OnSegments EvMouseUp ]
            (sampleEditing, BlueprintImageWithSegments.mounted))) = [].
Proof. split; vm_compute; reflexivity. Qed.

(** ** Deleting a segment *)


(** ** The two modes of the modal *)

Section ModalModes.

Import WheelDetailModalControls.

Lemma afterEffects_polylines (before after : WheelDetailModal.State) :
  WheelDetailModal.polylines (WheelDetailModal.afterEffects true before after) =
  WheelDetailModal.polylines after.
Proof.
  destruct (afterEffects_cases before after) as [->|[-> _]]; reflexivity.
Qed.

Lemma afterEffects_same_length (before after : WheelDetailModal.State) :
  List.length (WheelDetailModal.polylines after) =
  List.length (WheelDetailModal.polylines before) ->
  WheelDetailModal.afterEffects true before after = after.
Proof.
  intros E. unfold WheelDetailModal.afterEffects. rewrite E, Nat.eqb_refl. reflexivity.
Qed.

End ModalModes.

(** X22.  View mode of the modal blocks drawing and nothing else.  With the
    modal in view mode, Start, Finish, a click and a pointer move leave the
    lines as they are; yet Clear empties the collection, the Delete button
    of a row removes every line with the id of that row, and the label
    input renames the active line. *)
Theorem modal_view_mode_blocks_only_drawing (m : WheelDetailModal.State)
  (Hview : WheelDetailModal.isEditMode m = false) :
  (forall now36 lay e,
      WheelDetailModal.polylines (modalStep m (MdStart now36)) = WheelDetailModal.polylines m /\
      WheelDetailModal.polylines (modalStep m (MdClick lay e)) = WheelDetailModal.polylines m /\
      WheelDetailModal.polylines (modalStep m (MdMove lay e)) = WheelDetailModal.polylines m /\
      WheelDetailModal.polylines (modalStep m MdFinish) = WheelDetailModal.polylines m) /\
  WheelDetailModal.polylines (modalStep m MdClear) = [] /\
  (forall n p,
      nth_error (WheelDetailModal.polylines m) n = Some p ->
      ~ In (Polyline.id p)
          (map Polyline.id (WheelDetailModal.polylines (modalStep m (MdRowDelete n))))) /\
  (forall value active p,
      WheelDetailModal.activeId m = Some active -> active <> "" ->
      In p (WheelDetailModal.polylines (modalStep m (MdLabel value))) ->
      Polyline.id p = active -> Polyline.label p = value).
Proof.
  unfold modalStep. split; [|split; [|split]].
  - intros now36 lay e. rewrite !afterEffects_polylines. cbn [modalHandler].
    unfold WheelDetailModal.handleContainerClick, WheelDetailModal.handleMouseMove.
    rewrite Hview. simpl. repeat split.
  - rewrite afterEffects_polylines. reflexivity.
  - intros n p Hn. rewrite afterEffects_polylines. cbn [modalHandler].
    unfold WheelDetailModalControls.handleRowDelete. rewrite Hn. simpl.
    intros Hin. apply in_map_iff in Hin. destruct Hin as (q & Hq & Hin).
    apply filter_In in Hin. destruct Hin as [_ Hne].
    rewrite Hq, String.eqb_refl in Hne. discriminate.
  - intros value active p Ha Hne Hin Hid. rewrite afterEffects_polylines in Hin.
    cbn [modalHandler] in Hin. unfold WheelDetailModalControls.updateActive in Hin.
    apply String.eqb_neq in Hne. rewrite Ha, Hne in Hin. simpl in Hin.
    apply in_map_iff in Hin. destruct Hin as (q & Hq & _).
    destruct (String.eqb (Polyline.id q) active) eqn:E; subst p; [reflexivity|].
    apply String.eqb_neq in E. contradiction.
Qed.

Lemma modal_view_mode_blocks_only_drawing_witness :
  WheelDetailModal.isEditMode sampleModal = false /\
  WheelDetailModal.polylines (modalStep sampleModal MdClear) = [].
Proof.
  split; [reflexivity|].
  refine (proj1 (proj2 (modal_view_mode_blocks_only_drawing sampleModal _))).
  reflexivity.
Defined.

(** X23.  Switching the modal to view mode and back abandons the line being
    drawn: the drawing flag is off and no preview point is left, so later
    clicks add no point, while the lines and the active line are as they
    were before the two switches. *)
Theorem modal_mode_switch_ends_the_drawing_session (m : WheelDetailModal.State)
  (Hedit : WheelDetailModal.isEditMode m = true) :
  modalRun [MdToggleEditMode; MdToggleEditMode] m =
  WheelDetailModal.mk (WheelDetailModal.polylines m) (WheelDetailModal.activeId m)
    false None true /\
  (forall lay e,
      modalStep (modalRun [MdToggleEditMode; MdToggleEditMode] m) (MdClick lay e) =
      modalRun [MdToggleEditMode; MdToggleEditMode] m).
Proof.
  destruct m as [polys a d pv e]. simpl in Hedit. subst e.
  assert (E : modalRun [MdToggleEditMode; MdToggleEditMode]
                (WheelDetailModal.mk polys a d pv true) =
              WheelDetailModal.mk polys a false None true).
  { unfold modalRun, modalStep. simpl.
    unfold WheelDetailModal.afterEffects. simpl. rewrite !Nat.eqb_refl. reflexivity. }
  rewrite E. split; [reflexivity|].
  intros lay ev. unfold modalStep. simpl.
  unfold WheelDetailModal.afterEffects. simpl. rewrite Nat.eqb_refl. reflexivity.
Qed.

Lemma modal_mode_switch_ends_the_drawing_session_witness :
  WheelDetailModal.isDrawing
    (modalRun [MdToggleEditMode; MdToggleEditMode]
       (modalRun [MdToggleEditMode; MdStart "z"] sampleModal)) = false.
Proof.
  rewrite (proj1 (modal_mode_switch_ends_the_drawing_session
                    (modalRun [MdToggleEditMode; MdStart "z"] sampleModal) eq_refl)).
  reflexivity.
Defined.

(** ** What the validator accepts *)

Section ValidatorDomain.

Import BlueprintSidebarEdit.

Lemma segmentOfItem_of_accepted (item : JSON) :
  acceptedItem item -> exists seg, segmentOfItem item = Some seg.
Proof.
  intros (props & id & -> & L & T). unfold segmentOfItem. simpl.
  rewrite L, T. eexists. reflexivity.
Qed.

Lemma normalizeLoop_of_accepted (items : list JSON) :
  Forall acceptedItem items ->
  forall result, exists out, normalizeLoop items result = Some out.
Proof.
  induction 1 as [|item items Hitem _ IH]; intros result; simpl.
  - exists result. reflexivity.
  - destruct (segmentOfItem_of_accepted item Hitem) as [seg ->]. apply IH.
Qed.

End ValidatorDomain.

(** X24.  The validator accepts exactly the arrays whose elements are all
    objects with an [id] that is a string and is not blank: no other field,
    present or absent, of any type or value, makes it reject, and nothing
    else makes it accept. *)
Theorem import_accepts_exactly_arrays_of_objects_with_an_id (raw : JSON) :
  (exists segs, BlueprintSidebarEdit.normalizeImportedSegments raw = Some segs) <->
  (exists items, raw = JArr items /\ Forall acceptedItem items).
Proof.
  split.
  - intros [segs H]. destruct raw as [| | | |items|]; try discriminate.
    exists items. split; [reflexivity|]. simpl in H.
    destruct (normalizeLoop_accepts _ _ _ H) as (segs' & _ & HF).
    clear H. induction HF as [|item seg items segs' Hitem _ IH]; constructor; auto.
    destruct (segmentOfItem_accepts item seg Hitem) as (props & -> & L & T).
    exists props, (Segment.id seg). auto.
  - intros (items & -> & H). simpl. apply normalizeLoop_of_accepted, H.
Qed.

(** ** Adding, then deleting *)

Section AddThenDelete.

Lemma find_after_fresh (id : string) (old : list Segment.t) (s : Segment.t) :
  (forall x, In x old -> Segment.id x <> id) -> Segment.id s = id ->
  find (fun x => is_id (Some id) (Segment.id x)) (old ++ [s]) = Some s.
Proof.
  intros Hfresh Hs. induction old as [|x old IH]; simpl.
  - rewrite Hs, String.eqb_refl. reflexivity.
  - destruct (String.eqb_spec id (Segment.id x)) as [E|E].
    + exfalso. apply (Hfresh x (or_introl eq_refl)). symmetry. exact E.
    + apply IH. intros y Hy. apply Hfresh. right. exact Hy.
Qed.

Lemma filter_after_fresh {A} (key : A -> string) (id : string) (old : list A) (a : A) :
  (forall x, In x old -> key x <> id) -> key a = id ->
  filter (fun x => negb (String.eqb (key x) id)) (old ++ [a]) = old.
Proof.
  intros Hfresh Ha. rewrite filter_app. simpl. rewrite Ha, String.eqb_refl. simpl.
  rewrite app_nil_r. apply filter_keeps_all.
  intros x Hx. apply negb_true_iff, String.eqb_neq, Hfresh, Hx.
Qed.

End AddThenDelete.

(** X25.  Adding a segment and deleting it again with the Delete button of
    the form gives back the collection as it was, provided the generated id
    is not in use; the polylines, the scale and the mode are untouched.
    The selection does not come back: it is the first segment of the
    collection, or null when there is none. *)
Theorem add_then_delete_restores_the_segments (now36 : string) (h : Home.State)
  (Hfresh : forall s, In s (Home.segments h) ->
                      Segment.id s <> ("seg-" ++ now36)%string) :
  Home.segments (SidebarControls.handleDeleteSegmentClick (Home.handleAddSegment now36 h)) =
    Home.segments h /\
  Home.selectedSegmentId
    (SidebarControls.handleDeleteSegmentClick (Home.handleAddSegment now36 h)) =
    option_map Segment.id (hd_error (Home.segments h)) /\
  polylineSideUnchanged h
    (SidebarControls.handleDeleteSegmentClick (Home.handleAddSegment now36 h)).
Proof.
  assert (Hsel : BlueprintSidebarEdit.selected (Home.handleAddSegment now36 h) =
                 Some (Segment.mk ("seg-" ++ now36)
                         ("SEG-" ++ JSString.of_nat (List.length (Home.segments h) + 1))
                         "" "" 10 10 10 8 amber)).
  { unfold BlueprintSidebarEdit.selected.
    change (Home.selectedSegmentId (Home.handleAddSegment now36 h))
      with (Some ("seg-" ++ now36)%string).
    change (Home.segments (Home.handleAddSegment now36 h))
      with (Home.segments h ++
            [Segment.mk ("seg-" ++ now36)
               ("SEG-" ++ JSString.of_nat (List.length (Home.segments h) + 1))
               "" "" 10 10 10 8 amber]).
    rewrite (find_after_fresh ("seg-" ++ now36) (Home.segments h)
               (Segment.mk ("seg-" ++ now36)
               ("SEG-" ++ JSString.of_nat (List.length (Home.segments h) + 1))
               "" "" 10 10 10 8 amber) Hfresh eq_refl).
    reflexivity. }
  unfold SidebarControls.handleDeleteSegmentClick. rewrite Hsel.
  unfold Home.handleDeleteSegment.
  change (Home.segments (Home.handleAddSegment now36 h))
    with (Home.segments h ++
          [Segment.mk ("seg-" ++ now36)
             ("SEG-" ++ JSString.of_nat (List.length (Home.segments h) + 1))
             "" "" 10 10 10 8 amber]).
  change (Home.selectedSegmentId (Home.handleAddSegment now36 h))
    with (Some ("seg-" ++ now36)%string).
  cbn [Segment.id].
  rewrite (filter_after_fresh Segment.id ("seg-" ++ now36) (Home.segments h)
             (Segment.mk ("seg-" ++ now36)
               ("SEG-" ++ JSString.of_nat (List.length (Home.segments h) + 1))
               "" "" 10 10 10 8 amber) Hfresh eq_refl).
  assert (Hid : is_id (Some ("seg-" ++ now36)%string) ("seg-" ++ now36) = true)
    by apply String.eqb_refl.
  rewrite Hid. repeat split.
Qed.

Lemma add_then_delete_restores_the_segments_witness :
  Home.segments (SidebarControls.handleDeleteSegmentClick
                   (Home.handleAddSegment "k9" sampleEditing)) = [sampleSegment].
Proof.
  refine (proj1 (add_then_delete_restores_the_segments "k9" sampleEditing _)).
  intros s [<-|[]]. discriminate.
Defined.

(** X26.  Starting a line and deleting it again (the Delete button of the
    panel, then Confirm) gives back the polylines as they were, provided
    the generated id is not in use: the drawing flag is off, nothing is
    pending, and the segments, the selection, the scale and the mode are
    untouched.  The active polyline does not come back: it is the first
    polyline of the collection, or null when there is none. *)
Theorem start_then_delete_restores_the_polylines (now36 : string) (h : Home.State)
  (Hfresh : forall p, In p (Home.polylines h) ->
                      Polyline.id p <> ("poly-" ++ now36)%string) :
  Home.polylines
    (Home.confirmDeletePolyline
       (SidebarControls.handleDeletePolylineClick (Home.handleStartPolyline now36 h))) =
    Home.polylines h /\
  Home.activePolylineId
    (Home.confirmDeletePolyline
       (SidebarControls.handleDeletePolylineClick (Home.handleStartPolyline now36 h))) =
    option_map Polyline.id (hd_error (Home.polylines h)) /\
  Home.isDrawingPolyline
    (Home.confirmDeletePolyline
       (SidebarControls.handleDeletePolylineClick (Home.handleStartPolyline now36 h))) =
    false /\
  Home.pendingDeletePolylineId
    (Home.confirmDeletePolyline
       (SidebarControls.handleDeletePolylineClick (Home.handleStartPolyline now36 h))) =
    None /\
  segmentSideUnchanged h
    (Home.confirmDeletePolyline
       (SidebarControls.handleDeletePolylineClick (Home.handleStartPolyline now36 h))).
Proof.
  assert (Hne : String.eqb ("poly-" ++ now36) "" = false) by reflexivity.
  assert (Hclick : SidebarControls.handleDeletePolylineClick (Home.handleStartPolyline now36 h) =
                   Home.setPendingDeletePolylineId (Some ("poly-" ++ now36)%string)
                     (Home.handleStartPolyline now36 h)).
  { unfold SidebarControls.handleDeletePolylineClick,
      SidebarControls.currentActivePolylineId.
    change (Home.activePolylineId (Home.handleStartPolyline now36 h))
      with (Some ("poly-" ++ now36)%string).
    cbv beta iota. rewrite Hne. reflexivity. }
  rewrite Hclick. unfold Home.confirmDeletePolyline.
  change (Home.pendingDeletePolylineId
            (Home.setPendingDeletePolylineId (Some ("poly-" ++ now36)%string)
               (Home.handleStartPolyline now36 h)))
    with (Some ("poly-" ++ now36)%string).
  cbv beta iota. rewrite Hne.
  unfold Home.handleDeletePolyline.
  change (Home.polylines
            (Home.setPendingDeletePolylineId (Some ("poly-" ++ now36)%string)
               (Home.handleStartPolyline now36 h)))
    with (Home.polylines h ++
          [Polyline.mk ("poly-" ++ now36)
             ("Линия " ++ JSString.of_nat (List.length (Home.polylines h) + 1))
             "" cyan 0.7 solid []]).
  change (Home.activePolylineId
            (Home.setPendingDeletePolylineId (Some ("poly-" ++ now36)%string)
               (Home.handleStartPolyline now36 h)))
    with (Some ("poly-" ++ now36)%string).
  rewrite (filter_after_fresh Polyline.id ("poly-" ++ now36) (Home.polylines h)
             (Polyline.mk ("poly-" ++ now36)
                ("Линия " ++ JSString.of_nat (List.length (Home.polylines h) + 1))
                "" cyan 0.7 solid [])
             Hfresh eq_refl).
  assert (Hid : is_id (Some ("poly-" ++ now36)%string) ("poly-" ++ now36) = true)
    by apply String.eqb_refl.
  rewrite Hid. repeat split.
Qed.

Lemma start_then_delete_restores_the_polylines_witness :
  Home.polylines
    (Home.confirmDeletePolyline
       (SidebarControls.handleDeletePolylineClick
          (Home.handleStartPolyline "k9" sampleEditing))) = [].
Proof.
  refine (proj1 (start_then_delete_restores_the_polylines "k9" sampleEditing _)).
  intros p [].
Defined.

(** ** Zooming in, then out *)

(** X27.  The wheel does not drift.  On the scales the page can reach, the
    doubles nearest to k/10, one step in followed by one step out gives
    back the very same scale for 0.5 <= k/10 <= 3.9, and one step out
    followed by one step in does for 0.6 <= k/10 <= 4.0.  At the limits
    the first step saturates: in and out from 4.0 ends on 3.9, out and in
    from 0.5 ends on 0.6. *)
Theorem zoom_in_then_out_returns (k : Z) (Hk : (5 <= k <= 39)%Z) :
  BlueprintImageWithSegments.nextZoomOnWheel
    (BlueprintImageWithSegments.nextZoomOnWheel (tenths k) wheelUp) wheelDown =
    tenths k /\
  BlueprintImageWithSegments.nextZoomOnWheel
    (BlueprintImageWithSegments.nextZoomOnWheel (tenths (k + 1)) wheelDown) wheelUp =
    tenths (k + 1) /\
  BlueprintImageWithSegments.nextZoomOnWheel
    (BlueprintImageWithSegments.nextZoomOnWheel (tenths 40) wheelUp) wheelDown =
    tenths 39 /\
  BlueprintImageWithSegments.nextZoomOnWheel
    (BlueprintImageWithSegments.nextZoomOnWheel (tenths 5) wheelDown) wheelUp =
    tenths 6.
Proof.
  split; [|split; [|split; vm_compute; reflexivity]].
  - rewrite (proj1 (tenths_step k ltac:(lia))).
    rewrite (proj2 (tenths_step (Z.min 40 (k + 1)) ltac:(lia))).
    f_equal. lia.
  - rewrite (proj2 (tenths_step (k + 1) ltac:(lia))).
    rewrite (proj1 (tenths_step (Z.max 5 (k + 1 - 1)) ltac:(lia))).
    f_equal. lia.
Qed.

Lemma zoom_in_then_out_returns_witness :
  BlueprintImageWithSegments.nextZoomOnWheel
    (BlueprintImageWithSegments.nextZoomOnWheel (tenths 12) wheelUp) wheelDown =
  tenths 12.
Proof.
  refine (proj1 (zoom_in_then_out_returns 12 _)). lia.
Defined.
